(** * BFit: grids, measures and the greedy least-squares seed stage

    A shallow embedding of the parts of the BFit sources that the
    specification talks about:

    - [src/bfit/measure.py]            (modules [KLDivergence],
      [SquaredDifference]),
    - [src/fitting/grid.py]            (modules [BaseRadialGrid],
      [UniformRadialGrid], [ClenshawRadialGrid], [CubicGrid]),
    - [src/fitting/radial_grid/cubic_grid.py] (module [RadialGridCubicGrid]),
    - [src/fitting/least_squares/density_model.py] (module [DensityModel]),
    - [src/bfit/greedy/greedy_lq.py]   (module [GreedyLeastSquares]).

    Numbers.  The program computes with IEEE double precision floats through
    numpy.  Here an input array holds real numbers ([list R]) and a computed
    value is a [num]: a real number, one of the two infinities, or NaN.  The
    arithmetic of [num] follows IEEE 754 for the special values (division by
    zero, logarithm of zero, NaN propagation, comparisons with NaN), while
    finite results are exact: rounding, overflow and the sign of zero are
    not modelled.  Two thresholds of the machine formats that decide what
    the program returns are modelled: the tolerance [tiny] = 2^-1022 of
    numpy's masked division, and the wrap-around of 64-bit integer powers.

    Exceptions.  A Python call that may raise returns a [result]. *)

From Stdlib Require Import String.
From Stdlib Require Import Reals Lra Lia List ZArith Bool Sorted Permutation.
Import ListNotations.
Open Scope R_scope.

(* ================================================================== *)
(** * Python values, exceptions and results *)

Module Py.

(** The exceptions raised by the modelled code.  [FittingError] is the error
    the specification names for a failed seed stage. *)
Inductive exn : Type :=
| ValueError
| TypeError
| UnboundLocalError
| FittingError.

Inductive result (A : Type) : Type :=
| Ok (a : A)
| Raise (e : exn).

Arguments Ok {A} a.
Arguments Raise {A} e.

Definition bind {A B : Type} (r : result A) (k : A -> result B) : result B :=
  match r with
  | Ok a => k a
  | Raise e => Raise e
  end.

(** The specification's ValidationError: the code signals a rejected argument
    with [TypeError] or [ValueError]. *)
Definition is_validation_error (e : exn) : bool :=
  match e with
  | ValueError | TypeError => true
  | _ => false
  end.

(** A numpy array: its shape and its elements in row-major order. *)
Record ndarray : Type := mk_ndarray { shape : list nat; data : list R }.

Definition ndim (a : ndarray) : nat := length (shape a).

(** The one-dimensional array holding [l]. *)
Definition array1d (l : list R) : ndarray :=
  {| shape := [length l]; data := l |}.

Definition shape_eqb (s t : list nat) : bool :=
  if list_eq_dec Nat.eq_dec s t then true else false.

(** The dynamically typed arguments the constructors inspect with
    [isinstance]. *)
Inductive pyval : Type :=
| PyNone
| PyBool (b : bool)
| PyInt (z : Z)
| PyFloat (x : R)
| PyStr (s : String.string)
| PyList (l : list R)
| PyArray (a : ndarray).

(** [isinstance(v, int)]: [bool] is a subclass of [int]. *)
Definition as_int (v : pyval) : option Z :=
  match v with
  | PyInt z => Some z
  | PyBool b => Some (if b then 1%Z else 0%Z)
  | _ => None
  end.

(** [isinstance(v, (int, float))], with the value as a real number. *)
Definition as_number (v : pyval) : option R :=
  match v with
  | PyFloat x => Some x
  | _ => option_map IZR (as_int v)
  end.

(** A number that passed [isinstance(v, (int, float))], with its type kept:
    an [int] (a [bool] counts as one) or a [float]. *)
Inductive number : Type :=
| Integer (z : Z)
| Float (x : R).

Definition number_value (n : number) : R :=
  match n with
  | Integer z => IZR z
  | Float x => x
  end.

Definition as_typed_number (v : pyval) : option number :=
  match v with
  | PyFloat x => Some (Float x)
  | _ => option_map Integer (as_int v)
  end.

Definition Rltb (x y : R) : bool := if Rlt_dec x y then true else false.
Definition Rleb (x y : R) : bool := if Rle_dec x y then true else false.

End Py.

Export Py.

Declare Scope py_scope.
Notation "x <- r ;; k" := (bind r (fun x => k))
  (at level 61, r at next level, right associativity) : py_scope.
Open Scope py_scope.

(* ================================================================== *)
(** * Floating point values with infinities and NaN *)

Module Num.

Inductive num : Type :=
| Fin (x : R)
| PInf
| NInf
| NaN.

Definition is_finite (a : num) : bool :=
  match a with
  | Fin _ => true
  | _ => false
  end.

Definition nneg (a : num) : num :=
  match a with
  | Fin x => Fin (- x)
  | PInf => NInf
  | NInf => PInf
  | NaN => NaN
  end.

Definition nadd (a b : num) : num :=
  match a, b with
  | NaN, _ | _, NaN => NaN
  | Fin x, Fin y => Fin (x + y)
  | PInf, NInf | NInf, PInf => NaN
  | PInf, _ | _, PInf => PInf
  | NInf, _ | _, NInf => NInf
  end.

Definition nsub (a b : num) : num := nadd a (nneg b).

(** An infinity ([positive] tells which) combined with the sign of the finite
    [x]: the product [x * inf], and also the quotient [x / 0]. *)
Definition signed_inf (positive : bool) (x : R) : num :=
  if Rlt_dec 0 x then (if positive then PInf else NInf)
  else if Rlt_dec x 0 then (if positive then NInf else PInf)
  else NaN.

Definition nmul (a b : num) : num :=
  match a, b with
  | NaN, _ | _, NaN => NaN
  | Fin x, Fin y => Fin (x * y)
  | Fin x, PInf | PInf, Fin x => signed_inf true x
  | Fin x, NInf | NInf, Fin x => signed_inf false x
  | PInf, PInf | NInf, NInf => PInf
  | PInf, NInf | NInf, PInf => NInf
  end.

(** numpy's float division does not raise: [x / 0] is an infinity and
    [0 / 0] is NaN. *)
Definition ndiv (a b : num) : num :=
  match a, b with
  | NaN, _ | _, NaN => NaN
  | Fin x, Fin y => if Req_dec_T y 0 then signed_inf true x else Fin (x / y)
  | Fin _, PInf | Fin _, NInf => Fin 0
  | PInf, Fin y => if Rlt_dec y 0 then NInf else PInf
  | NInf, Fin y => if Rlt_dec y 0 then PInf else NInf
  | _, _ => NaN
  end.

Definition nexp (a : num) : num :=
  match a with
  | Fin x => Fin (exp x)
  | PInf => PInf
  | NInf => Fin 0
  | NaN => NaN
  end.

(** [np.log]: minus infinity at zero, NaN below. *)
Definition nlog (a : num) : num :=
  match a with
  | Fin x => if Rlt_dec 0 x then Fin (ln x)
             else if Req_dec_T x 0 then NInf else NaN
  | PInf => PInf
  | NInf => NaN
  | NaN => NaN
  end.

(** [a < b]; every comparison with NaN is false. *)
Definition nltb (a b : num) : bool :=
  match a, b with
  | NaN, _ | _, NaN => false
  | Fin x, Fin y => Rltb x y
  | NInf, NInf => false
  | NInf, _ => true
  | _, PInf => match a with PInf => false | _ => true end
  | _, _ => false
  end.

(** [a >= b]; every comparison with NaN is false. *)
Definition ngeb (a b : num) : bool :=
  match a, b with
  | NaN, _ | _, NaN => false
  | Fin x, Fin y => Rleb y x
  | PInf, _ | _, NInf => true
  | _, _ => false
  end.

(** [np.absolute] *)
Definition nabs (a : num) : num :=
  match a with
  | Fin x => Fin (Rabs x)
  | PInf | NInf => PInf
  | NaN => NaN
  end.

(** Integer powers by repeated multiplication. *)
Fixpoint npow (a : num) (n : nat) : num :=
  match n with
  | O => Fin 1
  | S n' => nmul a (npow a n')
  end.

End Num.

Export Num.

Declare Scope num_scope.
Delimit Scope num_scope with num.
Bind Scope num_scope with num.
Notation "a + b" := (nadd a b) : num_scope.
Notation "a - b" := (nsub a b) : num_scope.
Notation "a * b" := (nmul a b) : num_scope.
Notation "a / b" := (ndiv a b) : num_scope.
Notation "- a" := (nneg a) : num_scope.

(* ================================================================== *)
(** * Elementwise numpy operations on one-dimensional arrays *)

Module Np.

(** Elementwise combination of two arrays of the same length. *)
Fixpoint zip_with {A B C : Type} (f : A -> B -> C) (l : list A) (m : list B)
  : list C :=
  match l, m with
  | a :: l', b :: m' => f a b :: zip_with f l' m'
  | _, _ => []
  end.

Definition Rsum (l : list R) : R := fold_right Rplus 0 l.

(** [np.sum] of computed values. *)
Definition sum (l : list num) : num := fold_right nadd (Fin 0) l.

Definition arr (l : list R) : list num := map Fin l.
Definition ones (n : nat) : list R := repeat 1 n.
Definition multiply (l m : list num) : list num := zip_with nmul l m.
Definition power (l : list num) (n : nat) : list num :=
  map (fun x => npow x n) l.
Definition log (l : list num) : list num := map nlog l.
Definition negative (l : list num) : list num := map nneg l.

(** [np.any(a < v)] *)
Definition less (l : list R) (v : R) : list bool :=
  map (fun x => Rltb x v) l.
Definition any (l : list bool) : bool := existsb (fun b => b) l.

(** ** Masked arrays ([numpy.ma]) *)

Record masked_array : Type :=
  mk_masked { ma_data : list num; ma_mask : list bool }.

(** [np.ma.masked_less_equal(x, value)] *)
Definition masked_less_equal (x : list R) (value : R) : masked_array :=
  {| ma_data := arr x; ma_mask := map (fun xi => Rleb xi value) x |}.

(** [np.finfo(float).tiny], the smallest positive normal double: 2^-1022. *)
Definition tiny : R := / 2 ^ 1022.

(** The validity domain of masked division, numpy's [_DomainSafeDivide]:
    [a / b] is outside it where [|a| * tiny >= |b|], that is for a zero
    divisor and for a quotient of magnitude 2^1022 or more. *)
Definition domain_safe_divide (a b : num) : bool :=
  ngeb (nabs a * Fin tiny)%num (nabs b).

(** [a / b] for a plain array [a] and a masked array [b]: the quotient is
    masked where the divisor is masked, where the divisor is outside the
    domain of division and where the quotient is not finite. *)
Definition ma_true_divide (a : list num) (b : masked_array) : masked_array :=
  let result := zip_with ndiv a (ma_data b) in
  let m := zip_with orb
             (zip_with orb (map (fun r => negb (is_finite r)) result)
                           (zip_with domain_safe_divide a (ma_data b)))
             (ma_mask b) in
  {| ma_data := result; ma_mask := m |}.

(** [np.ma.filled(a, fill_value)] *)
Definition ma_filled (a : masked_array) (fill_value : R) : list num :=
  zip_with (fun (m : bool) x => if m then Fin fill_value else x)
           (ma_mask a) (ma_data a).

End Np.

(* ================================================================== *)
(** * [bfit/measure.py]: the Kullback-Leibler divergence measure *)

Module KLDivergence.

Record t : Type := mk { _density : ndarray; _mask_value : R }.

(** The default value of the [mask_value] argument. *)
Definition default_mask_value : R := 1e-12.

Definition __init__ (density : pyval) (mask_value : R) : result t :=
  match density with
  | PyArray d =>
      if negb (Nat.eqb (ndim d) 1) then Raise ValueError
      else if Np.any (Np.less (data d) 0) then Raise ValueError
      else Ok {| _density := d; _mask_value := mask_value |}
  | _ => Raise ValueError
  end.

Definition density (self : t) : ndarray := _density self.
Definition mask_value (self : t) : R := _mask_value self.

(** [evaluate] returns [value] alone, or the pair [(value, -ratio)] when
    [deriv] is set: the second component is [None] in the first case. *)
Definition evaluate (self : t) (model : pyval) (deriv : bool)
  : result (list num * option (list num)) :=
  match model with
  | PyArray m =>
      if negb (shape_eqb (shape m) (shape (density self))) then Raise ValueError
      else if Np.any (Np.less (data m) 0) then Raise ValueError
      else
        let ratio := Np.ma_true_divide (Np.arr (data (density self)))
                       (Np.masked_less_equal (data m) (mask_value self)) in
        let ratio := Np.ma_filled ratio 1 in
        let value := Np.multiply (Np.arr (data (density self))) (Np.log ratio) in
        if deriv then Ok (value, Some (Np.negative ratio))
        else Ok (value, None)
  | _ => Raise ValueError
  end.

(** The entry of the filled [ratio] at a point with density [d] and model
    value [m], read off the masking rules above; [evaluate_ratio] below shows
    it is what the masked division computes. *)
Definition ratio_at (mask d m : R) : num :=
  if Rleb m mask then Fin 1
  else if Rleb (Rabs m) (Rabs d * Np.tiny) then Fin 1
  else Fin (d / m).

End KLDivergence.

(* ================================================================== *)
(** * [fitting/grid.py]: radial and cubic grids *)

Module NpGrid.

(** [np.diff(x)] *)
Definition diff (x : list R) : list R :=
  Np.zip_with (fun a b => b - a) x (tl x).

(** [np.trapz(y=y, x=x)]:
    [d = diff(x); (d * (y[1:] + y[:-1]) / 2.0).sum()]. *)
Definition trapz (y x : list R) : R :=
  let d := diff x in
  Np.Rsum (map (fun v => v / 2)
             (Np.zip_with Rmult d (Np.zip_with Rplus (tl y) (removelast y)))).

(** [np.linspace(start, stop, num)] for [num >= 1]. *)
Definition linspace (start stop : R) (num : nat) : list R :=
  match num with
  | 1%nat => [start]
  | _ => let step := (stop - start) / INR (num - 1) in
         map (fun i => INR i * step + start) (seq 0 num)
  end.

(** The least integer not below [x]. *)
Definition ceil (x : R) : Z := (1 - up (- x))%Z.

(** [np.arange(start, stop, step)]: [ceil((stop - start) / step)] values
    [start + i * step].  The number of values is that of the exact
    quotient; the program rounds [stop - start] and the quotient to doubles
    before taking the ceiling, so that its array can be one value longer or
    shorter when the exact quotient is an integer or close to one. *)
Definition arange (start stop step : R) : list R :=
  map (fun i => start + INR i * step)
      (seq 0 (Z.to_nat (ceil ((stop - start) / step)))).

Fixpoint insert (x : R) (l : list R) : list R :=
  match l with
  | [] => [x]
  | y :: l' => if Rle_dec x y then x :: l else y :: insert x l'
  end.

(** [np.sort] *)
Definition sort (l : list R) : list R := fold_right insert [] l.

(** [np.repeat(l, k)]: every element [k] times in a row. *)
Definition repeat_each (l : list R) (k : nat) : list R :=
  flat_map (fun x => repeat x k) l.

(** [np.tile(l, k)]: [k] copies of the whole array. *)
Definition tile (l : list R) (k : nat) : list R := concat (repeat l k).

Definition ascii_lower (c : Ascii.ascii) : Ascii.ascii :=
  let n := Ascii.nat_of_ascii c in
  if Nat.leb 65 n && Nat.leb n 90 then Ascii.ascii_of_nat (n + 32) else c.

(** [str.lower] *)
Fixpoint lower (s : String.string) : String.string :=
  match s with
  | String.EmptyString => String.EmptyString
  | String.String c s' => String.String (ascii_lower c) (lower s')
  end.

End NpGrid.

Module BaseRadialGrid.

Record t : Type := mk { _points : list R; _spherical : bool }.

Definition __init__ (points : pyval) (spherical : bool) : result t :=
  match points with
  | PyArray p =>
      if negb (Nat.eqb (ndim p) 1) then Raise TypeError
      else Ok {| _points := data p; _spherical := spherical |}
  | _ => Raise TypeError
  end.

Definition points (self : t) : list R := _points self.
Definition spherical (self : t) : bool := _spherical self.

(** [self.points.shape] *)
Definition points_shape (self : t) : list nat := [length (points self)].

Definition integrate (self : t) (arr : ndarray) : result R :=
  if negb (shape_eqb (shape arr) (points_shape self)) then Raise ValueError
  else if _spherical self then
    Ok (4 * PI * NpGrid.trapz
                   (Np.zip_with Rmult (map (fun p => p ^ 2) (points self))
                                      (data arr))
                   (points self))
  else Ok (NpGrid.trapz (data arr) (points self)).

(** The trapezoidal rule as the specification words it: the sum over
    consecutive points of the width times the mean of the two values. *)
Fixpoint trapezoidal_rule (x y : list R) : R :=
  match x, y with
  | x0 :: x', y0 :: y' =>
      match x', y' with
      | x1 :: _, y1 :: _ =>
          (x1 - x0) * ((y0 + y1) / 2) + trapezoidal_rule x' y'
      | _, _ => 0
      end
  | _, _ => 0
  end.

End BaseRadialGrid.

Module UniformRadialGrid.

Definition __init__ (num_pts min_radii max_radii : pyval) (spherical : bool)
  : result BaseRadialGrid.t :=
  match as_int num_pts with
  | None => Raise TypeError
  | Some n =>
      if (n <=? 0)%Z then Raise TypeError
      else match as_number min_radii with
      | None => Raise TypeError
      | Some lo =>
          match as_number max_radii with
          | None => Raise TypeError
          | Some hi =>
              if Rleb hi lo then Raise ValueError
              else
                let points := NpGrid.linspace lo hi (Z.to_nat n) in
                BaseRadialGrid.__init__ (PyArray (array1d points)) spherical
          end
      end
  end.

End UniformRadialGrid.

Module ClenshawRadialGrid.

Record t : Type :=
  mk { base : BaseRadialGrid.t; _atomic_number : Z }.

Definition _get_points (atomic_number : Z) (num_pts : Z) (mode : String.string)
  : result (list R) :=
  let p := map INR (seq 0 (Z.to_nat num_pts)) in
  let one_minus_cos :=
    map (fun i => 1 - cos (0.5 * PI * i / IZR num_pts)) p in
  if String.eqb (NpGrid.lower mode) "core"%string then
    Ok (map (fun v => v / IZR (2 * atomic_number)) one_minus_cos)
  else if String.eqb (NpGrid.lower mode) "diffuse"%string then
    Ok (map (fun v => 25 * v) one_minus_cos)
  else Raise ValueError.

(** The truth value Python gives [extra_pts] in [if extra_pts:]; an array
    with more than one element has none. *)
Definition truth (v : pyval) : result bool :=
  match v with
  | PyNone => Ok false
  | PyBool b => Ok b
  | PyInt z => Ok (negb (z =? 0)%Z)
  | PyFloat x => Ok (if Req_dec_T x 0 then false else true)
  | PyStr s => Ok (negb (String.eqb s String.EmptyString))
  | PyList l => Ok (match l with [] => false | _ => true end)
  | PyArray a =>
      match data a with
      | [] => Ok false
      | [x] => Ok (if Req_dec_T x 0 then false else true)
      | _ => Raise ValueError
      end
  end.

(** [np.concatenate((core, diffuse, extra_pts))] for an [extra_pts] that
    passed the iterable check: the arrays must all be one-dimensional. *)
Definition concatenate_extra (core diffuse : list R) (extra_pts : pyval)
  : result (list R) :=
  match extra_pts with
  | PyList l => Ok (core ++ diffuse ++ l)
  | PyArray a =>
      if Nat.eqb (ndim a) 1 then Ok (core ++ diffuse ++ data a)
      else Raise ValueError
  | _ => Raise TypeError
  end.

Definition __init__ (atomic_number num_core_pts num_diffuse_pts : pyval)
    (extra_pts : pyval) (spherical : bool) : result t :=
  match as_int atomic_number with
  | None => Raise TypeError
  | Some z =>
      if (z <=? 0)%Z then Raise TypeError
      else match as_int num_core_pts with
      | None => Raise TypeError
      | Some nc =>
          if (nc <? 0)%Z then Raise TypeError
          else match as_int num_diffuse_pts with
          | None => Raise TypeError
          | Some nd =>
              if (nd <? 0)%Z then Raise TypeError
              else
                core_points <- _get_points z nc "core"%string ;;
                diff_points <- _get_points z nd "diffuse"%string ;;
                has_extra <- truth extra_pts ;;
                points <-
                  (if has_extra : bool then
                     match extra_pts with
                     | PyList _ | PyArray _ =>
                         concatenate_extra core_points (tl diff_points) extra_pts
                     | _ => Raise TypeError
                     end
                   else Ok (core_points ++ tl diff_points)) ;;
                b <- BaseRadialGrid.__init__
                       (PyArray (array1d (NpGrid.sort points))) spherical ;;
                Ok {| base := b; _atomic_number := z |}
          end
      end
  end.

End ClenshawRadialGrid.

Module CubicGrid.

(** The rows of the [(npoints^3, 3)] array of points, and the step as it
    was passed: an int or a float. *)
Record t : Type := mk { _points : list (R * R * R); _step : number }.

Definition __init__ (smallest_pnt largest_pnt step_size : pyval) : result t :=
  match as_number smallest_pnt with
  | None => Raise TypeError
  | Some lo =>
      match as_number largest_pnt with
      | None => Raise TypeError
      | Some hi =>
          match as_number step_size with
          | None => Raise TypeError
          | Some h =>
              if Rleb h 0 then Raise TypeError
              else if Rleb hi lo then Raise ValueError
              else
                let points_1d := NpGrid.arange lo (hi + h) h in
                let npoints := length points_1d in
                let xs := NpGrid.repeat_each points_1d (npoints ^ 2) in
                let ys := NpGrid.tile (NpGrid.repeat_each points_1d npoints)
                            npoints in
                let zs := NpGrid.tile points_1d (npoints ^ 2) in
                Ok {| _points :=
                        Np.zip_with (fun xy z => (xy, z))
                                    (Np.zip_with pair xs ys) zs;
                      _step := match as_typed_number step_size with
                               | Some step => step
                               | None => Float h
                               end |}
          end
      end
  end.

Definition points (self : t) : list (R * R * R) := _points self.
Definition step (self : t) : number := _step self.

(** [__len__]: the number of rows of the array of points. *)
Definition __len__ (self : t) : nat := length (_points self).

(** Wrap-around of the 64-bit signed integers. *)
Definition int64 (z : Z) : Z := ((z + 2 ^ 63) mod 2 ^ 64 - 2 ^ 63)%Z.

(** [np.power(self._step, 3)]: the power of a float for a float step; for an
    int step (taken to fit 64 bits) the power is computed in 64-bit integers
    and wraps around. *)
Definition power3 (step : number) : R :=
  match step with
  | Float h => h ^ 3
  | Integer z => IZR (int64 (z ^ 3))
  end.

Definition integrate (self : t) (arr : ndarray) : result R :=
  if negb (shape_eqb (shape arr) [__len__ self]) then Raise ValueError
  else Ok (power3 (_step self) * Np.Rsum (data arr)).

(** All triples of axis points, the first coordinate varying slowest. *)
Definition cube (axis : list R) : list (R * R * R) :=
  flat_map (fun x => flat_map (fun y => map (fun z => (x, y, z)) axis) axis)
           axis.

End CubicGrid.

(* ================================================================== *)
(** * [bfit/model.py]: the Gaussian density model

    The class [AtomicGaussianDensity] is imported by [greedy_lq.py] but is
    not among the source files.  The greedy strategy is written against its
    interface, the record [t]; [spec_model] is the model the specification
    describes. *)

Module AtomicGaussianDensity.

Record t : Type := mk {
  _density : list R;
  element : option String.string;
  cost_function : list num -> num;
  create_cofactor_matrix : list num -> list (list num);
  generation_of_UGBS_exponents : R -> list R -> list R
}.

(** Modelled from the spec: [create_model] of the missing class
    [AtomicGaussianDensity] (section 4.3): the sum over the basis functions
    of [coeff_k * exp(-exponent_k * r^2)] at every grid point; the first half
    of [params] holds the coefficients and the second half the exponents. *)
Definition create_model (points : list R) (params : list num) : list num :=
  let k := (length params / 2)%nat in
  let coeffs := firstn k params in
  let exps := skipn k params in
  map (fun r =>
         Np.sum (Np.zip_with
                   (fun c e => (c * nexp (- (e * Fin (r ^ 2))))%num)
                   coeffs exps))
      points.

(** Modelled from the spec: [cost_function] of the missing class
    [AtomicGaussianDensity] (section 4.3): the sum of squared residuals
    between the target density and the model. *)
Definition sum_of_squared_residuals (points density : list R)
    (params : list num) : num :=
  Np.sum (Np.power
            (Np.zip_with nsub (Np.arr density) (create_model points params))
            2).

(** Modelled from the spec: [create_cofactor_matrix] of the missing class
    [AtomicGaussianDensity] (section 4.3): the N x K matrix with entry
    [(i, k) = exp(-exponent_k * r_i^2)], as the list of its rows. *)
Definition exponential_design_matrix (points : list R) (exps : list num)
  : list (list num) :=
  map (fun r => map (fun e => nexp (- (e * Fin (r ^ 2)))%num) exps) points.

(** Modelled from the spec: an instance of the missing class
    [AtomicGaussianDensity] on a grid and a density, with the cost function
    and the design matrix above; the candidates seeded from the table of
    standard exponents are the table scaled by the given factor
    (section 4.4, step 1). *)
Definition spec_model (points density : list R)
    (element : option String.string) : t :=
  {| _density := density;
     element := element;
     cost_function := sum_of_squared_residuals points density;
     create_cofactor_matrix := exponential_design_matrix points;
     generation_of_UGBS_exponents := fun p ugbs => map (fun x => p * x) ugbs |}.

End AtomicGaussianDensity.

(* ================================================================== *)
(** * [bfit/greedy/greedy_lq.py]: the greedy least-squares strategy *)

Module GreedyLeastSquares.

(** The attributes the methods below read.  [__init__] sets [gauss_obj],
    [grid], [factor] and [splitting_func] (used by no method modelled here);
    [ugbs], the table of standard exponents, is read by the seed stage and
    never assigned in this file. *)
Record t : Type := mk {
  gauss_obj : AtomicGaussianDensity.t;
  grid : BaseRadialGrid.t;
  factor : R;
  ugbs : list R
}.

Definition density (self : t) : list R :=
  AtomicGaussianDensity._density (gauss_obj self).

(** The method calls the model's cost function and returns nothing: the
    result of the call is Python's [None]. *)
Definition get_cost_function (self : t) (params : list num) : option num :=
  let _ := AtomicGaussianDensity.cost_function (gauss_obj self) params in
  None.

(** The grid, the density and the weight are arrays of one length (numpy
    refuses the products otherwise).  Sums, products and quotients are those
    of the exact numbers.  Where the exact determinant vanishes both
    quotients are 0/0; the program's rounded sums agree with that on a grid
    whose points are all 0, where every product is exactly 0, and need not
    agree on other singular grids. *)
Definition _solve_one_function_weight (self : t) (weight : list num)
  : list num :=
  let points := Np.arr (BaseRadialGrid.points (grid self)) in
  let a := (Fin 2 * Np.sum weight)%num in
  let sum_of_grid_squared := Np.sum (Np.multiply weight (Np.power points 2)) in
  let b := (Fin 2 * sum_of_grid_squared)%num in
  let sum_ln_electron_density :=
    Np.sum (Np.multiply weight (Np.log (Np.arr (density self)))) in
  let c := (Fin 2 * sum_ln_electron_density)%num in
  let d := b in
  let e := (Fin 2 * Np.sum (Np.multiply weight (Np.power points 4)))%num in
  let f := (Fin 2 * Np.sum (Np.multiply
                              (Np.multiply weight (Np.power points 2))
                              (Np.log (Np.arr (density self)))))%num in
  let big_a := ((b * f - c * e) / (b * d - a * e))%num in
  let big_b := ((a * f - c * d) / (a * e - b * d))%num in
  let coefficient := nexp big_a in
  let exponent := (- big_b)%num in
  [coefficient; exponent].

(** Python's [min(first :: rest, key=key)]: the list is scanned from the
    left and the best element so far is replaced only by one whose key is
    strictly below its key. *)
Definition py_min {A : Type} (key : A -> num) (first : A) (rest : list A) : A :=
  fold_left (fun best x => if nltb (key x) (key best) then x else best)
            rest first.

(** [np.append(arr)]: the call leaves out the required argument [values],
    so Python raises [TypeError]. *)
Definition np_append_without_values {A : Type} (arr : A) : result (list R) :=
  Raise TypeError.

Section Optimizers.

(** The two solvers of [bfit/greedy/optimize.py], which is not among the
    source files: [optimize_using_nnls(density, cofac_matrix)] and
    [optimize_using_slsqp(gauss_obj, p)].  Either may fail. *)
Variable optimize_using_nnls :
  list R -> list (list num) -> result (list num).
Variable optimize_using_slsqp :
  AtomicGaussianDensity.t -> list num -> result (list num).

Definition get_optimization_routine (self : t) (params : list num)
  : result (list num) :=
  let exps := skipn (length params / 2) params in
  let cofac_matrix :=
    AtomicGaussianDensity.create_cofactor_matrix (gauss_obj self) exps in
  coeffs <- optimize_using_nnls (density self) cofac_matrix ;;
  let p := coeffs ++ exps in
  params <- optimize_using_slsqp (gauss_obj self) p ;;
  Ok params.

(** One round of the loop over the table-seeded exponents.  The state is
    [(val, best_found)]; [best_found] is [None] for Python's [None]. *)
Definition seed_from_table_step (self : t)
    (st : num * option (list num)) (exp : R)
  : result (num * option (list num)) :=
  let '(val, best_found) := st in
  let grid_squared := Np.power (Np.arr (BaseRadialGrid.points (grid self))) 2 in
  let num :=
    Np.sum (Np.multiply (Np.arr (density self))
              (map (fun g => nexp (- Fin exp * g)%num) grid_squared)) in
  let den :=
    Np.sum (map (fun g => nexp (- Fin 2 * Fin exp * g)%num) grid_squared) in
  let c := (num / den)%num in
  let p := [c; Fin exp] in
  p <- get_optimization_routine self p ;;
  let cost_func := AtomicGaussianDensity.cost_function (gauss_obj self) p in
  if nltb cost_func val then Ok (cost_func, Some p)
  else Ok (val, best_found).

Fixpoint seed_from_table (self : t) (exps : list R)
    (st : num * option (list num)) : result (num * option (list num)) :=
  match exps with
  | [] => Ok st
  | exp :: exps' =>
      st' <- seed_from_table_step self st exp ;;
      seed_from_table self exps' st'
  end.

(** The returned value is [Some p] for an array and [None] for Python's
    [None].  The local [best_found] is bound only inside the branch taken when
    the model has an element, so the state after the branch carries
    [option (option _)]: the outer [None] is the unbound local. *)
Definition get_best_one_function_solution (self : t)
  : result (option (list num)) :=
  let g := gauss_obj self in
  let weight1 := Np.arr (Np.ones (length (BaseRadialGrid.points (grid self)))) in
  let weight3 := Np.power (Np.arr (density self)) 2 in
  let p1 := _solve_one_function_weight self weight1 in
  let cost_func1 := AtomicGaussianDensity.cost_function g p1 in
  let p2 := _solve_one_function_weight self (Np.arr (density self)) in
  let cost_func2 := AtomicGaussianDensity.cost_function g p2 in
  let p3 := _solve_one_function_weight self weight3 in
  let cost_func3 := AtomicGaussianDensity.cost_function g p3 in
  let p_min := py_min fst (cost_func1, p1)
                 [(cost_func2, p2); (cost_func3, p3)] in
  let val := Fin 1e10 in
  st <- match AtomicGaussianDensity.element g with
        | Some _ =>
            let exp_choice1 :=
              AtomicGaussianDensity.generation_of_UGBS_exponents g 1.25
                (ugbs self) in
            let exp_choice2 :=
              AtomicGaussianDensity.generation_of_UGBS_exponents g 1.5
                (ugbs self) in
            let exp_choice3 :=
              AtomicGaussianDensity.generation_of_UGBS_exponents g 1.75
                (ugbs self) in
            exps <- np_append_without_values
                      (exp_choice1, exp_choice2, exp_choice3) ;;
            st <- seed_from_table self exps (val, None) ;;
            Ok (fst st, Some (snd st))
        | None => Ok (val, None)
        end ;;
  let '(val, best_found) := st in
  if nltb (fst p_min) val then Ok (Some (snd p_min))
  else match best_found with
       | Some found => Ok found
       | None => Raise UnboundLocalError
       end.

End Optimizers.

(** ** The weighted log-linear least-squares problem of the seed stage *)

(** Sum over the grid of [g w r rho], for aligned weights, radii and
    densities. *)
Definition weighted_sum (g : R -> R -> R -> R) (w r rho : list R) : R :=
  Np.Rsum (Np.zip_with (fun wr x => g (fst wr) (snd wr) x)
             (Np.zip_with pair w r) rho).

(** The residual of [ln(density) = ln(coefficient) - exponent * r^2] at one
    point. *)
Definition log_residual (coefficient exponent r rho : R) : R :=
  ln rho - (ln coefficient - exponent * r ^ 2).

(** The 2x2 weighted normal equations: both partial derivatives of the
    weighted sum of squared log residuals vanish. *)
Definition solves_normal_equations (w r rho : list R)
    (coefficient exponent : R) : Prop :=
  weighted_sum (fun w r rho => w * log_residual coefficient exponent r rho)
    w r rho = 0 /\
  weighted_sum (fun w r rho => w * r ^ 2 * log_residual coefficient exponent r rho)
    w r rho = 0.

(** The weighted sum of squared log residuals, which the normal equations
    come from. *)
Definition weighted_squared_log_residual (w r rho : list R)
    (coefficient exponent : R) : R :=
  weighted_sum
    (fun w r rho => w * log_residual coefficient exponent r rho ^ 2) w r rho.

(** The determinant of the 2x2 system for the weights [w]; the system is
    singular when it is zero. *)
Definition determinant (w r : list R) : R :=
  Np.Rsum w * Np.Rsum (Np.zip_with Rmult w (map (fun x => x ^ 4) r))
  - Np.Rsum (Np.zip_with Rmult w (map (fun x => x ^ 2) r))
    * Np.Rsum (Np.zip_with Rmult w (map (fun x => x ^ 2) r)).

(** The weighted spread of the squared radii around [q]; the determinant
    grows by such a spread with every grid point. *)
Definition spread (q : R) (w r : list R) : R :=
  Np.Rsum (Np.zip_with (fun wi ri => wi * (ri ^ 2 - q) ^ 2) w r).

(** The pair [(A, B)] of [_solve_one_function_weight], computed over the
    reals: what [big_a] and [big_b] are when no operation leaves the finite
    numbers. *)
Definition closed_form (w r rho : list R) : R * R :=
  let a := 2 * Np.Rsum w in
  let b := 2 * Np.Rsum (Np.zip_with Rmult w (map (fun x => x ^ 2) r)) in
  let c := 2 * Np.Rsum (Np.zip_with Rmult w (map ln rho)) in
  let d := b in
  let e := 2 * Np.Rsum (Np.zip_with Rmult w (map (fun x => x ^ 4) r)) in
  let f := 2 * Np.Rsum (Np.zip_with Rmult
                          (Np.zip_with Rmult w (map (fun x => x ^ 2) r))
                          (map ln rho)) in
  ((b * f + - (c * e)) / (b * d + - (a * e)),
   (a * f + - (c * d)) / (a * e + - (b * d))).

(** A candidate of a regular system: finite, of the form [(exp(A), -B)], with
    a positive coefficient, and a solution of the normal equations. *)
Definition regular_candidate (w r rho : list R) (p : list num) : Prop :=
  exists coefficient exponent : R,
    p = [Fin coefficient; Fin exponent] /\
    coefficient = exp (fst (closed_form w r rho)) /\
    exponent = - snd (closed_form w r rho) /\
    0 < coefficient /\
    solves_normal_equations w r rho coefficient exponent.

(** The three weighting schemes: uniform, density, density squared. *)
Definition weights (self : t) : list (list R) :=
  [ Np.ones (length (BaseRadialGrid.points (grid self)));
    density self;
    map (fun x => x ^ 2) (density self) ].

(** The three candidates [p1], [p2], [p3] of the seed stage, in the order
    the code computes them. *)
Definition candidates (self : t) : list (list num) :=
  [ _solve_one_function_weight self
      (Np.arr (Np.ones (length (BaseRadialGrid.points (grid self)))));
    _solve_one_function_weight self (Np.arr (density self));
    _solve_one_function_weight self (Np.power (Np.arr (density self)) 2) ].

(** The candidates paired with their costs, as [min] receives them, and the
    pair [min] picks. *)
Definition ranked (self : t) : list (num * list num) :=
  map (fun p => (AtomicGaussianDensity.cost_function (gauss_obj self) p, p))
      (candidates self).

Definition p_min (self : t) : num * list num :=
  match ranked self with
  | first :: rest => py_min fst first rest
  | [] => (NaN, [])
  end.

End GreedyLeastSquares.

(* ================================================================== *)
(** * Stand-ins for the solvers

    [bfit/greedy/optimize.py] is not among the sources.  The two functions
    below only serve to run the strategy on concrete examples. *)

Module Solvers.

(** In place of [optimize_using_nnls]: one zero coefficient per column of
    the design matrix. *)
Definition zero_coefficients (density : list R) (cofac_matrix : list (list num))
  : result (list num) :=
  Ok (map (fun _ => Fin 0) (hd [] cofac_matrix)).

(** In place of [optimize_using_slsqp]: the initial point itself. *)
Definition initial_point (g : AtomicGaussianDensity.t) (p : list num)
  : result (list num) :=
  Ok p.

End Solvers.

(* ================================================================== *)
(** * A strategy object for the examples *)

Module Scenario.

(** The greedy strategy over the model of the specification, on the
    spherical grid with the given points, with splitting factor 2 and an
    empty table of exponents. *)
Definition strategy (points density : list R) (element : option String.string)
  : GreedyLeastSquares.t :=
  {| GreedyLeastSquares.gauss_obj :=
       AtomicGaussianDensity.spec_model points density element;
     GreedyLeastSquares.grid := BaseRadialGrid.mk points true;
     GreedyLeastSquares.factor := 2;
     GreedyLeastSquares.ugbs := [] |}.

End Scenario.

(* ================================================================== *)
(** * [bfit/measure.py]: the squared difference measure *)

Module SquaredDifference.

Record t : Type := mk { _density : ndarray }.

Definition __init__ (density : pyval) : result t :=
  match density with
  | PyArray d =>
      if negb (Nat.eqb (ndim d) 1) then Raise ValueError
      else Ok {| _density := d |}
  | _ => Raise ValueError
  end.

Definition density (self : t) : ndarray := _density self.

(** [evaluate] returns [value] alone, or the pair [(value, -2 * residual)]
    when [deriv] is set.  Differences, squares and doubles of real numbers
    are real numbers, so the arrays returned hold reals. *)
Definition evaluate (self : t) (model : pyval) (deriv : bool)
  : result (list R * option (list R)) :=
  match model with
  | PyArray m =>
      if negb (shape_eqb (shape m) (shape (density self))) then Raise ValueError
      else
        let residual := Np.zip_with Rminus (data (density self)) (data m) in
        let value := map (fun x => x ^ 2) residual in
        if deriv then Ok (value, Some (map (fun x => -2 * x) residual))
        else Ok (value, None)
  | _ => Raise ValueError
  end.

End SquaredDifference.

(* ================================================================== *)
(** * [fitting/radial_grid/cubic_grid.py]: the cubic grid over a point list *)

Module RadialGridCubicGrid.

(** The attribute [integrate] reads.  The points are kept by the parent
    class [RadialGrid], which is not among the sources. *)
Record t : Type := mk { step : R }.

(** What a call of [integrate] ends in. *)
Inductive outcome : Type :=
| Returns (value : R)
| RaisesIndexError
| RaisesValueError.

(** [total_arr *= arr] for one-dimensional arrays: the right operand must
    have the length of [total_arr] or a single element, which is then
    applied to every entry; numpy refuses anything else. *)
Definition imul (total_arr arr : list R) : option (list R) :=
  if Nat.eqb (length arr) (length total_arr)
  then Some (Np.zip_with Rmult total_arr arr)
  else match arr with
       | [a] => Some (map (fun t => t * a) total_arr)
       | _ => None
       end.

(** The loop [for arr in args: total_arr *= arr]. *)
Fixpoint imul_all (total_arr : list R) (args : list (list R))
  : option (list R) :=
  match args with
  | [] => Some total_arr
  | arr :: rest =>
      match imul total_arr arr with
      | Some total_arr' => imul_all total_arr' rest
      | None => None
      end
  end.

(** [integrate] takes any number of arrays, the tuple [args]; [args[0]]
    does not exist for an empty tuple. *)
Definition integrate (self : t) (args : list (list R)) : outcome :=
  match args with
  | [] => RaisesIndexError
  | first :: _ =>
      match imul_all (Np.ones (length first)) args with
      | Some total_arr => Returns (step self ^ 3 * Np.Rsum total_arr)
      | None => RaisesValueError
      end
  end.

Definition integrate_3d_space (self : t) (args : list (list R)) : outcome :=
  integrate self args.

(** The product of the arrays, point by point. *)
Definition pointwise_product (n : nat) (args : list (list R)) : list R :=
  fold_right (Np.zip_with Rmult) (Np.ones n) args.

End RadialGridCubicGrid.

(* ================================================================== *)
(** * [fitting/least_squares/density_model.py]: the abstract density model *)

Module DensityModel.

(** [_grid] is the flattened grid; [_true_model] is the flattened true
    model.  Without a true model [np.ravel(None)] is a one-element array
    that holds [None] and no number; it is written [None] here. *)
Record t : Type := mk { _grid : list R; _true_model : option (list R) }.

Definition __init__ (grid true_model : pyval) : result t :=
  match grid with
  | PyArray g =>
      match true_model with
      | PyNone => Ok {| _grid := data g; _true_model := None |}
      | PyArray m =>
          if negb (shape_eqb (shape g) (shape m)) then Raise ValueError
          else Ok {| _grid := data g; _true_model := Some (data m) |}
      | _ => Raise TypeError
      end
  | _ => Raise TypeError
  end.

Definition grid (self : t) : list R := _grid self.
Definition true_model (self : t) : option (list R) := _true_model self.

(** A binary numpy operation on two one-dimensional arrays: entry by entry
    when the lengths agree; a one-element array is spread over the other
    one; any other pair of lengths is refused with [ValueError]. *)
Definition broadcast (f : R -> R -> R) (l m : list R) : result (list R) :=
  if Nat.eqb (length l) (length m) then Ok (Np.zip_with f l m)
  else match l, m with
       | [a], _ => Ok (map (f a) m)
       | _, [b] => Ok (map (fun x => f x b) l)
       | _, _ => Raise ValueError
       end.

(** [np.trapz(y=y, x=x)] with its two broadcasts:
    [d = diff(x); (d * (y[1:] + y[:-1]) / 2.0).sum()]. *)
Definition trapz (y x : list R) : result R :=
  let d := NpGrid.diff x in
  s <- broadcast Rplus (tl y) (removelast y) ;;
  p <- broadcast Rmult d s ;;
  Ok (Np.Rsum (map (fun v => v / 2) p)).

(** [approx_model] is a one-dimensional array. *)
Definition integrate_model_trapz (self : t) (approx_model : list R)
  : result R :=
  let grid_squared := map (fun r => r ^ 2) (_grid self) in
  y <- broadcast Rmult grid_squared approx_model ;;
  trapz y (_grid self).

(** Both models are flattened with [np.ravel] first. *)
Definition get_error_diffuse (self : t) (true_model approx_model : ndarray)
  : result R :=
  abs_diff <- broadcast (fun a b => Rabs (a - b))
                (data true_model) (data approx_model) ;;
  y <- broadcast Rmult (map (fun r => r ^ 2) (_grid self)) abs_diff ;;
  let error := trapz y (_grid self) in
  error.

Definition get_integration_error (self : t) (true_model approx_model : list R)
  : result R :=
  integrate_true_model <- integrate_model_trapz self true_model ;;
  integrate_approx_model <- integrate_model_trapz self approx_model ;;
  let diff_model := integrate_true_model - integrate_approx_model in
  Ok (Rabs diff_model).

End DensityModel.

(* ================================================================== *)
(** * Properties of the measure *)

Section ListFacts.

Context {A B C : Type}.

Lemma zip_with_length (f : A -> B -> C) (l : list A) (m : list B) :
  length l = length m -> length (Np.zip_with f l m) = length l.
Proof.
  revert m; induction l as [|a l IH]; intros [|b m]; simpl; intros H;
    try discriminate; auto.
Qed.

Lemma nth_error_zip_with (f : A -> B -> C) (l : list A) (m : list B) i :
  nth_error (Np.zip_with f l m) i =
  match nth_error l i, nth_error m i with
  | Some a, Some b => Some (f a b)
  | _, _ => None
  end.
Proof.
  revert m i; induction l as [|a l IH]; intros [|b m] [|i]; simpl; auto;
    destruct (nth_error l i); reflexivity.
Qed.

End ListFacts.

Lemma Rltb_true x y : Rltb x y = true <-> x < y.
Proof. unfold Rltb; destruct (Rlt_dec x y); split; intros; auto; discriminate. Qed.

Lemma Rltb_false x y : Rltb x y = false <-> y <= x.
Proof.
  unfold Rltb; destruct (Rlt_dec x y); split; intros; auto; try discriminate; lra.
Qed.

Lemma Rleb_true x y : Rleb x y = true <-> x <= y.
Proof. unfold Rleb; destruct (Rle_dec x y); split; intros; auto; discriminate. Qed.

Lemma Rleb_false x y : Rleb x y = false <-> y < x.
Proof.
  unfold Rleb; destruct (Rle_dec x y); split; intros; auto; try discriminate; lra.
Qed.

(** [np.any(a < 0)] holds exactly when some element is negative. *)
Lemma any_less_true (l : list R) (v : R) :
  Np.any (Np.less l v) = true <-> Exists (fun x => x < v) l.
Proof.
  unfold Np.any, Np.less. induction l as [|x l IH]; simpl.
  - split; [discriminate | intros H; inversion H].
  - rewrite orb_true_iff, IH, Rltb_true. split.
    + intros [H|H]; [left | right]; assumption.
    + intros H; inversion H; subst; auto.
Qed.

Lemma any_less_false (l : list R) (v : R) :
  Np.any (Np.less l v) = false <-> Forall (fun x => v <= x) l.
Proof.
  unfold Np.any, Np.less. induction l as [|x l IH]; simpl.
  - split; auto.
  - rewrite orb_false_iff, IH, Rltb_false. split.
    + intros [H1 H2]; constructor; assumption.
    + intros H; inversion H; subst; auto.
Qed.

Lemma shape_eqb_refl (s : list nat) : shape_eqb s s = true.
Proof. unfold shape_eqb; destruct (list_eq_dec Nat.eq_dec s s); congruence. Qed.

Lemma shape_eqb_eq (s u : list nat) : s = u -> shape_eqb s u = true.
Proof. intros ->; apply shape_eqb_refl. Qed.

Lemma tiny_pos : 0 < Np.tiny.
Proof. unfold Np.tiny. apply Rinv_0_lt_compat, pow_lt. lra. Qed.

Lemma tiny_lt_1 : Np.tiny < 1.
Proof.
  unfold Np.tiny. replace 1 with (/ 1) by apply Rinv_1.
  apply Rinv_lt_contravar.
  - rewrite Rmult_1_l. apply pow_lt; lra.
  - apply Rlt_pow_R1; [lra|lia].
Qed.

Lemma pow2_1022 : 2 ^ 1022 = IZR (2 ^ 1022).
Proof. rewrite (pow_IZR 2 1022). reflexivity. Qed.

(** Outside the domain of division the divisor is not zero. *)
Lemma in_domain_nonzero (x y : R) : Rabs x * Np.tiny < Rabs y -> y <> 0.
Proof.
  intros H ->. rewrite Rabs_R0 in H.
  pose proof (Rabs_pos x). pose proof tiny_pos. nra.
Qed.

(** The filled ratio of [evaluate], point by point. *)
Lemma evaluate_ratio (mask : R) (d m : list R) :
  Np.ma_filled
    (Np.ma_true_divide (Np.arr d) (Np.masked_less_equal m mask)) 1
  = Np.zip_with (KLDivergence.ratio_at mask) d m.
Proof.
  unfold Np.ma_filled, Np.ma_true_divide, Np.masked_less_equal, Np.arr; simpl.
  revert m; induction d as [|x d IH]; intros [|y m]; simpl; auto.
  f_equal; [|apply IH].
  unfold KLDivergence.ratio_at, Np.domain_safe_divide, ngeb, nabs, nmul.
  destruct (Rleb y mask); simpl.
  - rewrite orb_true_r; reflexivity.
  - destruct (Rleb (Rabs y) (Rabs x * Np.tiny)) eqn:E; simpl.
    + rewrite orb_true_r; reflexivity.
    + apply Rleb_false, in_domain_nonzero in E.
      destruct (Req_dec_T y 0); [contradiction|]. reflexivity.
Qed.

Lemma kl_init_ok (d : list R) (mask : R) :
  Forall (fun x => 0 <= x) d ->
  KLDivergence.__init__ (PyArray (array1d d)) mask
  = Ok (KLDivergence.mk (array1d d) mask).
Proof.
  intros H. unfold KLDivergence.__init__; simpl.
  apply any_less_false in H. rewrite H. reflexivity.
Qed.

Lemma kl_init_inv (d : ndarray) (mask : R) (self : KLDivergence.t) :
  KLDivergence.__init__ (PyArray d) mask = Ok self ->
  self = KLDivergence.mk d mask /\ ndim d = 1%nat /\
  Forall (fun x => 0 <= x) (data d).
Proof.
  unfold KLDivergence.__init__.
  destruct (Nat.eqb (ndim d) 1) eqn:E1; simpl; [|discriminate].
  destruct (Np.any (Np.less (data d) 0)) eqn:E2; [discriminate|].
  intros [= <-]. apply Nat.eqb_eq in E1. apply any_less_false in E2. auto.
Qed.

(** What [evaluate] returns on a model of the right shape without negative
    entries. *)
Lemma kl_evaluate_ok (d m : list R) (mask : R) (deriv : bool) :
  length m = length d ->
  Forall (fun x => 0 <= x) m ->
  KLDivergence.evaluate (KLDivergence.mk (array1d d) mask)
    (PyArray (array1d m)) deriv
  = let ratio := Np.zip_with (KLDivergence.ratio_at mask) d m in
    let value := Np.multiply (Np.arr d) (Np.log ratio) in
    Ok (value, if deriv then Some (Np.negative ratio) else None).
Proof.
  intros Hlen Hm. unfold KLDivergence.evaluate; simpl.
  rewrite Hlen, shape_eqb_refl; simpl.
  apply any_less_false in Hm. rewrite Hm.
  rewrite evaluate_ratio. destruct deriv; reflexivity.
Qed.

(** C5 (as the code has it).  [KLDivergence.evaluate] on a model array of
    the density's shape with no negative entry, for any mask floor.  The
    masked division masks a point where the model is at most the floor and
    also where density * tiny >= model, tiny = 2^-1022 being the tolerance of
    numpy's masked division (a zero model, or a quotient of 2^1022 or more).
    At a masked point the ratio is replaced by 1 and the integrand is
    density*ln(1) = 0; at every other point the ratio is density/model and
    the integrand is density*ln(density/model); with [deriv] set, the second
    array returned is the negated ratio (-1 at the masked points,
    -density/model elsewhere). *)
Theorem kl_evaluate_floor_masked :
  forall (d m : list R) (mask : R) (self : KLDivergence.t),
    KLDivergence.__init__ (PyArray (array1d d)) mask = Ok self ->
    length m = length d ->
    Forall (fun x => 0 <= x) m ->
    exists value dvalue : list num,
      KLDivergence.evaluate self (PyArray (array1d m)) false = Ok (value, None) /\
      KLDivergence.evaluate self (PyArray (array1d m)) true
        = Ok (value, Some dvalue) /\
      length value = length d /\ length dvalue = length d /\
      forall (i : nat) (di mi : R),
        nth_error d i = Some di -> nth_error m i = Some mi ->
        (mi <= mask \/ mi <= di * Np.tiny ->
           nth_error value i = Some (Fin di * nlog (Fin 1))%num /\
           nth_error value i = Some (Fin 0) /\
           nth_error dvalue i = Some (Fin (-1))) /\
        (mask < mi -> di * Np.tiny < mi ->
           nth_error value i = Some (Fin di * nlog (Fin di / Fin mi))%num /\
           nth_error dvalue i = Some (- (Fin di / Fin mi))%num).
Proof.
  intros d m mask self Hinit Hlen Hm.
  apply kl_init_inv in Hinit. destruct Hinit as (-> & _ & Hd).
  simpl in Hd.
  rewrite !kl_evaluate_ok by assumption. cbv zeta.
  eexists; eexists. split; [reflexivity|]. split; [reflexivity|].
  unfold Np.multiply, Np.log, Np.negative, Np.arr.
  split; [|split].
  - rewrite zip_with_length; rewrite !length_map; auto.
    rewrite zip_with_length; auto.
  - rewrite length_map, zip_with_length; auto.
  - intros i di mi Hdi Hmi.
    assert (Hr : nth_error (Np.zip_with (KLDivergence.ratio_at mask) d m) i
                 = Some (KLDivergence.ratio_at mask di mi)).
    { rewrite nth_error_zip_with, Hdi, Hmi; reflexivity. }
    assert (Hdpos : 0 <= di).
    { rewrite Forall_forall in Hd. apply Hd. eapply nth_error_In; eauto. }
    assert (Hmpos : 0 <= mi).
    { rewrite Forall_forall in Hm. apply Hm. eapply nth_error_In; eauto. }
    rewrite nth_error_zip_with, !nth_error_map, Hdi, Hr; simpl.
    unfold KLDivergence.ratio_at.
    rewrite (Rabs_pos_eq mi Hmpos), (Rabs_pos_eq di Hdpos).
    split.
    + intros Hcmp.
      assert (E : (if Rleb mi mask then Fin 1
                   else if Rleb mi (di * Np.tiny) then Fin 1
                        else Fin (di / mi)) = Fin 1).
      { destruct (Rleb mi mask) eqn:E1; [reflexivity|].
        destruct (Rleb mi (di * Np.tiny)) eqn:E2; [reflexivity|].
        apply Rleb_false in E1, E2. lra. }
      rewrite E. simpl.
      destruct (Rlt_dec 0 1) as [_|H]; [|lra].
      rewrite ln_1, Rmult_0_r.
      repeat split; do 2 f_equal; lra.
    + intros Hfloor Hdom.
      apply Rleb_false in Hfloor, Hdom. rewrite Hfloor, Hdom.
      assert (Hne : mi <> 0).
      { apply Rleb_false in Hdom. pose proof tiny_pos. nra. }
      simpl. destruct (Req_dec_T mi 0) as [H|_]; [contradiction|].
      split; reflexivity.
Qed.

(** A density, a floor and a model meeting the hypotheses of
    [kl_evaluate_floor_masked]. *)
Lemma kl_evaluate_floor_masked_witness :
  exists value dvalue : list num,
    KLDivergence.evaluate (KLDivergence.mk (array1d [1; 2]) 1e-12)
      (PyArray (array1d [0; 4])) false = Ok (value, None) /\
    nth_error value 0 = Some (Fin 0) /\
    nth_error dvalue 1 = Some (- (Fin 2 / Fin 4))%num.
Proof.
  assert (Hinit : KLDivergence.__init__ (PyArray (array1d [1; 2])) 1e-12
                  = Ok (KLDivergence.mk (array1d [1; 2]) 1e-12)).
  { apply kl_init_ok. repeat constructor; lra. }
  assert (Hm : Forall (fun x => 0 <= x) [0; 4]) by (repeat constructor; lra).
  destruct (kl_evaluate_floor_masked [1; 2] [0; 4] 1e-12 _ Hinit eq_refl Hm)
    as (value & dvalue & H1 & _ & _ & _ & Hpt).
  exists value, dvalue. split; [exact H1|]. split.
  - destruct (Hpt 0%nat 1 0 eq_refl eq_refl) as [Hmasked _].
    apply Hmasked. left. lra.
  - destruct (Hpt 1%nat 2 4 eq_refl eq_refl) as [_ Hfree].
    pose proof tiny_lt_1. pose proof tiny_pos. apply Hfree; lra.
Defined.

(** C5 as stated fails for the density 1e308 and the model 2 under the
    default floor: the model exceeds the floor, yet the quotient 5e307 is
    2^1022 or more, so the masked division masks the point; the integrand
    returned is 0 and the derivative -1, not density*ln(density/model) and
    -density/model. *)
Lemma kl_huge_ratio_masked :
  KLDivergence.__init__ (PyArray (array1d [1e308]))
    KLDivergence.default_mask_value
  = Ok (KLDivergence.mk (array1d [1e308]) KLDivergence.default_mask_value) /\
  KLDivergence.default_mask_value < 2 /\
  KLDivergence.evaluate
    (KLDivergence.mk (array1d [1e308]) KLDivergence.default_mask_value)
    (PyArray (array1d [2])) true
  = Ok ([Fin 0], Some [Fin (-1)]) /\
  (Fin 1e308 * nlog (Fin 1e308 / Fin 2))%num <> Fin 0 /\
  (- (Fin 1e308 / Fin 2))%num <> Fin (-1).
Proof.
  assert (Hbig : 2 <= 1e308 * Np.tiny).
  { unfold Np.tiny.
    assert (Hp : 0 < 2 ^ 1022) by (apply pow_lt; lra).
    apply Rmult_le_reg_r with (2 ^ 1022); [exact Hp|].
    rewrite Rmult_assoc, Rinv_l, Rmult_1_r by lra.
    rewrite pow2_1022.
    let v := eval vm_compute in (2 ^ 1022)%Z in change (2 ^ 1022)%Z with v.
    lra. }
  split; [apply kl_init_ok; repeat constructor; lra|].
  split; [unfold KLDivergence.default_mask_value; lra|].
  split; [|split].
  - rewrite kl_evaluate_ok by (try reflexivity; repeat constructor; lra).
    cbv zeta. unfold Np.multiply, Np.log, Np.negative, Np.arr.
    cbn [Np.zip_with map]. unfold KLDivergence.ratio_at.
    assert (E1 : Rleb 2 KLDivergence.default_mask_value = false)
      by (apply Rleb_false; unfold KLDivergence.default_mask_value; lra).
    assert (E2 : Rleb (Rabs 2) (Rabs 1e308 * Np.tiny) = true).
    { apply Rleb_true. rewrite !Rabs_pos_eq by lra. exact Hbig. }
    rewrite E1, E2. simpl.
    destruct (Rlt_dec 0 1) as [_|H]; [|lra].
    rewrite ln_1, Rmult_0_r.
    replace (- (1)) with (-1) by lra. reflexivity.
  - simpl. destruct (Req_dec_T 2 0) as [H|_]; [lra|].
    simpl. destruct (Rlt_dec 0 (1e308 / 2)) as [_|H]; [|lra].
    intros [= H].
    assert (Hln : 0 < ln (1e308 / 2)).
    { rewrite <- ln_1. apply ln_increasing; lra. }
    nra.
  - simpl. destruct (Req_dec_T 2 0) as [H|_]; [lra|].
    simpl. intros [= H]. lra.
Qed.

(** C6.  Constructing [KLDivergence] from a one-dimensional array raises the
    validation error [ValueError] exactly when some element of the density is
    negative (and succeeds otherwise); [evaluate] raises [ValueError], and so
    returns no divergence, when a model array of the density's shape has a
    negative element. *)
Theorem kl_negative_rejected :
  (forall (d : list R) (mask : R),
      (KLDivergence.__init__ (PyArray (array1d d)) mask = Raise ValueError
       <-> Exists (fun x => x < 0) d) /\
      (KLDivergence.__init__ (PyArray (array1d d)) mask
       = Ok (KLDivergence.mk (array1d d) mask)
       <-> Forall (fun x => 0 <= x) d)) /\
  (forall (self : KLDivergence.t) (model : ndarray) (deriv : bool),
      shape model = shape (KLDivergence.density self) ->
      Exists (fun x => x < 0) (data model) ->
      KLDivergence.evaluate self (PyArray model) deriv = Raise ValueError) /\
  is_validation_error ValueError = true.
Proof.
  split; [|split; [|reflexivity]].
  - intros d mask. unfold KLDivergence.__init__; simpl.
    destruct (Np.any (Np.less d 0)) eqn:E.
    + apply any_less_true in E. split; split; auto; try discriminate.
      intros HF. exfalso. apply Exists_exists in E. destruct E as (x & Hin & Hx).
      rewrite Forall_forall in HF. specialize (HF x Hin). lra.
    + apply any_less_false in E. split; split; auto; try discriminate.
      intros HE. exfalso. apply Exists_exists in HE. destruct HE as (x & Hin & Hx).
      rewrite Forall_forall in E. specialize (E x Hin). lra.
  - intros self model deriv Hshape Hneg. unfold KLDivergence.evaluate.
    rewrite (shape_eqb_eq _ _ Hshape); simpl.
    apply any_less_true in Hneg. rewrite Hneg. reflexivity.
Qed.

(** A density with a negative element is rejected at construction, and a
    model with a negative element at evaluation. *)
Lemma kl_negative_rejected_witness :
  KLDivergence.__init__ (PyArray (array1d [1; -1])) 1e-12 = Raise ValueError /\
  KLDivergence.evaluate (KLDivergence.mk (array1d [1; 2]) 1e-12)
    (PyArray (array1d [3; -4])) true = Raise ValueError.
Proof.
  destruct kl_negative_rejected as (Hinit & Heval & _). split.
  - apply (Hinit [1; -1] 1e-12). right; left; lra.
  - apply (Heval (KLDivergence.mk (array1d [1; 2]) 1e-12) (array1d [3; -4]) true).
    + reflexivity.
    + simpl. right; left; lra.
Defined.

(** The ratio of a density to itself is 1 at every point: masked where
    the density is at most the floor or is zero, [d / d] elsewhere. *)
Lemma self_ratio (mask : R) (d : list R) :
  Np.zip_with (KLDivergence.ratio_at mask) d d = map (fun _ => Fin 1) d.
Proof.
  induction d as [|x d IH]; simpl; [reflexivity|].
  rewrite IH. f_equal. unfold KLDivergence.ratio_at.
  destruct (Rleb x mask); [reflexivity|].
  destruct (Rleb (Rabs x) (Rabs x * Np.tiny)) eqn:E; [reflexivity|].
  apply Rleb_false, in_domain_nonzero in E.
  f_equal. field. exact E.
Qed.

Lemma self_value (d : list R) :
  Np.multiply (Np.arr d) (Np.log (map (fun _ => Fin 1) d))
  = map (fun _ => Fin 0) d.
Proof.
  unfold Np.multiply, Np.log, Np.arr.
  induction d as [|x d IH]; simpl; [reflexivity|].
  rewrite IH. f_equal.
  destruct (Rlt_dec 0 1) as [_|H]; [|lra].
  simpl. rewrite ln_1, Rmult_0_r. reflexivity.
Qed.

(** C7.  For every one-dimensional non-negative density, constructing
    [KLDivergence(density)] with the default floor succeeds and
    [evaluate(density)] returns an array that is exactly zero at every
    point. *)
Theorem kl_self_divergence_zero :
  forall d : list R,
    Forall (fun x => 0 <= x) d ->
    exists self : KLDivergence.t,
      KLDivergence.__init__ (PyArray (array1d d))
        KLDivergence.default_mask_value = Ok self /\
      KLDivergence.evaluate self (PyArray (array1d d)) false
      = Ok (map (fun _ => Fin 0) d, None).
Proof.
  intros d Hd. eexists. split; [apply kl_init_ok; exact Hd|].
  rewrite kl_evaluate_ok by auto. cbv zeta.
  rewrite self_ratio, self_value. reflexivity.
Qed.

Lemma kl_self_divergence_zero_witness :
  exists self : KLDivergence.t,
    KLDivergence.__init__ (PyArray (array1d [0; 1e-13; 3]))
      KLDivergence.default_mask_value = Ok self /\
    KLDivergence.evaluate self (PyArray (array1d [0; 1e-13; 3])) false
    = Ok ([Fin 0; Fin 0; Fin 0], None).
Proof.
  apply (kl_self_divergence_zero [0; 1e-13; 3]).
  repeat constructor; lra.
Defined.

(* ================================================================== *)
(** * Properties of the grids *)

(** numpy's vectorised trapezoid sum is the trapezoidal rule. *)
Lemma trapz_trapezoidal_rule (x y : list R) :
  NpGrid.trapz y x = BaseRadialGrid.trapezoidal_rule x y.
Proof.
  unfold NpGrid.trapz, NpGrid.diff.
  revert y; induction x as [|x0 x IH]; intros y; [reflexivity|].
  destruct y as [|y0 y]; [destruct x; reflexivity|].
  destruct x as [|x1 x]; [reflexivity|].
  destruct y as [|y1 y]; [reflexivity|].
  specialize (IH (y1 :: y)).
  change (BaseRadialGrid.trapezoidal_rule (x0 :: x1 :: x) (y0 :: y1 :: y))
    with ((x1 - x0) * ((y0 + y1) / 2)
          + BaseRadialGrid.trapezoidal_rule (x1 :: x) (y1 :: y)).
  rewrite <- IH.
  change (removelast (y0 :: y1 :: y)) with (y0 :: removelast (y1 :: y)).
  simpl. lra.
Qed.

(** C8.  [BaseRadialGrid.integrate] raises the shape-mismatch error
    [ValueError] when the shape of the values differs from the shape of the
    points; otherwise it returns 4*pi times the trapezoidal rule applied to
    points^2 * values over the points on a spherical grid, and the
    trapezoidal rule applied to the values over the points on a grid that is
    not spherical. *)
Theorem radial_integrate_trapezoidal :
  forall (self : BaseRadialGrid.t) (values : ndarray),
    (shape values <> BaseRadialGrid.points_shape self ->
     BaseRadialGrid.integrate self values = Raise ValueError) /\
    (shape values = BaseRadialGrid.points_shape self ->
     BaseRadialGrid.integrate self values
     = Ok (if BaseRadialGrid.spherical self
           then 4 * PI *
                BaseRadialGrid.trapezoidal_rule (BaseRadialGrid.points self)
                  (Np.zip_with Rmult
                     (map (fun p => p ^ 2) (BaseRadialGrid.points self))
                     (data values))
           else BaseRadialGrid.trapezoidal_rule (BaseRadialGrid.points self)
                  (data values))).
Proof.
  intros self values. unfold BaseRadialGrid.integrate, shape_eqb.
  destruct (list_eq_dec Nat.eq_dec (shape values)
              (BaseRadialGrid.points_shape self)) as [E|E]; simpl.
  - split; [intros H; contradiction|intros _].
    unfold BaseRadialGrid.spherical.
    destruct (BaseRadialGrid._spherical self);
      rewrite trapz_trapezoidal_rule; reflexivity.
  - split; [reflexivity|intros H; contradiction].
Qed.

(** On the grid 0, 1, 3 the values 2, 4, 6 integrate to 13 without the
    spherical weight, and a two-element array is refused. *)
Lemma radial_integrate_trapezoidal_witness :
  BaseRadialGrid.integrate (BaseRadialGrid.mk [0; 1; 3] false)
    (array1d [2; 4; 6]) = Ok 13 /\
  BaseRadialGrid.integrate (BaseRadialGrid.mk [0; 1; 3] false)
    (array1d [2; 4]) = Raise ValueError.
Proof.
  split.
  - destruct (radial_integrate_trapezoidal
                (BaseRadialGrid.mk [0; 1; 3] false) (array1d [2; 4; 6]))
      as [_ H].
    rewrite (H eq_refl). simpl. f_equal. lra.
  - destruct (radial_integrate_trapezoidal
                (BaseRadialGrid.mk [0; 1; 3] false) (array1d [2; 4]))
      as [H _].
    apply H. simpl. discriminate.
Defined.

(** Every exception the three constructors raise is a validation error. *)
Lemma base_init_array1d (l : list R) (spherical : bool) :
  BaseRadialGrid.__init__ (PyArray (array1d l)) spherical
  = Ok (BaseRadialGrid.mk l spherical).
Proof. reflexivity. Qed.

Lemma get_points_core (z n : Z) :
  ClenshawRadialGrid._get_points z n "core"
  = Ok (map (fun v => v / IZR (2 * z))
          (map (fun i => 1 - cos (0.5 * PI * i / IZR n))
               (map INR (seq 0 (Z.to_nat n))))).
Proof. reflexivity. Qed.

Lemma get_points_diffuse (z n : Z) :
  ClenshawRadialGrid._get_points z n "diffuse"
  = Ok (map (fun v => 25 * v)
          (map (fun i => 1 - cos (0.5 * PI * i / IZR n))
               (map INR (seq 0 (Z.to_nat n))))).
Proof. reflexivity. Qed.

(** [UniformRadialGrid]: the arguments accepted, and the grid built. *)
Lemma uniform_init_spec (num_pts min_radii max_radii : pyval) (spherical : bool) :
  (forall n lo hi,
      as_int num_pts = Some n -> (0 < n)%Z ->
      as_number min_radii = Some lo -> as_number max_radii = Some hi ->
      lo < hi ->
      UniformRadialGrid.__init__ num_pts min_radii max_radii spherical
      = Ok (BaseRadialGrid.mk (NpGrid.linspace lo hi (Z.to_nat n)) spherical)) /\
  (forall g,
      UniformRadialGrid.__init__ num_pts min_radii max_radii spherical = Ok g ->
      exists n lo hi,
        as_int num_pts = Some n /\ (0 < n)%Z /\
        as_number min_radii = Some lo /\ as_number max_radii = Some hi /\
        lo < hi) /\
  (forall e,
      UniformRadialGrid.__init__ num_pts min_radii max_radii spherical = Raise e ->
      is_validation_error e = true).
Proof.
  unfold UniformRadialGrid.__init__.
  split; [|split].
  - intros n lo hi -> Hn -> -> Hlt.
    destruct (Z.leb_spec n 0); [lia|].
    apply Rleb_false in Hlt. rewrite Hlt. apply base_init_array1d.
  - intros g.
    destruct (as_int num_pts) as [n|]; [|discriminate].
    destruct (Z.leb_spec n 0); [discriminate|].
    destruct (as_number min_radii) as [lo|]; [|discriminate].
    destruct (as_number max_radii) as [hi|]; [|discriminate].
    destruct (Rleb hi lo) eqn:E; [discriminate|]. apply Rleb_false in E.
    intros _. exists n, lo, hi. auto.
  - intros e.
    destruct (as_int num_pts) as [n|]; [|intros [= <-]; reflexivity].
    destruct (Z.leb_spec n 0); [intros [= <-]; reflexivity|].
    destruct (as_number min_radii) as [lo|]; [|intros [= <-]; reflexivity].
    destruct (as_number max_radii) as [hi|]; [|intros [= <-]; reflexivity].
    destruct (Rleb hi lo) eqn:E; [intros [= <-]; reflexivity|].
    rewrite base_init_array1d. discriminate.
Qed.

(** [CubicGrid]: the arguments accepted. *)
Lemma cubic_init_spec (smallest_pnt largest_pnt step_size : pyval) :
  ((exists g, CubicGrid.__init__ smallest_pnt largest_pnt step_size = Ok g) <->
   (exists lo hi h,
       as_number smallest_pnt = Some lo /\ as_number largest_pnt = Some hi /\
       as_number step_size = Some h /\ 0 < h /\ lo < hi)) /\
  (forall e,
      CubicGrid.__init__ smallest_pnt largest_pnt step_size = Raise e ->
      is_validation_error e = true).
Proof.
  unfold CubicGrid.__init__.
  destruct (as_number smallest_pnt) as [lo|];
    [|split; [split; [intros [g H]; discriminate
                     |intros (? & ? & ? & H & _); discriminate]
             |intros e [= <-]; reflexivity]].
  destruct (as_number largest_pnt) as [hi|];
    [|split; [split; [intros [g H]; discriminate
                     |intros (? & ? & ? & _ & H & _); discriminate]
             |intros e [= <-]; reflexivity]].
  destruct (as_number step_size) as [h|];
    [|split; [split; [intros [g H]; discriminate
                     |intros (? & ? & ? & _ & _ & H & _); discriminate]
             |intros e [= <-]; reflexivity]].
  destruct (Rleb h 0) eqn:Eh.
  { apply Rleb_true in Eh. split; [split|].
    - intros [g H]; discriminate.
    - intros (? & ? & h' & _ & _ & [= <-] & Hh & _). lra.
    - intros e [= <-]; reflexivity. }
  apply Rleb_false in Eh.
  destruct (Rleb hi lo) eqn:El.
  { apply Rleb_true in El. split; [split|].
    - intros [g H]; discriminate.
    - intros (lo' & hi' & ? & [= <-] & [= <-] & _ & _ & Hlt). lra.
    - intros e [= <-]; reflexivity. }
  apply Rleb_false in El. split; [split|].
  - intros _. exists lo, hi, h. auto.
  - intros _. eexists. reflexivity.
  - intros e H; discriminate.
Qed.

(** [ClenshawRadialGrid]: the numeric arguments accepted. *)
Lemma clenshaw_init_spec
    (atomic_number num_core_pts num_diffuse_pts extra_pts : pyval)
    (spherical : bool) :
  (forall g,
      ClenshawRadialGrid.__init__ atomic_number num_core_pts num_diffuse_pts
        extra_pts spherical = Ok g ->
      exists z nc nd,
        as_int atomic_number = Some z /\ (0 < z)%Z /\
        as_int num_core_pts = Some nc /\ (0 <= nc)%Z /\
        as_int num_diffuse_pts = Some nd /\ (0 <= nd)%Z) /\
  (forall e,
      ClenshawRadialGrid.__init__ atomic_number num_core_pts num_diffuse_pts
        extra_pts spherical = Raise e ->
      is_validation_error e = true) /\
  (forall z nc nd,
      as_int atomic_number = Some z -> (0 < z)%Z ->
      as_int num_core_pts = Some nc -> (0 <= nc)%Z ->
      as_int num_diffuse_pts = Some nd -> (0 <= nd)%Z ->
      extra_pts = PyNone ->
      exists g,
        ClenshawRadialGrid.__init__ atomic_number num_core_pts num_diffuse_pts
          extra_pts spherical = Ok g).
Proof.
  unfold ClenshawRadialGrid.__init__.
  destruct (as_int atomic_number) as [z|];
    [|split; [intros g H; discriminate
             |split; [intros e [= <-]; reflexivity
                     |intros ? ? ? H; discriminate]]].
  destruct (Z.leb_spec z 0);
    [split; [intros g H'; discriminate
            |split; [intros e [= <-]; reflexivity
                    |intros ? ? ? [= <-] ?; lia]]|].
  destruct (as_int num_core_pts) as [nc|];
    [|split; [intros g H'; discriminate
             |split; [intros e [= <-]; reflexivity
                     |intros ? ? ? _ _ H'; discriminate]]].
  destruct (Z.ltb_spec nc 0);
    [split; [intros g H'; discriminate
            |split; [intros e [= <-]; reflexivity
                    |intros ? ? ? _ _ [= <-] ?; lia]]|].
  destruct (as_int num_diffuse_pts) as [nd|];
    [|split; [intros g H'; discriminate
             |split; [intros e [= <-]; reflexivity
                     |intros ? ? ? _ _ _ _ H'; discriminate]]].
  destruct (Z.ltb_spec nd 0);
    [split; [intros g H'; discriminate
            |split; [intros e [= <-]; reflexivity
                    |intros ? ? ? _ _ _ _ [= <-] ?; lia]]|].
  rewrite get_points_core, get_points_diffuse. cbn [bind].
  split; [|split].
  - intros g _. exists z, nc, nd. repeat split; auto.
  - intros e.
    destruct extra_pts as [|b|k|x|s|l|a]; cbn [ClenshawRadialGrid.truth bind].
    + rewrite base_init_array1d; discriminate.
    + destruct b; cbn [bind]; [intros [= <-]; reflexivity|].
      rewrite base_init_array1d; discriminate.
    + destruct (negb (k =? 0)%Z); cbn [bind]; [intros [= <-]; reflexivity|].
      rewrite base_init_array1d; discriminate.
    + destruct (Req_dec_T x 0); cbn [bind]; [|intros [= <-]; reflexivity].
      rewrite base_init_array1d; discriminate.
    + destruct (negb (String.eqb s String.EmptyString)); cbn [bind];
        [intros [= <-]; reflexivity|].
      rewrite base_init_array1d; discriminate.
    + destruct l; cbn [bind ClenshawRadialGrid.concatenate_extra];
        rewrite base_init_array1d; discriminate.
    + destruct (data a) as [|x [|y r]]; cbn [bind].
      * rewrite base_init_array1d; discriminate.
      * destruct (Req_dec_T x 0); cbn [bind].
        -- rewrite base_init_array1d; discriminate.
        -- unfold ClenshawRadialGrid.concatenate_extra.
           destruct (Nat.eqb (ndim a) 1); cbn [bind].
           ++ rewrite base_init_array1d; discriminate.
           ++ intros [= <-]; reflexivity.
      * intros [= <-]; reflexivity.
  - intros ? ? ? _ _ _ _ _ _ ->. cbn [ClenshawRadialGrid.truth bind].
    rewrite base_init_array1d. eexists; reflexivity.
Qed.

(** C9 (as the code has it).  Every grid constructor validates its numeric
    arguments and raises a validation error otherwise: [UniformRadialGrid]
    requires an integer [num_pts > 0] and [max_radii > min_radii];
    [ClenshawRadialGrid] requires a positive integer atomic number and
    integer point counts that are not negative (zero is accepted);
    [CubicGrid] requires [step_size > 0] and [largest_pnt > smallest_pnt]. *)
Theorem grid_constructors_validate :
  (forall num_pts min_radii max_radii spherical,
      ((exists g, UniformRadialGrid.__init__ num_pts min_radii max_radii
                    spherical = Ok g) <->
       (exists n lo hi,
           as_int num_pts = Some n /\ (0 < n)%Z /\
           as_number min_radii = Some lo /\ as_number max_radii = Some hi /\
           lo < hi)) /\
      (forall e, UniformRadialGrid.__init__ num_pts min_radii max_radii
                   spherical = Raise e -> is_validation_error e = true)) /\
  (forall atomic_number num_core_pts num_diffuse_pts spherical,
      ((exists g, ClenshawRadialGrid.__init__ atomic_number num_core_pts
                    num_diffuse_pts PyNone spherical = Ok g) <->
       (exists z nc nd,
           as_int atomic_number = Some z /\ (0 < z)%Z /\
           as_int num_core_pts = Some nc /\ (0 <= nc)%Z /\
           as_int num_diffuse_pts = Some nd /\ (0 <= nd)%Z)) /\
      (forall extra_pts e,
          ClenshawRadialGrid.__init__ atomic_number num_core_pts
            num_diffuse_pts extra_pts spherical = Raise e ->
          is_validation_error e = true) /\
      (forall extra_pts g,
          ClenshawRadialGrid.__init__ atomic_number num_core_pts
            num_diffuse_pts extra_pts spherical = Ok g ->
          exists z nc nd,
           as_int atomic_number = Some z /\ (0 < z)%Z /\
           as_int num_core_pts = Some nc /\ (0 <= nc)%Z /\
           as_int num_diffuse_pts = Some nd /\ (0 <= nd)%Z)) /\
  (forall smallest_pnt largest_pnt step_size,
      ((exists g, CubicGrid.__init__ smallest_pnt largest_pnt step_size = Ok g) <->
       (exists lo hi h,
           as_number smallest_pnt = Some lo /\ as_number largest_pnt = Some hi /\
           as_number step_size = Some h /\ 0 < h /\ lo < hi)) /\
      (forall e, CubicGrid.__init__ smallest_pnt largest_pnt step_size = Raise e ->
                 is_validation_error e = true)).
Proof.
  split; [|split].
  - intros num_pts min_radii max_radii spherical.
    destruct (uniform_init_spec num_pts min_radii max_radii spherical)
      as (Hok & Hinv & Herr).
    split; [split|exact Herr].
    + intros [g Hg]. exact (Hinv g Hg).
    + intros (n & lo & hi & H1 & H2 & H3 & H4 & H5).
      eexists. apply (Hok n lo hi); assumption.
  - intros atomic_number num_core_pts num_diffuse_pts spherical.
    split; [split|split].
    + intros [g Hg].
      exact (proj1 (clenshaw_init_spec _ _ _ _ _) g Hg).
    + intros (z & nc & nd & H1 & H2 & H3 & H4 & H5 & H6).
      exact (proj2 (proj2 (clenshaw_init_spec _ _ _ _ _))
               z nc nd H1 H2 H3 H4 H5 H6 eq_refl).
    + intros extra_pts e.
      exact (proj1 (proj2 (clenshaw_init_spec _ _ _ _ _)) e).
    + intros extra_pts g.
      exact (proj1 (clenshaw_init_spec _ _ _ _ _) g).
  - intros smallest_pnt largest_pnt step_size.
    exact (cubic_init_spec smallest_pnt largest_pnt step_size).
Qed.

(** Arguments the three constructors accept, and one each refuses. *)
Lemma grid_constructors_validate_witness :
  (exists g, UniformRadialGrid.__init__ (PyInt 3) (PyFloat 0) (PyFloat 10) true
             = Ok g) /\
  (exists g, ClenshawRadialGrid.__init__ (PyInt 4) (PyInt 2) (PyInt 1) PyNone
               true = Ok g) /\
  (exists g, CubicGrid.__init__ (PyFloat 0) (PyFloat 1) (PyFloat 0.5) = Ok g) /\
  is_validation_error ValueError = true.
Proof.
  destruct grid_constructors_validate as (HU & HC & HQ).
  split; [|split; [|split]].
  - apply (HU (PyInt 3) (PyFloat 0) (PyFloat 10) true).
    exists 3%Z, 0, 10. repeat split; try reflexivity; lra.
  - apply (HC (PyInt 4) (PyInt 2) (PyInt 1) true).
    exists 4%Z, 2%Z, 1%Z. repeat split; try reflexivity; lia.
  - apply (HQ (PyFloat 0) (PyFloat 1) (PyFloat 0.5)).
    exists 0, 1, 0.5. repeat split; try reflexivity; lra.
  - apply (proj2 (HU (PyInt 3) (PyFloat 1) (PyFloat 0) true) ValueError).
    unfold UniformRadialGrid.__init__; simpl.
    assert (E : Rleb 0 1 = true) by (apply Rleb_true; lra).
    rewrite E. reflexivity.
Defined.

(** C9 as stated fails: [ClenshawRadialGrid] accepts point counts that are
    not positive.  With an atomic number of 1 and both counts 0 it builds the
    grid without any point. *)
Lemma clenshaw_accepts_zero_counts :
  ClenshawRadialGrid.__init__ (PyInt 1) (PyInt 0) (PyInt 0) PyNone true
  = Ok (ClenshawRadialGrid.mk (BaseRadialGrid.mk [] true) 1) /\
  as_int (PyInt 0) = Some 0%Z /\ ~ (0 < 0)%Z.
Proof.
  split; [reflexivity|]. split; [reflexivity|]. lia.
Qed.

(* ================================================================== *)
(** * Properties of the greedy least-squares strategy *)

(** ** Arrays of finite numbers *)

Lemma sum_arr (l : list R) : Np.sum (Np.arr l) = Fin (Np.Rsum l).
Proof.
  unfold Np.sum, Np.arr, Np.Rsum.
  induction l as [|x l IH]; simpl; [reflexivity|]. rewrite IH; reflexivity.
Qed.

Lemma multiply_arr (l m : list R) :
  Np.multiply (Np.arr l) (Np.arr m) = Np.arr (Np.zip_with Rmult l m).
Proof.
  unfold Np.multiply, Np.arr.
  revert m; induction l as [|x l IH]; intros [|y m]; simpl; auto.
  rewrite IH; reflexivity.
Qed.

Lemma npow_Fin (x : R) (n : nat) : npow (Fin x) n = Fin (x ^ n).
Proof. induction n as [|n IH]; simpl; [reflexivity|]. rewrite IH; reflexivity. Qed.

Lemma power_arr (l : list R) (n : nat) :
  Np.power (Np.arr l) n = Np.arr (map (fun x => x ^ n) l).
Proof.
  unfold Np.power, Np.arr. rewrite !map_map.
  apply map_ext. intros x. apply npow_Fin.
Qed.

Lemma log_arr (l : list R) :
  Forall (fun x => 0 < x) l -> Np.log (Np.arr l) = Np.arr (map ln l).
Proof.
  unfold Np.log, Np.arr. induction 1 as [|x l Hx _ IH]; simpl; [reflexivity|].
  rewrite IH. destruct (Rlt_dec 0 x); [reflexivity|contradiction].
Qed.

(** The closed-form solver on finite weights and a positive density: one
    division for [big_a] and one for [big_b], whatever the divisor. *)
Lemma solve_one_function_weight_arr (self : GreedyLeastSquares.t) (w : list R) :
  Forall (fun x => 0 < x) (GreedyLeastSquares.density self) ->
  let r := BaseRadialGrid.points (GreedyLeastSquares.grid self) in
  let rho := GreedyLeastSquares.density self in
  let a := 2 * Np.Rsum w in
  let b := 2 * Np.Rsum (Np.zip_with Rmult w (map (fun x => x ^ 2) r)) in
  let c := 2 * Np.Rsum (Np.zip_with Rmult w (map ln rho)) in
  let e := 2 * Np.Rsum (Np.zip_with Rmult w (map (fun x => x ^ 4) r)) in
  let f := 2 * Np.Rsum (Np.zip_with Rmult
                          (Np.zip_with Rmult w (map (fun x => x ^ 2) r))
                          (map ln rho)) in
  GreedyLeastSquares._solve_one_function_weight self (Np.arr w)
  = [ nexp (Fin (b * f + - (c * e)) / Fin (b * b + - (a * e)))%num;
      (- (Fin (a * f + - (c * b)) / Fin (a * e + - (b * b))))%num ].
Proof.
  intros Hpos. cbv zeta. unfold GreedyLeastSquares._solve_one_function_weight.
  rewrite (log_arr _ Hpos), !power_arr, !multiply_arr, !sum_arr.
  reflexivity.
Qed.

(** ** When the 2x2 system is singular *)

Section Determinant.

Lemma spread_cons (q w0 r0 : R) (w r : list R) :
  GreedyLeastSquares.spread q (w0 :: w) (r0 :: r) = w0 * (r0 ^ 2 - q) ^ 2 + GreedyLeastSquares.spread q w r.
Proof. reflexivity. Qed.

Lemma spread_expand (q : R) (w r : list R) :
  length w = length r ->
  GreedyLeastSquares.spread q w r
  = Np.Rsum (Np.zip_with Rmult w (map (fun x => x ^ 4) r))
    - 2 * q * Np.Rsum (Np.zip_with Rmult w (map (fun x => x ^ 2) r))
    + q ^ 2 * Np.Rsum w.
Proof.
  revert r; induction w as [|w0 w IH]; intros [|r0 r] Hlen;
    try discriminate.
  - unfold GreedyLeastSquares.spread, Np.Rsum; simpl; lra.
  - rewrite spread_cons, IH by (simpl in Hlen; lia).
    unfold Np.Rsum; simpl; ring.
Qed.

Lemma spread_nonneg (q : R) (w r : list R) :
  Forall (fun x => 0 < x) w -> 0 <= GreedyLeastSquares.spread q w r.
Proof.
  intros Hw; revert r.
  induction Hw as [|w0 w Hw0 _ IH]; intros [|r0 r];
    try (unfold GreedyLeastSquares.spread, Np.Rsum; simpl; lra).
  rewrite spread_cons. specialize (IH r).
  pose proof (pow2_ge_0 (r0 ^ 2 - q)). nra.
Qed.

Lemma spread_pos (q : R) (w r : list R) (ri : R) :
  Forall (fun x => 0 < x) w -> length w = length r ->
  In ri r -> ri ^ 2 <> q -> 0 < GreedyLeastSquares.spread q w r.
Proof.
  intros Hw; revert r.
  induction Hw as [|w0 w Hw0 Hw IH]; intros [|r0 r] Hlen Hin Hne;
    try discriminate; simpl in Hin; [contradiction|].
  rewrite spread_cons.
  pose proof (pow2_ge_0 (r0 ^ 2 - q)) as H0.
  destruct Hin as [->|Hin].
  - pose proof (spread_nonneg q w r Hw).
    assert (0 < (ri ^ 2 - q) ^ 2)
      by (rewrite <- Rsqr_pow2; apply Rsqr_pos_lt; lra).
    nra.
  - assert (0 < GreedyLeastSquares.spread q w r) by (apply IH; auto). nra.
Qed.

Lemma determinant_cons (w0 r0 : R) (w r : list R) :
  length w = length r ->
  GreedyLeastSquares.determinant (w0 :: w) (r0 :: r)
  = GreedyLeastSquares.determinant w r + w0 * GreedyLeastSquares.spread (r0 ^ 2) w r.
Proof.
  intros Hlen. rewrite spread_expand by assumption.
  unfold GreedyLeastSquares.determinant, Np.Rsum. simpl. ring.
Qed.

Lemma determinant_nonneg (w r : list R) :
  Forall (fun x => 0 < x) w -> length w = length r ->
  0 <= GreedyLeastSquares.determinant w r.
Proof.
  intros Hw; revert r.
  induction Hw as [|w0 w Hw0 Hw IH]; intros [|r0 r] Hlen; try discriminate.
  - unfold GreedyLeastSquares.determinant, Np.Rsum; simpl; lra.
  - simpl in Hlen. rewrite determinant_cons by lia.
    specialize (IH r ltac:(lia)).
    pose proof (spread_nonneg (r0 ^ 2) w r Hw). nra.
Qed.

(** With positive weights the system is regular as soon as two grid points
    differ in their squares (the strict Cauchy-Schwarz inequality). *)
Lemma determinant_pos (w r : list R) (ri rj : R) :
  Forall (fun x => 0 < x) w -> length w = length r ->
  In ri r -> In rj r -> ri ^ 2 <> rj ^ 2 ->
  0 < GreedyLeastSquares.determinant w r.
Proof.
  intros Hw; revert r.
  induction Hw as [|w0 w Hw0 Hw IH]; intros [|r0 r] Hlen Hi Hj Hne;
    try discriminate; simpl in Hi, Hj, Hlen; [contradiction|].
  rewrite determinant_cons by lia.
  pose proof (determinant_nonneg w r Hw ltac:(lia)) as Hd.
  pose proof (spread_nonneg (r0 ^ 2) w r Hw) as Hs.
  destruct Hi as [->|Hi], Hj as [->|Hj].
  - contradiction.
  - assert (0 < GreedyLeastSquares.spread (ri ^ 2) w r)
      by (apply (spread_pos _ _ _ rj); auto; lia). nra.
  - assert (0 < GreedyLeastSquares.spread (rj ^ 2) w r)
      by (apply (spread_pos _ _ _ ri); auto; lia). nra.
  - assert (0 < GreedyLeastSquares.determinant w r)
      by (apply IH; auto; lia). nra.
Qed.

(** Conversely a singular system forces all squared radii to agree. *)
Lemma singular_same_squares (w r : list R) :
  Forall (fun x => 0 < x) w -> length w = length r ->
  GreedyLeastSquares.determinant w r = 0 ->
  forall ri rj, In ri r -> In rj r -> ri ^ 2 = rj ^ 2.
Proof.
  intros Hw Hlen Hdet ri rj Hi Hj.
  destruct (Req_dec_T (ri ^ 2) (rj ^ 2)) as [E|E]; [exact E|].
  pose proof (determinant_pos w r ri rj Hw Hlen Hi Hj E). lra.
Qed.

End Determinant.

(** ** When the 2x2 system is regular *)

Lemma weighted_sum_cons (g : R -> R -> R -> R) (w0 r0 x0 : R) (w r rho : list R) :
  GreedyLeastSquares.weighted_sum g (w0 :: w) (r0 :: r) (x0 :: rho)
  = g w0 r0 x0 + GreedyLeastSquares.weighted_sum g w r rho.
Proof. reflexivity. Qed.

Lemma weighted_sum_residual (c alpha : R) (w r rho : list R) :
  length w = length r -> length r = length rho ->
  GreedyLeastSquares.weighted_sum
    (fun w r rho => w * GreedyLeastSquares.log_residual c alpha r rho) w r rho
  = Np.Rsum (Np.zip_with Rmult w (map ln rho))
    - ln c * Np.Rsum w
    + alpha * Np.Rsum (Np.zip_with Rmult w (map (fun x => x ^ 2) r)).
Proof.
  revert r rho; induction w as [|w0 w IH]; intros [|r0 r] [|x0 rho] Hr Hrho;
    try discriminate.
  - unfold GreedyLeastSquares.weighted_sum, Np.Rsum; simpl; lra.
  - rewrite weighted_sum_cons, IH by (simpl in *; lia).
    unfold GreedyLeastSquares.log_residual, Np.Rsum; simpl; ring.
Qed.

Lemma weighted_sum_residual_squared (c alpha : R) (w r rho : list R) :
  length w = length r -> length r = length rho ->
  GreedyLeastSquares.weighted_sum
    (fun w r rho => w * r ^ 2 * GreedyLeastSquares.log_residual c alpha r rho)
    w r rho
  = Np.Rsum (Np.zip_with Rmult
               (Np.zip_with Rmult w (map (fun x => x ^ 2) r)) (map ln rho))
    - ln c * Np.Rsum (Np.zip_with Rmult w (map (fun x => x ^ 2) r))
    + alpha * Np.Rsum (Np.zip_with Rmult w (map (fun x => x ^ 4) r)).
Proof.
  revert r rho; induction w as [|w0 w IH]; intros [|r0 r] [|x0 rho] Hr Hrho;
    try discriminate.
  - unfold GreedyLeastSquares.weighted_sum, Np.Rsum; simpl; lra.
  - rewrite weighted_sum_cons, IH by (simpl in *; lia).
    unfold GreedyLeastSquares.log_residual, Np.Rsum; simpl; ring.
Qed.

(** With a regular system both divisions are finite and the candidate is
    [(exp(A), -B)]. *)
Lemma solve_one_function_weight_regular (self : GreedyLeastSquares.t)
    (w : list R) :
  let r := BaseRadialGrid.points (GreedyLeastSquares.grid self) in
  let rho := GreedyLeastSquares.density self in
  Forall (fun x => 0 < x) rho ->
  GreedyLeastSquares.determinant w r <> 0 ->
  GreedyLeastSquares._solve_one_function_weight self (Np.arr w)
  = [ Fin (exp (fst (GreedyLeastSquares.closed_form w r rho)));
      Fin (- snd (GreedyLeastSquares.closed_form w r rho)) ].
Proof.
  intros r rho Hpos Hdet.
  rewrite (solve_one_function_weight_arr self w Hpos). cbv zeta.
  fold r rho. unfold GreedyLeastSquares.determinant in Hdet.
  unfold GreedyLeastSquares.closed_form; cbn [fst snd ndiv].
  set (S0 := Np.Rsum w) in *.
  set (S2 := Np.Rsum (Np.zip_with Rmult w (map (fun x => x ^ 2) r))) in *.
  set (S4 := Np.Rsum (Np.zip_with Rmult w (map (fun x => x ^ 4) r))) in *.
  destruct (Req_dec_T (2 * S2 * (2 * S2) + - (2 * S0 * (2 * S4))) 0) as [E|_];
    [exfalso; apply Hdet; lra|].
  destruct (Req_dec_T (2 * S0 * (2 * S4) + - (2 * S2 * (2 * S2))) 0) as [E|_];
    [exfalso; apply Hdet; lra|].
  reflexivity.
Qed.

(** The closed form solves the weighted normal equations. *)
Lemma closed_form_normal_equations (w r rho : list R) :
  length w = length r -> length r = length rho ->
  GreedyLeastSquares.determinant w r <> 0 ->
  GreedyLeastSquares.solves_normal_equations w r rho
    (exp (fst (GreedyLeastSquares.closed_form w r rho)))
    (- snd (GreedyLeastSquares.closed_form w r rho)).
Proof.
  intros Hr Hrho Hdet. unfold GreedyLeastSquares.solves_normal_equations.
  rewrite weighted_sum_residual, weighted_sum_residual_squared by assumption.
  rewrite ln_exp.
  unfold GreedyLeastSquares.determinant in Hdet.
  unfold GreedyLeastSquares.closed_form; cbn [fst snd].
  set (S0 := Np.Rsum w) in *.
  set (S2 := Np.Rsum (Np.zip_with Rmult w (map (fun x => x ^ 2) r))) in *.
  set (S4 := Np.Rsum (Np.zip_with Rmult w (map (fun x => x ^ 4) r))) in *.
  set (L0 := Np.Rsum (Np.zip_with Rmult w (map ln rho))).
  set (L2 := Np.Rsum (Np.zip_with Rmult (Np.zip_with Rmult w
                        (map (fun x => x ^ 2) r)) (map ln rho))).
  assert (H1 : 2 * S2 * (2 * S2) + - (2 * S0 * (2 * S4)) <> 0)
    by (intros E; apply Hdet; lra).
  assert (H2 : 2 * S0 * (2 * S4) + - (2 * S2 * (2 * S2)) <> 0)
    by (intros E; apply Hdet; lra).
  split; field; split; assumption.
Qed.

(** ** Python's [min] with a key *)

Ltac num_cases :=
  unfold nltb, Rltb; repeat destruct (Rlt_dec _ _);
  try reflexivity; try discriminate; try congruence; try lra.

Lemma nltb_irrefl (a : num) : nltb a a = false.
Proof. destruct a; num_cases. Qed.

(** Replacing the best by a strictly smaller key keeps every earlier element
    not below it. *)
Lemma nltb_replace (x b y : num) :
  nltb x b = true -> nltb y b = false -> nltb y x = false.
Proof. destruct x, b, y; num_cases. Qed.

Lemma nltb_below (a b c : num) :
  a <> NaN -> b <> NaN ->
  nltb b a = false -> nltb b c = true -> nltb a c = true.
Proof. destruct a, b, c; num_cases. Qed.

Section PyMin.

Context {A : Type} (key : A -> num).

Lemma py_min_in (a : A) (l : list A) :
  In (GreedyLeastSquares.py_min key a l) (a :: l).
Proof.
  unfold GreedyLeastSquares.py_min.
  revert a; induction l as [|x l IH]; intros a; simpl; [auto|].
  destruct (nltb (key x) (key a)).
  - destruct (IH x) as [H|H]; [right; left; exact H|right; right; exact H].
  - destruct (IH a) as [H|H]; [left; exact H|right; right; exact H].
Qed.

Lemma py_min_least_from (seen : list A) (a : A) (l : list A) :
  (forall y, In y seen -> nltb (key y) (key a) = false) ->
  forall y, In y (seen ++ a :: l) ->
            nltb (key y) (key (GreedyLeastSquares.py_min key a l)) = false.
Proof.
  unfold GreedyLeastSquares.py_min.
  revert seen a; induction l as [|x l IH]; intros seen a Hseen y Hy; simpl.
  - apply in_app_or in Hy. destruct Hy as [Hy|[<-|[]]];
      [apply Hseen; exact Hy|apply nltb_irrefl].
  - destruct (nltb (key x) (key a)) eqn:E.
    + apply (IH (a :: seen) x).
      * intros z [<-|Hz].
        -- apply (nltb_replace _ (key a)); [exact E|apply nltb_irrefl].
        -- apply (nltb_replace _ (key a)); [exact E|apply Hseen; exact Hz].
      * rewrite in_app_iff in *. simpl in *. tauto.
    + apply (IH (x :: seen) a).
      * intros z [<-|Hz]; [exact E|apply Hseen; exact Hz].
      * rewrite in_app_iff in *. simpl in *. tauto.
Qed.

(** No element has a key strictly below the key of the minimum. *)
Lemma py_min_least (a : A) (l : list A) :
  forall y, In y (a :: l) ->
            nltb (key y) (key (GreedyLeastSquares.py_min key a l)) = false.
Proof. apply (py_min_least_from [] a l). intros y []. Qed.

End PyMin.

(** ** The public wrapper of the cost function *)

(** C10.  For every parameter vector [GreedyLeastSquares.get_cost_function]
    returns [None]: the value of the model's cost function is computed and
    dropped, so two parameter vectors can never be told apart through the
    wrapper, whatever their costs. *)
Theorem get_cost_function_returns_none :
  forall (self : GreedyLeastSquares.t) (params : list num),
    GreedyLeastSquares.get_cost_function self params = None /\
    forall params' : list num,
      GreedyLeastSquares.get_cost_function self params
      = GreedyLeastSquares.get_cost_function self params'.
Proof. intros self params. split; reflexivity. Qed.

(** ** The refinement step *)

Section Refinement.

Variable optimize_using_nnls : list R -> list (list num) -> result (list num).
Variable optimize_using_slsqp :
  AtomicGaussianDensity.t -> list num -> result (list num).

Lemma bind_ok_id {A : Type} (r : result A) : (x <- r ;; Ok x) = r.
Proof. destruct r; reflexivity. Qed.

(** C2.  For a parameter vector of length 2K the refinement rebuilds the
    cofactor matrix from the last K entries (the exponents), solves NNLS of
    that matrix against the target density, which by the solver's contract
    yields K non-negative coefficients, and runs the constrained minimizer
    from the 2K-vector made of those coefficients followed by the same
    exponents; what the minimizer returns is returned.  A failure of the
    NNLS solver is passed on. *)
Theorem refine_nnls_then_slsqp :
  forall (self : GreedyLeastSquares.t) (params : list num) (K : nat),
    length params = (2 * K)%nat ->
    let exps := skipn K params in
    let cofac_matrix :=
      AtomicGaussianDensity.create_cofactor_matrix
        (GreedyLeastSquares.gauss_obj self) exps in
    (forall coeffs,
        optimize_using_nnls (GreedyLeastSquares.density self) cofac_matrix
        = Ok coeffs ->
        length coeffs = length exps /\
        Forall (fun x => exists v, x = Fin v /\ 0 <= v) coeffs) ->
    length exps = K /\
    params = firstn K params ++ exps /\
    (forall coeffs,
        optimize_using_nnls (GreedyLeastSquares.density self) cofac_matrix
        = Ok coeffs ->
        length coeffs = K /\
        Forall (fun x => exists v, x = Fin v /\ 0 <= v) coeffs /\
        length (coeffs ++ exps) = (2 * K)%nat /\
        GreedyLeastSquares.get_optimization_routine
          optimize_using_nnls optimize_using_slsqp self params
        = optimize_using_slsqp (GreedyLeastSquares.gauss_obj self)
            (coeffs ++ exps)) /\
    (forall e,
        optimize_using_nnls (GreedyLeastSquares.density self) cofac_matrix
        = Raise e ->
        GreedyLeastSquares.get_optimization_routine
          optimize_using_nnls optimize_using_slsqp self params = Raise e).
Proof.
  intros self params K Hlen exps cofac_matrix Hnnls.
  assert (Hhalf : (length params / 2)%nat = K).
  { rewrite Hlen, Nat.mul_comm. apply Nat.div_mul. discriminate. }
  assert (Hexps : length exps = K).
  { unfold exps. rewrite length_skipn. lia. }
  split; [exact Hexps|]. split; [symmetry; apply firstn_skipn|]. split.
  - intros coeffs Hc. destruct (Hnnls coeffs Hc) as [Hl Hpos].
    split; [lia|]. split; [exact Hpos|]. split.
    + rewrite length_app. lia.
    + unfold GreedyLeastSquares.get_optimization_routine.
      rewrite Hhalf. fold exps. fold cofac_matrix. rewrite Hc. cbn [bind].
      apply bind_ok_id.
  - intros e He. unfold GreedyLeastSquares.get_optimization_routine.
    rewrite Hhalf. fold exps. fold cofac_matrix. rewrite He. reflexivity.
Qed.

End Refinement.

(** The refinement of the one-function vector [(1, 2)] on the grid 0, 1, with
    the stand-in solvers. *)
Lemma refine_nnls_then_slsqp_witness :
  GreedyLeastSquares.get_optimization_routine
    Solvers.zero_coefficients Solvers.initial_point
    (GreedyLeastSquares.mk
       (AtomicGaussianDensity.spec_model [0; 1] [2; 1] None)
       (BaseRadialGrid.mk [0; 1] true) 2 [])
    [Fin 1; Fin 2]
  = Ok [Fin 0; Fin 2].
Proof.
  pose (self := GreedyLeastSquares.mk
                  (AtomicGaussianDensity.spec_model [0; 1] [2; 1] None)
                  (BaseRadialGrid.mk [0; 1] true) 2 []).
  assert (Hc : forall coeffs,
             Solvers.zero_coefficients (GreedyLeastSquares.density self)
               (AtomicGaussianDensity.create_cofactor_matrix
                  (GreedyLeastSquares.gauss_obj self) (skipn 1 [Fin 1; Fin 2]))
             = Ok coeffs ->
             length coeffs = length (skipn 1 [Fin 1; Fin 2]) /\
             Forall (fun x => exists v, x = Fin v /\ 0 <= v) coeffs).
  { intros coeffs [= <-]. split; [reflexivity|].
    repeat constructor. exists 0. split; [reflexivity|lra]. }
  destruct (refine_nnls_then_slsqp Solvers.zero_coefficients
              Solvers.initial_point self [Fin 1; Fin 2] 1 eq_refl Hc)
    as (_ & _ & Hrun & _).
  destruct (Hrun [Fin 0] eq_refl) as (_ & _ & _ & Heq).
  exact Heq.
Defined.

(** ** The seed stage *)

Section Seed.

Variable optimize_using_nnls : list R -> list (list num) -> result (list num).
Variable optimize_using_slsqp :
  AtomicGaussianDensity.t -> list num -> result (list num).

(** Without an element the table branch is skipped and [best_found] stays
    unbound. *)
Lemma seed_without_element (self : GreedyLeastSquares.t) :
  AtomicGaussianDensity.element (GreedyLeastSquares.gauss_obj self) = None ->
  GreedyLeastSquares.get_best_one_function_solution
    optimize_using_nnls optimize_using_slsqp self
  = if nltb (fst (GreedyLeastSquares.p_min self)) (Fin 1e10)
    then Ok (Some (snd (GreedyLeastSquares.p_min self)))
    else Raise UnboundLocalError.
Proof.
  intros H. unfold GreedyLeastSquares.get_best_one_function_solution.
  rewrite H. reflexivity.
Qed.

(** With an element the call of [np.append] raises before any table-seeded
    candidate is built. *)
Lemma seed_with_element (self : GreedyLeastSquares.t) (s : String.string) :
  AtomicGaussianDensity.element (GreedyLeastSquares.gauss_obj self) = Some s ->
  GreedyLeastSquares.get_best_one_function_solution
    optimize_using_nnls optimize_using_slsqp self = Raise TypeError.
Proof.
  intros H. unfold GreedyLeastSquares.get_best_one_function_solution.
  rewrite H. reflexivity.
Qed.

Lemma p_min_ranked (self : GreedyLeastSquares.t) :
  In (GreedyLeastSquares.p_min self) (GreedyLeastSquares.ranked self) /\
  forall y, In y (GreedyLeastSquares.ranked self) ->
            nltb (fst y) (fst (GreedyLeastSquares.p_min self)) = false.
Proof.
  unfold GreedyLeastSquares.p_min, GreedyLeastSquares.ranked,
    GreedyLeastSquares.candidates. cbn [map].
  split; [apply py_min_in|apply py_min_least].
Qed.

(** What the seed stage returns when the least cost is below the sentinel. *)
Lemma seed_returns_least (self : GreedyLeastSquares.t) :
  let cost := AtomicGaussianDensity.cost_function
                (GreedyLeastSquares.gauss_obj self) in
  AtomicGaussianDensity.element (GreedyLeastSquares.gauss_obj self) = None ->
  Forall (fun p => cost p <> NaN) (GreedyLeastSquares.candidates self) ->
  Exists (fun p => nltb (cost p) (Fin 1e10) = true)
    (GreedyLeastSquares.candidates self) ->
  exists p,
    GreedyLeastSquares.get_best_one_function_solution
      optimize_using_nnls optimize_using_slsqp self = Ok (Some p) /\
    In p (GreedyLeastSquares.candidates self) /\
    forall q, In q (GreedyLeastSquares.candidates self) ->
              nltb (cost q) (cost p) = false.
Proof.
  intros cost Helem Hnan Hlow.
  destruct (p_min_ranked self) as [Hin Hleast].
  unfold GreedyLeastSquares.ranked in Hin, Hleast. apply in_map_iff in Hin.
  destruct Hin as (p & Hp & Hpin).
  assert (Hq : forall q, In q (GreedyLeastSquares.candidates self) ->
                         nltb (cost q) (cost p) = false).
  { intros q Hqin. rewrite <- Hp in Hleast.
    apply (Hleast (cost q, q)). apply in_map_iff. exists q. auto. }
  apply Exists_exists in Hlow. destruct Hlow as (k & Hk & Hklow).
  rewrite Forall_forall in Hnan.
  assert (Hbelow : nltb (cost p) (Fin 1e10) = true)
    by (apply (nltb_below _ (cost k)); auto).
  exists p. rewrite (seed_without_element self Helem), <- Hp. cbn [fst snd].
  unfold cost in Hbelow. rewrite Hbelow. auto.
Qed.

End Seed.

(** ** The three candidates *)

Lemma candidates_weights (self : GreedyLeastSquares.t) :
  GreedyLeastSquares.candidates self
  = map (fun w => GreedyLeastSquares._solve_one_function_weight self (Np.arr w))
        (GreedyLeastSquares.weights self).
Proof.
  unfold GreedyLeastSquares.candidates, GreedyLeastSquares.weights. cbn [map].
  rewrite power_arr. reflexivity.
Qed.

Lemma weights_positive (self : GreedyLeastSquares.t) :
  Forall (fun x => 0 < x) (GreedyLeastSquares.density self) ->
  Forall (Forall (fun x => 0 < x)) (GreedyLeastSquares.weights self).
Proof.
  intros Hpos. unfold GreedyLeastSquares.weights.
  repeat constructor.
  - unfold Np.ones. apply Forall_forall. intros x Hx.
    apply repeat_spec in Hx. lra.
  - exact Hpos.
  - apply Forall_forall. intros x Hx. apply in_map_iff in Hx.
    destruct Hx as (y & <- & Hy). rewrite Forall_forall in Hpos.
    apply pow_lt. auto.
Qed.

Lemma weights_length (self : GreedyLeastSquares.t) :
  length (GreedyLeastSquares.density self)
  = length (BaseRadialGrid.points (GreedyLeastSquares.grid self)) ->
  Forall (fun w => length w
                   = length (BaseRadialGrid.points (GreedyLeastSquares.grid self)))
    (GreedyLeastSquares.weights self).
Proof.
  intros Hlen. unfold GreedyLeastSquares.weights, Np.ones.
  repeat constructor.
  - apply repeat_length.
  - exact Hlen.
  - rewrite length_map. exact Hlen.
Qed.

Lemma candidates_regular (self : GreedyLeastSquares.t) :
  let r := BaseRadialGrid.points (GreedyLeastSquares.grid self) in
  let rho := GreedyLeastSquares.density self in
  length rho = length r ->
  Forall (fun x => 0 < x) rho ->
  (exists ri rj, In ri r /\ In rj r /\ ri ^ 2 <> rj ^ 2) ->
  Forall2 (fun w p => GreedyLeastSquares.regular_candidate w r rho p)
    (GreedyLeastSquares.weights self) (GreedyLeastSquares.candidates self).
Proof.
  intros r rho Hlen Hpos (ri & rj & Hi & Hj & Hne).
  rewrite candidates_weights.
  pose proof (weights_positive self Hpos) as Hw.
  pose proof (weights_length self Hlen) as Hl.
  fold r in Hl.
  induction (GreedyLeastSquares.weights self) as [|w ws IH]; cbn [map];
    constructor.
  - inversion Hw as [|? ? Hw0 _]; inversion Hl as [|? ? Hl0 _]; subst.
    assert (Hdet : GreedyLeastSquares.determinant w r <> 0).
    { pose proof (determinant_pos w r ri rj Hw0 Hl0 Hi Hj Hne). lra. }
    eexists; eexists. split; [|split; [reflexivity|split; [reflexivity|split]]].
    + apply (solve_one_function_weight_regular self w Hpos Hdet).
    + apply exp_pos.
    + apply closed_form_normal_equations; auto; fold rho; lia.
  - inversion Hw; inversion Hl; subst. apply IH; assumption.
Qed.

Lemma same_squares_sums (q : R) (w r rho : list R) :
  length w = length r -> length r = length rho ->
  (forall ri, In ri r -> ri ^ 2 = q) ->
  Np.Rsum (Np.zip_with Rmult w (map (fun x => x ^ 2) r)) = q * Np.Rsum w /\
  Np.Rsum (Np.zip_with Rmult w (map (fun x => x ^ 4) r)) = q ^ 2 * Np.Rsum w /\
  Np.Rsum (Np.zip_with Rmult (Np.zip_with Rmult w (map (fun x => x ^ 2) r))
             (map ln rho))
  = q * Np.Rsum (Np.zip_with Rmult w (map ln rho)).
Proof.
  revert r rho; induction w as [|w0 w IH]; intros [|r0 r] [|x0 rho] Hr Hrho Hq;
    try discriminate.
  - unfold Np.Rsum; simpl; lra.
  - destruct (IH r rho) as (E2 & E4 & EL).
    + simpl in Hr; lia.
    + simpl in Hrho; lia.
    + intros ri Hri. apply Hq. right. exact Hri.
    + assert (H0 : r0 ^ 2 = q) by (apply Hq; left; reflexivity).
      assert (H4 : r0 ^ 4 = q ^ 2) by (rewrite <- H0; ring).
      unfold Np.Rsum in *. cbn [map Np.zip_with fold_right].
      rewrite E2, E4, EL, H0, H4. repeat split; ring.
Qed.

(** With a singular system both divisions are 0/0 over the exact numbers:
    the candidate is the NaN-filled pair, and nothing is raised. *)
Lemma solve_one_function_weight_singular (self : GreedyLeastSquares.t)
    (w : list R) :
  let r := BaseRadialGrid.points (GreedyLeastSquares.grid self) in
  let rho := GreedyLeastSquares.density self in
  Forall (fun x => 0 < x) rho ->
  Forall (fun x => 0 < x) w ->
  length w = length r -> length rho = length r ->
  GreedyLeastSquares.determinant w r = 0 ->
  GreedyLeastSquares._solve_one_function_weight self (Np.arr w) = [NaN; NaN].
Proof.
  intros r rho Hpos Hw Hlw Hlrho Hdet.
  rewrite (solve_one_function_weight_arr self w Hpos). cbv zeta. fold r rho.
  assert (Hsame : exists q, forall ri, In ri r -> ri ^ 2 = q).
  { destruct r as [|r0 r'] eqn:Er.
    - exists 0. intros ri [].
    - exists (r0 ^ 2). intros ri Hri.
      apply (singular_same_squares w (r0 :: r') Hw Hlw Hdet);
        [exact Hri|left; reflexivity]. }
  destruct Hsame as (q & Hq).
  destruct (same_squares_sums q w r rho Hlw (eq_sym Hlrho) Hq) as (E2 & E4 & EL).
  rewrite E2, E4, EL.
  set (S0 := Np.Rsum w). set (L0 := Np.Rsum (Np.zip_with Rmult w (map ln rho))).
  replace (2 * (q * S0) * (2 * (q * L0)) + - (2 * L0 * (2 * (q ^ 2 * S0))))
    with 0 by ring.
  replace (2 * (q * S0) * (2 * (q * S0)) + - (2 * S0 * (2 * (q ^ 2 * S0))))
    with 0 by ring.
  replace (2 * S0 * (2 * (q * L0)) + - (2 * L0 * (2 * (q * S0))))
    with 0 by ring.
  replace (2 * S0 * (2 * (q ^ 2 * S0)) + - (2 * (q * S0) * (2 * (q * S0))))
    with 0 by ring.
  unfold ndiv, signed_inf.
  destruct (Req_dec_T 0 0) as [_|H]; [|contradiction].
  destruct (Rlt_dec 0 0) as [H|_]; [lra|]. reflexivity.
Qed.



(** C1.  The seed stage solves the three weightings and [min] picks a
    candidate of least cost, but that candidate is returned only when its
    cost is below the sentinel 1e10.  When the model has no element and no
    candidate costs less than 1e10, the function reaches [return best_found]
    with [best_found] never bound: it ends in [UnboundLocalError] instead of
    returning the candidate [min] picked. *)
Theorem seed_best_candidate_unbound :
  forall (optimize_using_nnls : list R -> list (list num) -> result (list num))
         (optimize_using_slsqp :
            AtomicGaussianDensity.t -> list num -> result (list num))
         (self : GreedyLeastSquares.t),
    let r := BaseRadialGrid.points (GreedyLeastSquares.grid self) in
    let rho := GreedyLeastSquares.density self in
    let cost := AtomicGaussianDensity.cost_function
                  (GreedyLeastSquares.gauss_obj self) in
    length rho = length r ->
    AtomicGaussianDensity.element (GreedyLeastSquares.gauss_obj self) = None ->
    Forall (fun p => nltb (cost p) (Fin 1e10) = false)
      (GreedyLeastSquares.candidates self) ->
    exists p,
      In p (GreedyLeastSquares.candidates self) /\
      GreedyLeastSquares.p_min self = (cost p, p) /\
      (forall q, In q (GreedyLeastSquares.candidates self) ->
                 nltb (cost q) (cost p) = false) /\
      GreedyLeastSquares.get_best_one_function_solution
        optimize_using_nnls optimize_using_slsqp self
      = Raise UnboundLocalError.
Proof.
  intros nnls slsqp self r rho cost _ Helem Hhigh.
  destruct (p_min_ranked self) as [Hin Hleast].
  unfold GreedyLeastSquares.ranked in Hin, Hleast. apply in_map_iff in Hin.
  destruct Hin as (p & Hp & Hpin).
  exists p. split; [exact Hpin|]. split; [symmetry; exact Hp|]. split.
  - intros q Hq. rewrite <- Hp in Hleast.
    apply (Hleast (cost q, q)). apply in_map_iff. exists q. auto.
  - rewrite (seed_without_element nnls slsqp self Helem), <- Hp. cbn [fst snd].
    rewrite Forall_forall in Hhigh. fold cost. rewrite (Hhigh p Hpin).
    reflexivity.
Qed.


(** C4.  With the element attribute set the seed stage raises [TypeError]:
    [np.append] is called with the tuple of the three scaled exponent arrays
    alone, without its second argument, so no table-seeded candidate is ever
    built, refined or compared. *)
Theorem seed_with_table_raises :
  forall (optimize_using_nnls : list R -> list (list num) -> result (list num))
         (optimize_using_slsqp :
            AtomicGaussianDensity.t -> list num -> result (list num))
         (self : GreedyLeastSquares.t),
    AtomicGaussianDensity.element (GreedyLeastSquares.gauss_obj self) <> None ->
    GreedyLeastSquares.get_best_one_function_solution
      optimize_using_nnls optimize_using_slsqp self = Raise TypeError.
Proof.
  intros nnls slsqp self H.
  destruct (AtomicGaussianDensity.element (GreedyLeastSquares.gauss_obj self))
    as [s|] eqn:E; [|contradiction].
  apply (seed_with_element _ _ self s E).
Qed.

(** The seed stage for hydrogen on the grid 0, 1 with the density 2, 1. *)
Lemma seed_with_table_raises_witness :
  GreedyLeastSquares.get_best_one_function_solution
    Solvers.zero_coefficients Solvers.initial_point
    (GreedyLeastSquares.mk
       (AtomicGaussianDensity.spec_model [0; 1] [2; 1] (Some "H"%string))
       (BaseRadialGrid.mk [0; 1] true) 2 [1; 2])
  = Raise TypeError.
Proof.
  apply seed_with_table_raises. simpl. discriminate.
Defined.

(** ** The cost of a one-function candidate under the model of the
       specification *)

Lemma create_model_one_function (r : list R) (c alpha : R) :
  AtomicGaussianDensity.create_model r [Fin c; Fin alpha]
  = Np.arr (map (fun ri => c * exp (- (alpha * ri ^ 2)) + 0) r).
Proof.
  unfold AtomicGaussianDensity.create_model, Np.arr.
  rewrite map_map. reflexivity.
Qed.

Lemma cost_one_function (r rho : list R) (c alpha : R) :
  AtomicGaussianDensity.sum_of_squared_residuals r rho [Fin c; Fin alpha]
  = Fin (Np.Rsum
           (Np.zip_with
              (fun x ri => (x + - (c * exp (- (alpha * ri ^ 2)) + 0)) ^ 2)
              rho r)).
Proof.
  unfold AtomicGaussianDensity.sum_of_squared_residuals.
  rewrite create_model_one_function.
  unfold Np.sum, Np.power, Np.arr, Np.Rsum.
  revert r; induction rho as [|x rho IH]; intros [|ri r]; try reflexivity.
  cbn [map Np.zip_with fold_right]. rewrite IH. reflexivity.
Qed.

Lemma exp_le (x y : R) : x <= y -> exp x <= exp y.
Proof.
  intros [H| ->]; [left; apply exp_increasing; exact H|right; reflexivity].
Qed.

(** A one-function model is monotone in the radius, so it cannot follow the
    density 1, 10^6, 1 on the grid 0, 1, 2: whatever the positive coefficient
    and the exponent, the cost is at least the sentinel 1e10. *)
Lemma cost_peaked_density (c alpha : R) :
  0 < c ->
  1e10 <= Np.Rsum
            (Np.zip_with
               (fun x ri => (x + - (c * exp (- (alpha * ri ^ 2)) + 0)) ^ 2)
               [1; 1e6; 1] [0; 1; 2]).
Proof.
  intros Hc. unfold Np.Rsum. cbn [Np.zip_with fold_right].
  set (e0 := exp (- (alpha * 0 ^ 2))).
  set (e1 := exp (- (alpha * 1 ^ 2))).
  set (e2 := exp (- (alpha * 2 ^ 2))).
  pose proof (pow2_ge_0 (1 + - (c * e0 + 0))) as Q0.
  pose proof (pow2_ge_0 (1e6 + - (c * e1 + 0))) as Q1.
  pose proof (pow2_ge_0 (1 + - (c * e2 + 0))) as Q2.
  assert (Hmono : c * e1 <= c * e0 \/ c * e1 <= c * e2).
  { destruct (Rle_dec 0 alpha) as [Ha|Ha].
    - left. apply Rmult_le_compat_l; [lra|]. apply exp_le. nra.
    - right. apply Rmult_le_compat_l; [lra|]. apply exp_le. nra. }
  destruct (Rle_dec 5e5 (c * e1)) as [Hbig|Hsmall].
  - destruct Hmono as [H|H].
    + assert (1e10 <= (1 + - (c * e0 + 0)) ^ 2) by nra. lra.
    + assert (1e10 <= (1 + - (c * e2 + 0)) ^ 2) by nra. lra.
  - assert (1e10 <= (1e6 + - (c * e1 + 0)) ^ 2) by nra. lra.
Qed.

Lemma Forall2_in_right {A B : Type} (P : A -> B -> Prop) (l : list A)
    (m : list B) :
  Forall2 P l m -> forall y, In y m -> exists x, In x l /\ P x y.
Proof.
  induction 1 as [|x y l m Hxy _ IH]; intros z Hz; [destruct Hz|].
  destruct Hz as [<-|Hz].
  - exists x. split; [left; reflexivity|exact Hxy].
  - destruct (IH z Hz) as (x' & Hx' & HP). exists x'. split; [right|]; auto.
Qed.

(** On a regular problem every candidate has a finite cost under the model
    of the specification. *)
Lemma scenario_costs (points density : list R) :
  let self := Scenario.strategy points density None in
  length density = length points ->
  Forall (fun x => 0 < x) density ->
  (exists ri rj, In ri points /\ In rj points /\ ri ^ 2 <> rj ^ 2) ->
  forall p, In p (GreedyLeastSquares.candidates self) ->
    exists c alpha,
      0 < c /\ p = [Fin c; Fin alpha] /\
      AtomicGaussianDensity.cost_function (GreedyLeastSquares.gauss_obj self) p
      = Fin (Np.Rsum
               (Np.zip_with
                  (fun x ri => (x + - (c * exp (- (alpha * ri ^ 2)) + 0)) ^ 2)
                  density points)).
Proof.
  intros self Hlen Hpos Hgrid p Hp.
  pose proof (candidates_regular self Hlen Hpos Hgrid) as HF.
  destruct (Forall2_in_right _ _ _ HF p Hp) as (w & _ & c & alpha & -> & _ & _ & Hc & _).
  exists c, alpha. split; [exact Hc|]. split; [reflexivity|].
  apply cost_one_function.
Qed.

(** On the grid of the single point 0 the three systems are singular, and the
    three candidates are NaN-filled. *)
Lemma single_point_candidates :
  GreedyLeastSquares.candidates (Scenario.strategy [0] [1] None)
  = [[NaN; NaN]; [NaN; NaN]; [NaN; NaN]].
Proof.
  set (self := Scenario.strategy [0] [1] None).
  rewrite candidates_weights.
  assert (Hpos : Forall (fun x => 0 < x) (GreedyLeastSquares.density self))
    by (repeat constructor; simpl; lra).
  assert (Hsing : forall w, Forall (fun x => 0 < x) w -> length w = 1%nat ->
            GreedyLeastSquares._solve_one_function_weight self (Np.arr w)
            = [NaN; NaN]).
  { intros w Hw Hl.
    apply solve_one_function_weight_singular; auto.
    destruct w as [|w0 [|w1 w]]; try discriminate.
    unfold GreedyLeastSquares.determinant, Np.Rsum. simpl. ring. }
  unfold GreedyLeastSquares.weights. cbn [map].
  rewrite !Hsing; try reflexivity; repeat constructor; simpl; lra.
Qed.

(** The grid 0, 1, 2 with the positive density 1, 10^6, 1: every candidate
    costs at least 1e10 under the cost function of the specification, and
    the seed stage ends in [UnboundLocalError]. *)
Lemma seed_best_candidate_unbound_witness :
  Forall (fun x => 0 < x) [1; 1e6; 1] /\
  GreedyLeastSquares.get_best_one_function_solution
    Solvers.zero_coefficients Solvers.initial_point
    (Scenario.strategy [0; 1; 2] [1; 1e6; 1] None)
  = Raise UnboundLocalError.
Proof.
  split; [repeat constructor; lra|].
  assert (Hhigh : Forall
            (fun p => nltb (AtomicGaussianDensity.cost_function
                              (GreedyLeastSquares.gauss_obj
                                 (Scenario.strategy [0; 1; 2] [1; 1e6; 1] None))
                              p)
                           (Fin 1e10) = false)
            (GreedyLeastSquares.candidates
               (Scenario.strategy [0; 1; 2] [1; 1e6; 1] None))).
  { apply Forall_forall. intros p Hpin.
    destruct (scenario_costs [0; 1; 2] [1; 1e6; 1]) with (p := p)
      as (c & alpha & Hc & _ & Hcost).
    - reflexivity.
    - repeat constructor; lra.
    - exists 0, 1. simpl. repeat split; auto. lra.
    - exact Hpin.
    - rewrite Hcost.
      pose proof (cost_peaked_density c alpha Hc) as Hlow.
      unfold nltb. apply Rltb_false in Hlow. rewrite Hlow. reflexivity. }
  destruct (seed_best_candidate_unbound Solvers.zero_coefficients
              Solvers.initial_point
              (Scenario.strategy [0; 1; 2] [1; 1e6; 1] None)
              eq_refl eq_refl Hhigh) as (p & _ & _ & _ & H).
  exact H.
Defined.



(* ================================================================== *)
(** * Further properties of the measures *)

Lemma sd_evaluate_ok (d m : list R) (deriv : bool) :
  length m = length d ->
  SquaredDifference.evaluate (SquaredDifference.mk (array1d d))
    (PyArray (array1d m)) deriv
  = let residual := Np.zip_with Rminus d m in
    Ok (map (fun x => x ^ 2) residual,
        if deriv then Some (map (fun x => -2 * x) residual) else None).
Proof.
  intros Hlen. unfold SquaredDifference.evaluate; simpl.
  rewrite Hlen, shape_eqb_refl; simpl. destruct deriv; reflexivity.
Qed.

(** The squared difference is never negative, and it vanishes exactly at
    the points where the model agrees with the density. *)
Theorem squared_difference_nonneg_zero_iff_equal :
  forall (d m : list R) (self : SquaredDifference.t),
    SquaredDifference.__init__ (PyArray (array1d d)) = Ok self ->
    length m = length d ->
    exists value : list R,
      SquaredDifference.evaluate self (PyArray (array1d m)) false
      = Ok (value, None) /\
      length value = length d /\
      forall (i : nat) (di mi : R),
        nth_error d i = Some di -> nth_error m i = Some mi ->
        exists vi, nth_error value i = Some vi /\ 0 <= vi /\
                   (vi = 0 <-> di = mi).
Proof.
  intros d m self Hinit Hlen. injection Hinit as <-.
  rewrite sd_evaluate_ok by assumption. cbv zeta.
  eexists. split; [reflexivity|]. split.
  - rewrite length_map, zip_with_length; auto.
  - intros i di mi Hd Hm.
    exists ((di - mi) ^ 2).
    rewrite nth_error_map, nth_error_zip_with, Hd, Hm.
    split; [reflexivity|]. split; [apply pow2_ge_0|].
    split; intros H; [|subst; ring].
    assert (di - mi = 0) by nra. lra.
Qed.

Lemma squared_difference_nonneg_zero_iff_equal_witness :
  exists value : list R,
    SquaredDifference.evaluate (SquaredDifference.mk (array1d [1; 2]))
      (PyArray (array1d [1; 5])) false = Ok (value, None) /\
    nth_error value 0 = Some 0.
Proof.
  destruct (squared_difference_nonneg_zero_iff_equal [1; 2] [1; 5]
              (SquaredDifference.mk (array1d [1; 2])) eq_refl eq_refl)
    as (value & Hev & _ & Hpt).
  exists value. split; [exact Hev|].
  destruct (Hpt 0%nat 1 1 eq_refl eq_refl) as (vi & Hvi & _ & Hz).
  rewrite Hvi. f_equal. apply Hz. reflexivity.
Defined.

(** The second array returned with [deriv=True] is the derivative of the
    first with respect to the model: at every point the function
    [g |-> (f - g)^2] has derivative [-2 * (f - g)] at the model value. *)
Theorem squared_difference_derivative :
  forall (d m : list R) (self : SquaredDifference.t),
    SquaredDifference.__init__ (PyArray (array1d d)) = Ok self ->
    length m = length d ->
    exists value dvalue : list R,
      SquaredDifference.evaluate self (PyArray (array1d m)) true
      = Ok (value, Some dvalue) /\
      length dvalue = length d /\
      forall (i : nat) (di mi : R),
        nth_error d i = Some di -> nth_error m i = Some mi ->
        exists vi dvi,
          nth_error value i = Some vi /\ nth_error dvalue i = Some dvi /\
          vi = (di - mi) ^ 2 /\ dvi = -2 * (di - mi) /\
          derivable_pt_lim (fun g => (di - g) ^ 2) mi dvi.
Proof.
  intros d m self Hinit Hlen. injection Hinit as <-.
  rewrite sd_evaluate_ok by assumption. cbv zeta.
  eexists; eexists. split; [reflexivity|]. split.
  - rewrite length_map, zip_with_length; auto.
  - intros i di mi Hd Hm.
    exists ((di - mi) ^ 2), (-2 * (di - mi)).
    rewrite !nth_error_map, nth_error_zip_with, Hd, Hm.
    repeat split.
    pose proof (derivable_pt_lim_comp (fun g => di - g) (fun y => y ^ 2) mi
                  (0 - 1) (INR 2 * (di - mi) ^ Init.Nat.pred 2)) as H.
    replace (-2 * (di - mi)) with (INR 2 * (di - mi) ^ Init.Nat.pred 2 * (0 - 1))
      by (simpl; ring).
    apply H.
    + apply (derivable_pt_lim_minus (fct_cte di) id).
      * apply derivable_pt_lim_const.
      * apply derivable_pt_lim_id.
    + apply derivable_pt_lim_pow.
Qed.

Lemma squared_difference_derivative_witness :
  exists value dvalue : list R,
    SquaredDifference.evaluate (SquaredDifference.mk (array1d [1; 2]))
      (PyArray (array1d [1; 5])) true = Ok (value, Some dvalue) /\
    nth_error dvalue 1 = Some 6.
Proof.
  destruct (squared_difference_derivative [1; 2] [1; 5]
              (SquaredDifference.mk (array1d [1; 2])) eq_refl eq_refl)
    as (value & dvalue & Hev & _ & Hpt).
  exists value, dvalue. split; [exact Hev|].
  destruct (Hpt 1%nat 2 5 eq_refl eq_refl) as (vi & dvi & _ & Hdv & _ & -> & _).
  rewrite Hdv. f_equal. lra.
Defined.

(** [SquaredDifference.evaluate] raises [ValueError] exactly when the model
    is not an array of the density's shape, and nothing else: unlike
    [KLDivergence], it accepts negative entries in the density and in the
    model. *)
Theorem squared_difference_raises_iff_shape :
  forall (self : SquaredDifference.t) (model : pyval) (deriv : bool),
    (SquaredDifference.evaluate self model deriv = Raise ValueError <->
     forall a, model = PyArray a ->
               shape a <> shape (SquaredDifference.density self)) /\
    (forall e, SquaredDifference.evaluate self model deriv = Raise e ->
               e = ValueError) /\
    (forall d m : list R,
        length m = length d ->
        SquaredDifference.__init__ (PyArray (array1d d))
        = Ok (SquaredDifference.mk (array1d d)) /\
        exists out,
          SquaredDifference.evaluate (SquaredDifference.mk (array1d d))
            (PyArray (array1d m)) deriv = Ok out).
Proof.
  intros self model deriv. split; [|split].
  - unfold SquaredDifference.evaluate.
    destruct model as [|b|z|x|s|l|a];
      try (split; [intros _ a' H; discriminate|reflexivity]).
    unfold shape_eqb.
    destruct (list_eq_dec Nat.eq_dec (shape a)
                (shape (SquaredDifference.density self))) as [E|E]; simpl.
    + split.
      * destruct deriv; discriminate.
      * intros H. exfalso. apply (H a eq_refl E).
    + split; [|reflexivity]. intros _ a' [= <-]. exact E.
  - intros e. unfold SquaredDifference.evaluate.
    destruct model as [|b|z|x|s|l|a]; try (intros [= <-]; reflexivity).
    destruct (negb _); [intros [= <-]; reflexivity|].
    destruct deriv; discriminate.
  - intros d m Hlen. split; [reflexivity|].
    rewrite sd_evaluate_ok by assumption. eexists; reflexivity.
Qed.

Lemma squared_difference_raises_iff_shape_witness :
  SquaredDifference.evaluate (SquaredDifference.mk (array1d [1; 2]))
    (PyArray (array1d [1; 2; 3])) false = Raise ValueError /\
  exists out,
    SquaredDifference.evaluate (SquaredDifference.mk (array1d [-1; 2]))
      (PyArray (array1d [3; -4])) false = Ok out.
Proof.
  split.
  - apply (squared_difference_raises_iff_shape
             (SquaredDifference.mk (array1d [1; 2]))
             (PyArray (array1d [1; 2; 3])) false).
    intros a [= <-]. simpl. discriminate.
  - apply (squared_difference_raises_iff_shape
             (SquaredDifference.mk (array1d [-1; 2])) PyNone false).
    reflexivity.
Defined.

Lemma ln_le_minus_one (y : R) : 0 < y -> ln y <= y - 1.
Proof.
  intros Hy. destruct (Req_dec_T (ln y) 0) as [E|E].
  - assert (y = 1).
    { rewrite <- (exp_ln y Hy), E. apply exp_0. }
    subst. rewrite ln_1. lra.
  - pose proof (exp_ineq1 (ln y) E) as H. rewrite (exp_ln y Hy) in H. lra.
Qed.

(** At a point that the masked division leaves unmasked (the model exceeds
    the floor and density * tiny < model, tiny = 2^-1022) and where the
    density is positive, the integrand [f * ln(f / g)] and the derivative
    returned are real numbers; the derivative returned is the derivative of
    the integrand with respect to the model, and the integrand is at least
    [f - g] (so a sum of integrands is at least the difference of the
    masses). *)
Theorem kl_integrand_unmasked :
  forall (d m : list R) (mask : R) (self : KLDivergence.t),
    KLDivergence.__init__ (PyArray (array1d d)) mask = Ok self ->
    length m = length d ->
    Forall (fun x => 0 <= x) m ->
    exists value dvalue : list num,
      KLDivergence.evaluate self (PyArray (array1d m)) true
      = Ok (value, Some dvalue) /\
      forall (i : nat) (di mi : R),
        nth_error d i = Some di -> nth_error m i = Some mi ->
        0 < di -> mask < mi -> di * Np.tiny < mi ->
        exists vi dvi : R,
          nth_error value i = Some (Fin vi) /\
          nth_error dvalue i = Some (Fin dvi) /\
          vi = di * ln (di / mi) /\ dvi = - (di / mi) /\
          derivable_pt_lim (fun g => di * ln (di / g)) mi dvi /\
          di - mi <= vi.
Proof.
  intros d m mask self Hinit Hlen Hm.
  apply kl_init_inv in Hinit. destruct Hinit as (-> & _ & _).
  rewrite kl_evaluate_ok by assumption. cbv zeta.
  eexists; eexists. split; [reflexivity|].
  intros i di mi Hd Hmi Hdpos Hcmp Hdom.
  assert (Hpos : 0 < mi) by (pose proof tiny_pos; nra).
  assert (Hratio : 0 < di / mi) by (apply Rdiv_lt_0_compat; assumption).
  exists (di * ln (di / mi)), (- (di / mi)).
  unfold Np.multiply, Np.log, Np.negative, Np.arr.
  rewrite nth_error_zip_with, !nth_error_map, nth_error_zip_with, Hd, Hmi.
  cbn [option_map]. unfold KLDivergence.ratio_at.
  apply Rleb_false in Hcmp. rewrite Hcmp.
  rewrite (Rabs_pos_eq mi), (Rabs_pos_eq di) by lra.
  apply Rleb_false in Hdom. rewrite Hdom. cbn [nlog nneg nmul].
  destruct (Rlt_dec 0 (di / mi)) as [_|H]; [|contradiction].
  repeat split.
  - pose proof (derivable_pt_lim_scal
                  (comp ln (fct_cte di / id)%F) di mi
                  (/ (di / mi) * ((0 * mi - 1 * di) / Rsqr mi))) as H.
    replace (- (di / mi))
      with (di * (/ (di / mi) * ((0 * mi - 1 * di) / Rsqr mi)))
      by (unfold Rsqr; field; lra).
    apply H. apply derivable_pt_lim_comp.
    + apply (derivable_pt_lim_div (fct_cte di) id).
      * apply derivable_pt_lim_const.
      * apply derivable_pt_lim_id.
      * unfold id. lra.
    + apply derivable_pt_lim_ln. exact Hratio.
  - assert (Hinv : 0 < mi / di) by (apply Rdiv_lt_0_compat; assumption).
    pose proof (ln_le_minus_one (mi / di) Hinv) as Hln.
    assert (Hneg : ln (di / mi) = - ln (mi / di)).
    { rewrite <- ln_Rinv by exact Hinv. f_equal. field. lra. }
    rewrite Hneg.
    assert (di * (mi / di) = mi) by (field; lra). nra.
Qed.

Lemma kl_integrand_unmasked_witness :
  exists value dvalue : list num,
    KLDivergence.evaluate (KLDivergence.mk (array1d [2; 3]) 1e-12)
      (PyArray (array1d [4; 3])) true = Ok (value, Some dvalue) /\
    nth_error dvalue 0 = Some (Fin (- (2 / 4))).
Proof.
  assert (Hinit : KLDivergence.__init__ (PyArray (array1d [2; 3])) 1e-12
                  = Ok (KLDivergence.mk (array1d [2; 3]) 1e-12)).
  { apply kl_init_ok. repeat constructor; lra. }
  assert (Hm : Forall (fun x => 0 <= x) [4; 3]) by (repeat constructor; lra).
  destruct (kl_integrand_unmasked [2; 3] [4; 3] 1e-12 _ Hinit eq_refl Hm)
    as (value & dvalue & Hev & Hpt).
  exists value, dvalue. split; [exact Hev|].
  pose proof tiny_pos. pose proof tiny_lt_1.
  destruct (Hpt 0%nat 2 4 eq_refl eq_refl) as (vi & dvi & _ & Hdv & _ & -> & _);
    [lra|lra|lra|exact Hdv].
Defined.

(** At a point where the density is zero and the model exceeds a
    non-negative floor the ratio is 0, its logarithm is minus infinity and
    the integrand [0 * (-inf)] is NaN. *)
Theorem kl_integrand_nan_at_zero_density :
  forall (d m : list R) (mask : R) (self : KLDivergence.t),
    KLDivergence.__init__ (PyArray (array1d d)) mask = Ok self ->
    length m = length d ->
    Forall (fun x => 0 <= x) m ->
    0 <= mask ->
    exists value : list num,
      KLDivergence.evaluate self (PyArray (array1d m)) false
      = Ok (value, None) /\
      forall (i : nat) (mi : R),
        nth_error d i = Some 0 -> nth_error m i = Some mi -> mask < mi ->
        nth_error value i = Some NaN.
Proof.
  intros d m mask self Hinit Hlen Hm Hmask.
  apply kl_init_inv in Hinit. destruct Hinit as (-> & _ & _).
  rewrite kl_evaluate_ok by assumption. cbv zeta.
  eexists. split; [reflexivity|].
  intros i mi Hd Hmi Hcmp.
  assert (Hpos : 0 < mi) by lra.
  unfold Np.multiply, Np.log, Np.arr.
  rewrite nth_error_zip_with, !nth_error_map, nth_error_zip_with, Hd, Hmi.
  cbn [option_map]. unfold KLDivergence.ratio_at.
  apply Rleb_false in Hcmp. rewrite Hcmp.
  assert (Hdom : Rleb (Rabs mi) (Rabs 0 * Np.tiny) = false).
  { apply Rleb_false. rewrite Rabs_R0, Rabs_pos_eq by lra. lra. }
  rewrite Hdom.
  replace (0 / mi) with 0 by (field; lra). cbn [nlog].
  destruct (Rlt_dec 0 0) as [H|_]; [lra|].
  destruct (Req_dec_T 0 0) as [_|H]; [|contradiction].
  cbn [nmul]. unfold signed_inf.
  destruct (Rlt_dec 0 0) as [H|_]; [lra|]. reflexivity.
Qed.

Lemma kl_integrand_nan_at_zero_density_witness :
  exists value : list num,
    KLDivergence.evaluate (KLDivergence.mk (array1d [0; 3]) 1e-12)
      (PyArray (array1d [4; 3])) false = Ok (value, None) /\
    nth_error value 0 = Some NaN.
Proof.
  assert (Hinit : KLDivergence.__init__ (PyArray (array1d [0; 3])) 1e-12
                  = Ok (KLDivergence.mk (array1d [0; 3]) 1e-12)).
  { apply kl_init_ok. repeat constructor; lra. }
  assert (Hm : Forall (fun x => 0 <= x) [4; 3]) by (repeat constructor; lra).
  assert (Hmask : 0 <= 1e-12) by lra.
  destruct (kl_integrand_nan_at_zero_density [0; 3] [4; 3] 1e-12 _ Hinit
              eq_refl Hm Hmask) as (value & Hev & Hpt).
  exists value. split; [exact Hev|].
  apply (Hpt 0%nat 4); [reflexivity|reflexivity|lra].
Defined.

(* ================================================================== *)
(** * Further properties of the radial grids *)

Lemma trapezoidal_rule_cons2 (x0 x1 y0 y1 : R) (x y : list R) :
  BaseRadialGrid.trapezoidal_rule (x0 :: x1 :: x) (y0 :: y1 :: y)
  = (x1 - x0) * ((y0 + y1) / 2)
    + BaseRadialGrid.trapezoidal_rule (x1 :: x) (y1 :: y).
Proof. reflexivity. Qed.

Lemma trapezoidal_rule_linear (a b : R) (x u v : list R) :
  length u = length x -> length v = length x ->
  BaseRadialGrid.trapezoidal_rule x
    (Np.zip_with (fun p q => a * p + b * q) u v)
  = a * BaseRadialGrid.trapezoidal_rule x u
    + b * BaseRadialGrid.trapezoidal_rule x v.
Proof.
  revert u v; induction x as [|x0 x IH]; intros u v Hu Hv.
  - simpl; lra.
  - destruct u as [|u0 u]; [discriminate|]. destruct v as [|v0 v]; [discriminate|].
    destruct x as [|x1 x].
    + simpl; lra.
    + destruct u as [|u1 u]; [discriminate|].
      destruct v as [|v1 v]; [discriminate|].
      specialize (IH (u1 :: u) (v1 :: v) ltac:(simpl in *; lia)
                     ltac:(simpl in *; lia)).
      cbn [Np.zip_with] in *.
      rewrite !trapezoidal_rule_cons2, IH. field.
Qed.

Lemma weight_linear (a b : R) (w u v : list R) :
  Np.zip_with Rmult w (Np.zip_with (fun p q => a * p + b * q) u v)
  = Np.zip_with (fun p q => a * p + b * q)
      (Np.zip_with Rmult w u) (Np.zip_with Rmult w v).
Proof.
  revert u v; induction w as [|w0 w IH]; intros [|u0 u] [|v0 v]; simpl; auto.
  rewrite IH. f_equal. ring.
Qed.

Lemma integrate_array1d (self : BaseRadialGrid.t) (u : list R) :
  length u = length (BaseRadialGrid.points self) ->
  BaseRadialGrid.integrate self (array1d u)
  = Ok (if BaseRadialGrid.spherical self
        then 4 * PI *
             BaseRadialGrid.trapezoidal_rule (BaseRadialGrid.points self)
               (Np.zip_with Rmult
                  (map (fun p => p ^ 2) (BaseRadialGrid.points self)) u)
        else BaseRadialGrid.trapezoidal_rule (BaseRadialGrid.points self) u).
Proof.
  intros Hlen. unfold BaseRadialGrid.integrate, BaseRadialGrid.points_shape.
  simpl shape. rewrite Hlen, shape_eqb_refl. simpl negb. cbv iota.
  unfold BaseRadialGrid.spherical.
  destruct (BaseRadialGrid._spherical self);
    rewrite trapz_trapezoidal_rule; reflexivity.
Qed.

Lemma integral_value_linear (self : BaseRadialGrid.t) (a b : R)
    (u v : list R) :
  length u = length (BaseRadialGrid.points self) ->
  length v = length (BaseRadialGrid.points self) ->
  (if BaseRadialGrid.spherical self
   then 4 * PI *
        BaseRadialGrid.trapezoidal_rule (BaseRadialGrid.points self)
          (Np.zip_with Rmult
             (map (fun p => p ^ 2) (BaseRadialGrid.points self))
             (Np.zip_with (fun p q => a * p + b * q) u v))
   else BaseRadialGrid.trapezoidal_rule (BaseRadialGrid.points self)
          (Np.zip_with (fun p q => a * p + b * q) u v))
  = a * (if BaseRadialGrid.spherical self
         then 4 * PI *
              BaseRadialGrid.trapezoidal_rule (BaseRadialGrid.points self)
                (Np.zip_with Rmult
                   (map (fun p => p ^ 2) (BaseRadialGrid.points self)) u)
         else BaseRadialGrid.trapezoidal_rule (BaseRadialGrid.points self) u)
    + b * (if BaseRadialGrid.spherical self
           then 4 * PI *
                BaseRadialGrid.trapezoidal_rule (BaseRadialGrid.points self)
                  (Np.zip_with Rmult
                     (map (fun p => p ^ 2) (BaseRadialGrid.points self)) v)
           else BaseRadialGrid.trapezoidal_rule (BaseRadialGrid.points self) v).
Proof.
  intros Hu Hv. destruct (BaseRadialGrid.spherical self).
  - rewrite weight_linear, trapezoidal_rule_linear.
    + ring.
    + rewrite zip_with_length; rewrite length_map; lia.
    + rewrite zip_with_length; rewrite length_map; lia.
  - apply trapezoidal_rule_linear; assumption.
Qed.

(** [integrate] is linear: the integral of [a * u + b * v] is [a] times the
    integral of [u] plus [b] times the integral of [v], on spherical grids
    and on grids that are not spherical. *)
Theorem radial_integrate_linear :
  forall (self : BaseRadialGrid.t) (a b : R) (u v : list R),
    length u = length (BaseRadialGrid.points self) ->
    length v = length (BaseRadialGrid.points self) ->
    exists Iu Iv : R,
      BaseRadialGrid.integrate self (array1d u) = Ok Iu /\
      BaseRadialGrid.integrate self (array1d v) = Ok Iv /\
      BaseRadialGrid.integrate self
        (array1d (Np.zip_with (fun p q => a * p + b * q) u v))
      = Ok (a * Iu + b * Iv).
Proof.
  intros self a b u v Hu Hv.
  rewrite !integrate_array1d; auto.
  2: { rewrite zip_with_length; lia. }
  eexists; eexists. split; [reflexivity|]. split; [reflexivity|].
  f_equal. apply integral_value_linear; assumption.
Qed.

Lemma radial_integrate_linear_witness :
  BaseRadialGrid.integrate (BaseRadialGrid.mk [0; 1; 3] false)
    (array1d (Np.zip_with (fun p q => 2 * p + 3 * q) [2; 4; 6] [1; 1; 1]))
  = Ok (2 * 13 + 3 * 3).
Proof.
  destruct (radial_integrate_linear (BaseRadialGrid.mk [0; 1; 3] false) 2 3
              [2; 4; 6] [1; 1; 1] eq_refl eq_refl)
    as (Iu & Iv & Hu & Hv & H).
  rewrite H. rewrite integrate_array1d in Hu, Hv by reflexivity.
  injection Hu as <-. injection Hv as <-. f_equal. simpl. lra.
Defined.

Lemma trapezoidal_rule_constant (c : R) (x : list R) :
  BaseRadialGrid.trapezoidal_rule x (repeat c (length x))
  = c * (last x 0 - hd 0 x).
Proof.
  induction x as [|x0 x IH]; [simpl; lra|].
  destruct x as [|x1 x]; [simpl; lra|].
  change (repeat c (length (x0 :: x1 :: x)))
    with (c :: c :: repeat c (length x)).
  rewrite trapezoidal_rule_cons2.
  change (c :: repeat c (length x)) with (repeat c (length (x1 :: x))).
  rewrite IH.
  change (last (x0 :: x1 :: x) 0) with (last (x1 :: x) 0).
  simpl hd. field.
Qed.

(** Without the spherical weight the integral of a constant [c] is exactly
    [c] times the distance from the first to the last grid point, whatever
    the spacing of the points; on a grid of fewer than two points it is 0. *)
Theorem radial_integrate_constant :
  forall (points : list R) (c : R),
    BaseRadialGrid.integrate (BaseRadialGrid.mk points false)
      (array1d (repeat c (length points)))
    = Ok (c * (last points 0 - hd 0 points)) /\
    ((length points < 2)%nat ->
     BaseRadialGrid.integrate (BaseRadialGrid.mk points false)
       (array1d (repeat c (length points))) = Ok 0).
Proof.
  intros points c.
  rewrite integrate_array1d by apply repeat_length. simpl.
  rewrite trapezoidal_rule_constant. split; [reflexivity|].
  intros Hlen. f_equal.
  destruct points as [|x0 [|x1 x]]; simpl in *; try lra. lia.
Qed.

Lemma radial_integrate_constant_witness :
  BaseRadialGrid.integrate (BaseRadialGrid.mk [7] false)
    (array1d (repeat 5 (length [7]))) = Ok 0.
Proof.
  apply (radial_integrate_constant [7] 5). simpl. lia.
Defined.

Lemma trapezoidal_rule_nonneg (x y : list R) :
  Sorted Rle x -> Forall (fun v => 0 <= v) y -> length y = length x ->
  0 <= BaseRadialGrid.trapezoidal_rule x y.
Proof.
  revert y; induction x as [|x0 x IH]; intros y Hs Hy Hlen; [simpl; lra|].
  destruct y as [|y0 y]; [discriminate|].
  destruct x as [|x1 x]; [simpl; lra|].
  destruct y as [|y1 y]; [discriminate|].
  rewrite trapezoidal_rule_cons2.
  inversion Hs as [|? ? Hs' Hhd]; subst. inversion Hhd; subst.
  inversion Hy as [|? ? Hy0 Hy']; subst. inversion Hy'; subst.
  specialize (IH (y1 :: y) Hs' Hy' ltac:(simpl in *; lia)).
  assert (0 <= (x1 - x0) * ((y0 + y1) / 2)) by (apply Rmult_le_pos; lra).
  lra.
Qed.

(** On a grid whose points ascend, [integrate] is monotone: values that are
    pointwise smaller have the smaller integral, with and without the
    spherical weight.  In particular values that are nowhere negative have
    an integral that is not negative. *)
Theorem radial_integrate_monotone :
  forall (self : BaseRadialGrid.t) (u v : list R),
    Sorted Rle (BaseRadialGrid.points self) ->
    length u = length (BaseRadialGrid.points self) ->
    Forall2 Rle u v ->
    exists Iu Iv : R,
      BaseRadialGrid.integrate self (array1d u) = Ok Iu /\
      BaseRadialGrid.integrate self (array1d v) = Ok Iv /\
      Iu <= Iv.
Proof.
  intros self u v Hs Hu Hle.
  assert (Hv : length v = length (BaseRadialGrid.points self))
    by (rewrite <- Hu; symmetry; apply (Forall2_length Hle)).
  pose proof (integral_value_linear self (-1) 1 u v Hu Hv) as Hdiff.
  rewrite !integrate_array1d by assumption.
  eexists; eexists. split; [reflexivity|]. split; [reflexivity|].
  assert (Hnn : Forall (fun z => 0 <= z)
                  (Np.zip_with (fun p q => -1 * p + 1 * q) u v)).
  { clear -Hle. induction Hle as [|p q u v Hpq _ IH]; simpl; constructor; auto.
    lra. }
  assert (Hl : length (Np.zip_with (fun p q => -1 * p + 1 * q) u v)
               = length (BaseRadialGrid.points self))
    by (rewrite zip_with_length; lia).
  match goal with |- ?x <= ?y => assert (0 <= -1 * x + 1 * y); [|lra] end.
  rewrite <- Hdiff. destruct (BaseRadialGrid.spherical self).
  - assert (0 <= BaseRadialGrid.trapezoidal_rule (BaseRadialGrid.points self)
                   (Np.zip_with Rmult
                      (map (fun p => p ^ 2) (BaseRadialGrid.points self))
                      (Np.zip_with (fun p q => -1 * p + 1 * q) u v))).
    { apply trapezoidal_rule_nonneg; [exact Hs| |].
      - clear -Hnn. revert Hnn.
        generalize (Np.zip_with (fun p q => -1 * p + 1 * q) u v) as z.
        induction (BaseRadialGrid.points self) as [|r rs IH];
          intros [|z0 z] Hz; simpl; constructor.
        + inversion Hz; subst. pose proof (pow2_ge_0 r).
          apply Rmult_le_pos; assumption.
        + apply IH. inversion Hz; assumption.
      - rewrite zip_with_length; rewrite length_map; lia. }
    pose proof PI_RGT_0. apply Rmult_le_pos; [lra|assumption].
  - apply trapezoidal_rule_nonneg; assumption.
Qed.

Lemma radial_integrate_monotone_witness :
  exists Iu Iv : R,
    BaseRadialGrid.integrate (BaseRadialGrid.mk [0; 1; 3] true)
      (array1d [0; 0; 0]) = Ok Iu /\
    BaseRadialGrid.integrate (BaseRadialGrid.mk [0; 1; 3] true)
      (array1d [2; 4; 6]) = Ok Iv /\
    Iu <= Iv.
Proof.
  apply (radial_integrate_monotone (BaseRadialGrid.mk [0; 1; 3] true)
           [0; 0; 0] [2; 4; 6]).
  - simpl. repeat constructor; lra.
  - reflexivity.
  - repeat constructor; lra.
Defined.

Lemma sorted_map_seq (f : nat -> R) (a n : nat) :
  (forall i, f i < f (S i)) -> Sorted Rlt (map f (seq a n)).
Proof.
  intros Hf. revert a; induction n as [|n IH]; intros a; simpl; constructor.
  - apply IH.
  - destruct n; simpl; constructor. apply Hf.
Qed.

Lemma sorted_lt_le (l : list R) : Sorted Rlt l -> Sorted Rle l.
Proof.
  induction 1 as [|x l Hs IH Hhd]; constructor; auto.
  destruct Hhd; constructor. lra.
Qed.

Lemma linspace_steps (lo hi : R) (n : nat) :
  (2 <= n)%nat ->
  NpGrid.linspace lo hi n
  = map (fun i => INR i * ((hi - lo) / INR (n - 1)) + lo) (seq 0 n).
Proof.
  intros Hn. unfold NpGrid.linspace.
  destruct n as [|[|n]]; try lia. reflexivity.
Qed.

Lemma linspace_points (lo hi : R) (k : nat) :
  (2 <= k)%nat -> lo < hi ->
  length (NpGrid.linspace lo hi k) = k /\
  hd_error (NpGrid.linspace lo hi k) = Some lo /\
  Sorted Rlt (NpGrid.linspace lo hi k) /\
  last (NpGrid.linspace lo hi k) 0 = hi /\
  forall i : nat,
    (i < k)%nat ->
    nth_error (NpGrid.linspace lo hi k) i
    = Some (INR i * ((hi - lo) / INR (k - 1)) + lo).
Proof.
  intros H2 Hlt. rewrite (linspace_steps lo hi _ H2).
  assert (Hk : 0 < INR (k - 1)) by (apply lt_0_INR; lia).
  assert (Hstep : 0 < (hi - lo) / INR (k - 1))
    by (apply Rdiv_lt_0_compat; lra).
  split; [rewrite length_map, length_seq; reflexivity|].
  split; [destruct k; [lia|]; simpl; f_equal; lra|].
  split.
  { apply sorted_map_seq. intros i. rewrite S_INR. nra. }
  split.
  - destruct k as [|k]; [lia|].
    rewrite seq_S, map_app. cbn [map]. rewrite last_last. cbn [Nat.add].
    replace (S k - 1)%nat with k by lia.
    field. apply not_0_INR. lia.
  - intros i Hi. rewrite nth_error_map, nth_error_seq.
    destruct (Nat.ltb_spec i k); [|lia]. reflexivity.
Qed.

(** The points of a [UniformRadialGrid]: there are [num_pts] of them, the
    first is [min_radii], they ascend strictly in equal steps of
    [(max_radii - min_radii) / (num_pts - 1)] and the last is [max_radii],
    except that for [num_pts = 1] the grid is the single point [min_radii]
    and does not contain [max_radii]. *)
Theorem uniform_grid_points :
  forall (num_pts min_radii max_radii : pyval) (spherical : bool)
         (n : Z) (lo hi : R),
    as_int num_pts = Some n -> (0 < n)%Z ->
    as_number min_radii = Some lo -> as_number max_radii = Some hi ->
    lo < hi ->
    exists g : BaseRadialGrid.t,
      UniformRadialGrid.__init__ num_pts min_radii max_radii spherical = Ok g /\
      BaseRadialGrid.spherical g = spherical /\
      length (BaseRadialGrid.points g) = Z.to_nat n /\
      hd_error (BaseRadialGrid.points g) = Some lo /\
      Sorted Rlt (BaseRadialGrid.points g) /\
      (n = 1%Z -> BaseRadialGrid.points g = [lo]) /\
      ((2 <= n)%Z ->
       last (BaseRadialGrid.points g) 0 = hi /\
       forall i : nat,
         (i < Z.to_nat n)%nat ->
         nth_error (BaseRadialGrid.points g) i
         = Some (INR i * ((hi - lo) / INR (Z.to_nat n - 1)) + lo)).
Proof.
  intros num_pts min_radii max_radii spherical n lo hi Hn Hpos Hlo Hhi Hlt.
  destruct (uniform_init_spec num_pts min_radii max_radii spherical)
    as (Hok & _ & _).
  rewrite (Hok n lo hi Hn Hpos Hlo Hhi Hlt).
  eexists. split; [reflexivity|]. cbn [BaseRadialGrid.spherical
    BaseRadialGrid.points BaseRadialGrid._spherical BaseRadialGrid._points].
  split; [reflexivity|].
  destruct (Z.eq_dec n 1) as [->|Hne].
  - change (Z.to_nat 1) with 1%nat. cbn [NpGrid.linspace].
    repeat split; try reflexivity; try lia. repeat constructor.
  - assert (H2 : (2 <= Z.to_nat n)%nat) by lia.
    destruct (linspace_points lo hi _ H2 Hlt) as (Hl & Hh & Hs & Hlast & Hnth).
    split; [exact Hl|]. split; [exact Hh|]. split; [exact Hs|].
    split; [intros; contradiction|]. intros _. split; assumption.
Qed.

Lemma uniform_grid_points_witness :
  exists g : BaseRadialGrid.t,
    UniformRadialGrid.__init__ (PyInt 3) (PyFloat 0) (PyFloat 10) true = Ok g /\
    length (BaseRadialGrid.points g) = 3%nat /\
    last (BaseRadialGrid.points g) 0 = 10.
Proof.
  assert (Hlt : 0 < 10) by lra.
  destruct (uniform_grid_points (PyInt 3) (PyFloat 0) (PyFloat 10) true
              3 0 10 eq_refl eq_refl eq_refl eq_refl Hlt)
    as (g & Hg & _ & Hlen & _ & _ & _ & Hlast).
  exists g. split; [exact Hg|]. split; [exact Hlen|].
  apply Hlast. lia.
Defined.

(** On a uniform grid of at least two points without the spherical weight,
    the integral of the constant [c] is exactly [c * (max_radii -
    min_radii)]. *)
Theorem uniform_integrate_constant :
  forall (num_pts min_radii max_radii : pyval) (n : Z) (lo hi c : R),
    as_int num_pts = Some n -> (2 <= n)%Z ->
    as_number min_radii = Some lo -> as_number max_radii = Some hi ->
    lo < hi ->
    exists g : BaseRadialGrid.t,
      UniformRadialGrid.__init__ num_pts min_radii max_radii false = Ok g /\
      BaseRadialGrid.integrate g (array1d (repeat c (Z.to_nat n)))
      = Ok (c * (hi - lo)).
Proof.
  intros num_pts min_radii max_radii n lo hi c Hn Hpos Hlo Hhi Hlt.
  destruct (uniform_init_spec num_pts min_radii max_radii false)
    as (Hok & _ & _).
  rewrite (Hok n lo hi Hn ltac:(lia) Hlo Hhi Hlt).
  eexists. split; [reflexivity|].
  assert (H2 : (2 <= Z.to_nat n)%nat) by lia.
  destruct (linspace_points lo hi _ H2 Hlt) as (Hl & Hh & _ & Hlast & _).
  rewrite integrate_array1d by (rewrite repeat_length; symmetry; exact Hl).
  cbn [BaseRadialGrid.spherical BaseRadialGrid.points
       BaseRadialGrid._spherical BaseRadialGrid._points].
  set (pts := NpGrid.linspace lo hi (Z.to_nat n)) in *. clearbody pts.
  rewrite <- Hl, trapezoidal_rule_constant, Hlast.
  destruct pts as [|p0 ps]; [discriminate|].
  injection Hh as ->. reflexivity.
Qed.

Lemma uniform_integrate_constant_witness :
  exists g : BaseRadialGrid.t,
    UniformRadialGrid.__init__ (PyInt 50) (PyFloat 0) (PyFloat 10) false = Ok g /\
    BaseRadialGrid.integrate g (array1d (repeat 2 50)) = Ok (2 * (10 - 0)).
Proof.
  assert (Hlt : 0 < 10) by lra.
  assert (Hn : (2 <= 50)%Z) by lia.
  exact (uniform_integrate_constant (PyInt 50) (PyFloat 0) (PyFloat 10)
           50 0 10 2 eq_refl Hn eq_refl eq_refl Hlt).
Defined.

(** ** The Clenshaw-Curtis grid *)

Lemma sorted_map_seq_bounded (f : nat -> R) (a n : nat) :
  (forall i, (a <= i)%nat -> (S i < a + n)%nat -> f i < f (S i)) ->
  Sorted Rlt (map f (seq a n)).
Proof.
  revert a; induction n as [|n IH]; intros a Hf; simpl; constructor.
  - apply IH. intros i H1 H2. apply Hf; lia.
  - destruct n; simpl; constructor. apply Hf; lia.
Qed.

(** The angle of the [i]-th of [n] points lies in [[0, pi/2)] and grows
    with [i]. *)
Lemma clenshaw_angle (n : Z) (i : nat) :
  (i < Z.to_nat n)%nat ->
  0 <= 0.5 * PI * INR i / IZR n < PI / 2 /\
  0.5 * PI * INR i / IZR n < 0.5 * PI * INR (S i) / IZR n.
Proof.
  intros Hi. pose proof PI_RGT_0 as Hpi.
  assert (Hn : IZR n = INR (Z.to_nat n)).
  { rewrite INR_IZR_INZ, Z2Nat.id; [reflexivity|lia]. }
  assert (Hlt : INR i < IZR n) by (rewrite Hn; apply lt_INR; exact Hi).
  assert (H0 : 0 <= INR i) by apply pos_INR.
  assert (Hpos : 0 < IZR n) by lra.
  assert (Hinv : 0 < / IZR n) by (apply Rinv_0_lt_compat; exact Hpos).
  assert (Hq : INR i / IZR n < 1).
  { apply (Rmult_lt_reg_r (IZR n)); [exact Hpos|]. field_simplify; lra. }
  assert (Hq0 : 0 <= INR i / IZR n) by (apply Rmult_le_pos; lra).
  replace (0.5 * PI * INR i / IZR n) with (0.5 * PI * (INR i / IZR n))
    by (field; lra).
  replace (0.5 * PI * INR (S i) / IZR n)
    with (0.5 * PI * (INR i / IZR n) + 0.5 * PI * / IZR n)
    by (rewrite S_INR; field; lra).
  repeat split; nra.
Qed.

Lemma one_minus_cos_range (n : Z) (i : nat) :
  (i < Z.to_nat n)%nat ->
  0 <= 1 - cos (0.5 * PI * INR i / IZR n) < 1.
Proof.
  intros Hi. destruct (clenshaw_angle n i Hi) as [[H0 H1] _].
  pose proof (COS_bound (0.5 * PI * INR i / IZR n)) as [_ Hc].
  pose proof PI_RGT_0.
  assert (0 < cos (0.5 * PI * INR i / IZR n)) by (apply cos_gt_0; lra).
  lra.
Qed.

Lemma one_minus_cos_increasing (n : Z) (i : nat) :
  (S i < Z.to_nat n)%nat ->
  1 - cos (0.5 * PI * INR i / IZR n) < 1 - cos (0.5 * PI * INR (S i) / IZR n).
Proof.
  intros Hi.
  destruct (clenshaw_angle n i ltac:(lia)) as [[H0 H1] Hstep].
  destruct (clenshaw_angle n (S i) Hi) as [[H0' H1'] _].
  pose proof PI_RGT_0.
  assert (cos (0.5 * PI * INR (S i) / IZR n) < cos (0.5 * PI * INR i / IZR n))
    by (apply cos_decreasing_1; lra).
  lra.
Qed.

(** The points [_get_points] generates: [num_pts] of them, ascending
    strictly from 0; the core points stay below [1 / (2 Z)] and the diffuse
    points below 25. *)
Theorem clenshaw_get_points_range :
  forall (z n : Z),
    (0 < z)%Z -> (0 <= n)%Z ->
    exists core diffuse : list R,
      ClenshawRadialGrid._get_points z n "core" = Ok core /\
      ClenshawRadialGrid._get_points z n "diffuse" = Ok diffuse /\
      length core = Z.to_nat n /\ length diffuse = Z.to_nat n /\
      Sorted Rlt core /\ Sorted Rlt diffuse /\
      Forall (fun p => 0 <= p < / IZR (2 * z)) core /\
      Forall (fun p => 0 <= p < 25) diffuse /\
      ((0 < n)%Z -> hd_error core = Some 0 /\ hd_error diffuse = Some 0).
Proof.
  intros z n Hz Hn.
  rewrite get_points_core, get_points_diffuse. rewrite !map_map.
  eexists; eexists. split; [reflexivity|]. split; [reflexivity|].
  assert (Hz2 : 0 < IZR (2 * z)) by (apply IZR_lt; lia).
  assert (Hinv : 0 < / IZR (2 * z)) by (apply Rinv_0_lt_compat; exact Hz2).
  split; [rewrite length_map, length_seq; reflexivity|].
  split; [rewrite length_map, length_seq; reflexivity|].
  split; [|split; [|split; [|split]]].
  - apply sorted_map_seq_bounded. intros i _ Hi.
    pose proof (one_minus_cos_increasing n i Hi).
    unfold Rdiv at 1 3. apply Rmult_lt_compat_r; assumption.
  - apply sorted_map_seq_bounded. intros i _ Hi.
    pose proof (one_minus_cos_increasing n i Hi). lra.
  - apply Forall_forall. intros p Hp. apply in_map_iff in Hp.
    destruct Hp as (i & <- & Hi). apply in_seq in Hi.
    pose proof (one_minus_cos_range n i ltac:(lia)) as [H0 H1].
    unfold Rdiv at 1 3. split.
    + apply Rmult_le_pos; lra.
    + rewrite <- (Rmult_1_l (/ IZR (2 * z))) at 2.
      apply Rmult_lt_compat_r; assumption.
  - apply Forall_forall. intros p Hp. apply in_map_iff in Hp.
    destruct Hp as (i & <- & Hi). apply in_seq in Hi.
    pose proof (one_minus_cos_range n i ltac:(lia)) as [H0 H1]. lra.
  - intros Hpos. destruct (Z.to_nat n) as [|k] eqn:Ek; [lia|].
    cbn [seq map hd_error INR].
    replace (0.5 * PI * 0 / IZR n) with 0 by (unfold Rdiv; ring).
    rewrite cos_0. split; f_equal; unfold Rdiv; ring.
Qed.

Lemma clenshaw_get_points_range_witness :
  exists core diffuse : list R,
    ClenshawRadialGrid._get_points 4 2 "core" = Ok core /\
    ClenshawRadialGrid._get_points 4 2 "diffuse" = Ok diffuse /\
    hd_error core = Some 0 /\ Forall (fun p => 0 <= p < 25) diffuse.
Proof.
  assert (Hz : (0 < 4)%Z) by lia. assert (Hn : (0 <= 2)%Z) by lia.
  destruct (clenshaw_get_points_range 4 2 Hz Hn)
    as (core & diffuse & Hc & Hd & _ & _ & _ & _ & _ & Hrange & Hhd).
  exists core, diffuse. split; [exact Hc|]. split; [exact Hd|].
  split; [|exact Hrange]. apply Hhd. lia.
Defined.

Lemma insert_permutation (x : R) (l : list R) :
  Permutation (NpGrid.insert x l) (x :: l).
Proof.
  induction l as [|y l IH]; simpl; [reflexivity|].
  destruct (Rle_dec x y); [reflexivity|].
  rewrite IH. apply perm_swap.
Qed.

Lemma insert_sorted (x : R) (l : list R) :
  Sorted Rle l -> Sorted Rle (NpGrid.insert x l).
Proof.
  induction 1 as [|y l Hs IH Hhd]; simpl; [repeat constructor|].
  destruct (Rle_dec x y) as [Hxy|Hxy].
  - constructor; [constructor; assumption|constructor; exact Hxy].
  - constructor; [exact IH|].
    destruct Hhd as [|z l Hyz]; simpl.
    + constructor. lra.
    + destruct (Rle_dec x z); constructor; lra.
Qed.

Lemma sort_permutation (l : list R) : Permutation (NpGrid.sort l) l.
Proof.
  unfold NpGrid.sort. induction l as [|x l IH]; simpl; [reflexivity|].
  rewrite insert_permutation, IH. reflexivity.
Qed.

Lemma sort_sorted (l : list R) : Sorted Rle (NpGrid.sort l).
Proof.
  unfold NpGrid.sort. induction l as [|x l IH]; simpl; [constructor|].
  apply insert_sorted. exact IH.
Qed.

(** The grid [ClenshawRadialGrid] builds from valid counts and a list of
    extra points: its points ascend, and they are the core points, the
    diffuse points without their first one (the second 0) and the extra
    points, rearranged; so there are [num_core_pts + (num_diffuse_pts - 1)
    + len(extra_pts)] of them.  No extra points and an empty list of extra
    points give the same grid. *)
Theorem clenshaw_grid_sorted :
  forall (atomic_number num_core_pts num_diffuse_pts : pyval)
         (extra : list R) (spherical : bool) (z nc nd : Z),
    as_int atomic_number = Some z -> (0 < z)%Z ->
    as_int num_core_pts = Some nc -> (0 <= nc)%Z ->
    as_int num_diffuse_pts = Some nd -> (0 <= nd)%Z ->
    exists (g : ClenshawRadialGrid.t) (core diffuse : list R),
      ClenshawRadialGrid.__init__ atomic_number num_core_pts num_diffuse_pts
        (PyList extra) spherical = Ok g /\
      ClenshawRadialGrid._get_points z nc "core" = Ok core /\
      ClenshawRadialGrid._get_points z nd "diffuse" = Ok diffuse /\
      let points := BaseRadialGrid.points (ClenshawRadialGrid.base g) in
      Sorted Rle points /\
      Permutation points (core ++ tl diffuse ++ extra) /\
      length points
      = (Z.to_nat nc + (Z.to_nat nd - 1) + length extra)%nat /\
      ClenshawRadialGrid._atomic_number g = z /\
      BaseRadialGrid.spherical (ClenshawRadialGrid.base g) = spherical /\
      (extra = [] ->
       ClenshawRadialGrid.__init__ atomic_number num_core_pts num_diffuse_pts
         PyNone spherical = Ok g).
Proof.
  intros atomic_number num_core_pts num_diffuse_pts extra spherical z nc nd
         Hz Hzpos Hnc Hncpos Hnd Hndpos.
  unfold ClenshawRadialGrid.__init__. rewrite Hz, Hnc, Hnd.
  destruct (Z.leb_spec z 0); [lia|].
  destruct (Z.ltb_spec nc 0); [lia|].
  destruct (Z.ltb_spec nd 0); [lia|].
  rewrite get_points_core, get_points_diffuse. cbn [bind].
  set (core := map (fun v => v / IZR (2 * z)) _).
  set (diffuse := map (fun v => 25 * v) _).
  assert (Hlc : length core = Z.to_nat nc)
    by (unfold core; rewrite !length_map, length_seq; reflexivity).
  assert (Hld : length (tl diffuse) = (Z.to_nat nd - 1)%nat).
  { unfold diffuse. rewrite !map_map.
    destruct (Z.to_nat nd); simpl; [reflexivity|].
    rewrite length_map, length_seq. lia. }
  assert (Hpts : (if match extra with [] => false | _ => true end
                  then ClenshawRadialGrid.concatenate_extra core (tl diffuse)
                         (PyList extra)
                  else Ok (core ++ tl diffuse))
                 = Ok (core ++ tl diffuse ++ extra)).
  { destruct extra; [rewrite app_nil_r|]; reflexivity. }
  cbn [ClenshawRadialGrid.truth bind]. rewrite Hpts. cbn [bind].
  rewrite base_init_array1d. cbn [bind].
  eexists; exists core, diffuse.
  split; [reflexivity|]. split; [reflexivity|]. split; [reflexivity|].
  cbn [ClenshawRadialGrid.base ClenshawRadialGrid._atomic_number
       BaseRadialGrid.points BaseRadialGrid._points
       BaseRadialGrid.spherical BaseRadialGrid._spherical].
  split; [apply sort_sorted|]. split; [apply sort_permutation|].
  split.
  { rewrite (Permutation_length (sort_permutation _)), !length_app. lia. }
  split; [reflexivity|]. split; [reflexivity|].
  intros ->. rewrite !app_nil_r. reflexivity.
Qed.

Lemma clenshaw_grid_sorted_witness :
  exists g : ClenshawRadialGrid.t,
    ClenshawRadialGrid.__init__ (PyInt 4) (PyInt 3) (PyInt 2) (PyList [50; 75])
      true = Ok g /\
    Sorted Rle (BaseRadialGrid.points (ClenshawRadialGrid.base g)) /\
    length (BaseRadialGrid.points (ClenshawRadialGrid.base g)) = 6%nat.
Proof.
  assert (Hz : (0 < 4)%Z) by lia.
  assert (Hc : (0 <= 3)%Z) by lia.
  assert (Hd : (0 <= 2)%Z) by lia.
  destruct (clenshaw_grid_sorted (PyInt 4) (PyInt 3) (PyInt 2) [50; 75] true
              4 3 2 eq_refl Hz eq_refl Hc eq_refl Hd)
    as (g & core & diffuse & Hg & _ & _ & Hs & _ & Hlen & _).
  exists g. split; [exact Hg|]. split; [exact Hs|exact Hlen].
Defined.

(* ================================================================== *)
(** * Properties of the cubic grids *)

Section ZipBlocks.

Context {A B C : Type}.

Lemma zip_with_app (f : A -> B -> C) (l1 l2 : list A) (m1 m2 : list B) :
  length l1 = length m1 ->
  Np.zip_with f (l1 ++ l2) (m1 ++ m2)
  = Np.zip_with f l1 m1 ++ Np.zip_with f l2 m2.
Proof.
  revert m1; induction l1 as [|a l1 IH]; intros [|b m1] H; try discriminate.
  - reflexivity.
  - simpl. rewrite IH by (simpl in H; lia). reflexivity.
Qed.

Lemma zip_with_repeat_l (f : A -> B -> C) (x : A) (m : list B) :
  Np.zip_with f (repeat x (length m)) m = map (f x) m.
Proof. induction m as [|b m IH]; simpl; [reflexivity|]. rewrite IH; reflexivity. Qed.

Lemma zip_with_map_l {A' : Type} (f : A -> B -> C) (h : A' -> A)
    (l : list A') (m : list B) :
  Np.zip_with f (map h l) m = Np.zip_with (fun a b => f (h a) b) l m.
Proof.
  revert m; induction l as [|a l IH]; intros [|b m]; simpl; auto.
  rewrite IH; reflexivity.
Qed.

End ZipBlocks.

Lemma tile_succ (l : list R) (k : nat) :
  NpGrid.tile l (S k) = l ++ NpGrid.tile l k.
Proof. reflexivity. Qed.

Lemma tile_length (l : list R) (k : nat) :
  length (NpGrid.tile l k) = (k * length l)%nat.
Proof.
  induction k as [|k IH]; [reflexivity|].
  rewrite tile_succ, length_app, IH. lia.
Qed.

Lemma tile_mul (l : list R) (a b : nat) :
  NpGrid.tile l (a * b) = NpGrid.tile (NpGrid.tile l a) b.
Proof.
  unfold NpGrid.tile. induction b as [|b IH].
  - rewrite Nat.mul_0_r. reflexivity.
  - rewrite Nat.mul_succ_r, Nat.add_comm, repeat_app, concat_app, IH.
    reflexivity.
Qed.

Lemma repeat_each_length (l : list R) (k : nat) :
  length (NpGrid.repeat_each l k) = (length l * k)%nat.
Proof.
  unfold NpGrid.repeat_each. induction l as [|x l IH]; [reflexivity|].
  simpl. rewrite length_app, repeat_length, IH. reflexivity.
Qed.

(** Zipping blocks of one length against copies of an array of that
    length. *)
Lemma zip_with_blocks {A C : Type} (f : A -> R -> C) (block : R -> list A)
    (z : list R) (l : list R) :
  (forall x, length (block x) = length z) ->
  Np.zip_with f (flat_map block l) (NpGrid.tile z (length l))
  = flat_map (fun x => Np.zip_with f (block x) z) l.
Proof.
  intros Hb. induction l as [|x l IH]; [reflexivity|].
  cbn [flat_map length]. rewrite tile_succ, zip_with_app by apply Hb.
  rewrite IH. reflexivity.
Qed.

Lemma zip_with_repeat_each_tile {C : Type} (f : R -> R -> C) (l m : list R) :
  Np.zip_with f (NpGrid.repeat_each l (length m)) (NpGrid.tile m (length l))
  = flat_map (fun x => map (f x) m) l.
Proof.
  unfold NpGrid.repeat_each.
  rewrite (zip_with_blocks f (fun x => repeat x (length m)) m l)
    by (intros; apply repeat_length).
  apply flat_map_ext. intros x. apply zip_with_repeat_l.
Qed.

(** [repeat], [tile] and [tile] lay the axis out as the full cube. *)
Lemma repeat_tile_cube (axis : list R) :
  Np.zip_with (fun xy z => (xy, z))
    (Np.zip_with pair (NpGrid.repeat_each axis (length axis ^ 2))
                      (NpGrid.tile (NpGrid.repeat_each axis (length axis))
                                   (length axis)))
    (NpGrid.tile axis (length axis ^ 2))
  = CubicGrid.cube axis.
Proof.
  assert (Hsq : (length axis ^ 2 = length axis * length axis)%nat)
    by (simpl; lia).
  set (Y := NpGrid.repeat_each axis (length axis)).
  assert (Hy : length Y = (length axis ^ 2)%nat)
    by (unfold Y; rewrite repeat_each_length; lia).
  assert (E1 : Np.zip_with pair (NpGrid.repeat_each axis (length axis ^ 2))
                 (NpGrid.tile Y (length axis))
               = flat_map (fun x => map (pair x) Y) axis).
  { rewrite <- Hy. apply zip_with_repeat_each_tile. }
  rewrite E1, Hsq, tile_mul.
  rewrite (zip_with_blocks (fun xy z => (xy, z))
             (fun x => map (pair x) Y) (NpGrid.tile axis (length axis)) axis).
  2: { intros x. rewrite length_map, tile_length. unfold Y.
       rewrite repeat_each_length. reflexivity. }
  unfold CubicGrid.cube. apply flat_map_ext. intros x.
  rewrite zip_with_map_l. unfold Y.
  apply (zip_with_repeat_each_tile (fun y z => (x, y, z)) axis axis).
Qed.

Lemma flat_map_length_const {A B : Type} (f : A -> list B) (l : list A)
    (k : nat) :
  (forall x, length (f x) = k) -> length (flat_map f l) = (length l * k)%nat.
Proof.
  intros Hf. induction l as [|x l IH]; [reflexivity|].
  simpl. rewrite length_app, Hf, IH. reflexivity.
Qed.

Lemma cube_length (axis : list R) :
  length (CubicGrid.cube axis) = (length axis ^ 3)%nat.
Proof.
  unfold CubicGrid.cube.
  rewrite (flat_map_length_const _ axis (length axis * length axis)).
  - simpl. lia.
  - intros x. rewrite (flat_map_length_const _ axis (length axis)).
    + reflexivity.
    + intros y. apply length_map.
Qed.

Lemma in_cube (axis : list R) (x y z : R) :
  In (x, y, z) (CubicGrid.cube axis) <-> In x axis /\ In y axis /\ In z axis.
Proof.
  unfold CubicGrid.cube. rewrite in_flat_map. split.
  - intros (x' & Hx & H). apply in_flat_map in H. destruct H as (y' & Hy & H).
    apply in_map_iff in H. destruct H as (z' & [= <- <- <-] & Hz). auto.
  - intros (Hx & Hy & Hz). exists x. split; [exact Hx|].
    apply in_flat_map. exists y. split; [exact Hy|].
    apply in_map_iff. exists z. auto.
Qed.

Lemma arange_nth (start stop step : R) (i : nat) :
  (i < length (NpGrid.arange start stop step))%nat ->
  nth_error (NpGrid.arange start stop step) i = Some (start + INR i * step).
Proof.
  unfold NpGrid.arange. rewrite length_map, length_seq. intros Hi.
  rewrite nth_error_map, nth_error_seq.
  destruct (Nat.ltb_spec i
              (Z.to_nat (NpGrid.ceil ((stop - start) / step)))); [|lia].
  reflexivity.
Qed.

Lemma typed_number_value (v : pyval) (h : R) :
  as_number v = Some h ->
  exists step, as_typed_number v = Some step /\ number_value step = h /\
    (forall z, as_int v = Some z -> step = Integer z) /\
    (as_int v = None -> step = Float h).
Proof.
  destruct v as [|b|z|x|str|l|a]; simpl; try discriminate; intros [= <-].
  - exists (Integer (if b then 1 else 0)%Z).
    split; [reflexivity|]. split; [reflexivity|].
    split; [intros z [= <-]; reflexivity|discriminate].
  - exists (Integer z). split; [reflexivity|]. split; [reflexivity|].
    split; [intros z' [= <-]; reflexivity|discriminate].
  - exists (Float x). split; [reflexivity|]. split; [reflexivity|].
    split; [discriminate|reflexivity].
Qed.

Lemma cubic_init_cube (smallest_pnt largest_pnt step_size : pyval)
    (lo hi h : R) :
  as_number smallest_pnt = Some lo -> as_number largest_pnt = Some hi ->
  as_number step_size = Some h -> 0 < h -> lo < hi ->
  exists step,
    as_typed_number step_size = Some step /\ number_value step = h /\
    CubicGrid.__init__ smallest_pnt largest_pnt step_size
    = Ok {| CubicGrid._points := CubicGrid.cube (NpGrid.arange lo (hi + h) h);
            CubicGrid._step := step |}.
Proof.
  intros Hlo Hhi Hh Hpos Hlt.
  destruct (typed_number_value step_size h Hh) as (step & Hs & Hv & _).
  exists step. split; [exact Hs|]. split; [exact Hv|].
  unfold CubicGrid.__init__. rewrite Hlo, Hhi, Hh, Hs.
  assert (E1 : Rleb h 0 = false) by (apply Rleb_false; exact Hpos).
  assert (E2 : Rleb hi lo = false) by (apply Rleb_false; exact Hlt).
  rewrite E1, E2, repeat_tile_cube. reflexivity.
Qed.

(** The grid [CubicGrid] builds from valid arguments is the full cube over
    one axis, the first coordinate varying slowest: its points are exactly
    the triples of axis points, each once per triple of positions, so that
    the grid has the cube of the number of axis points; the axis starts at
    [smallest_pnt] and advances by [step_size]; the step is stored as it was
    passed. *)
Theorem cubic_grid_points :
  forall (smallest_pnt largest_pnt step_size : pyval) (lo hi h : R),
    as_number smallest_pnt = Some lo -> as_number largest_pnt = Some hi ->
    as_number step_size = Some h -> 0 < h -> lo < hi ->
    exists (g : CubicGrid.t) (axis : list R),
      CubicGrid.__init__ smallest_pnt largest_pnt step_size = Ok g /\
      as_typed_number step_size = Some (CubicGrid.step g) /\
      number_value (CubicGrid.step g) = h /\
      CubicGrid.points g = CubicGrid.cube axis /\
      CubicGrid.__len__ g = (length axis ^ 3)%nat /\
      (forall x y z, In (x, y, z) (CubicGrid.points g) <->
                     In x axis /\ In y axis /\ In z axis) /\
      (forall i, (i < length axis)%nat ->
                 nth_error axis i = Some (lo + INR i * h)).
Proof.
  intros smallest_pnt largest_pnt step_size lo hi h Hlo Hhi Hh Hpos Hlt.
  destruct (cubic_init_cube _ _ _ lo hi h Hlo Hhi Hh Hpos Hlt)
    as (step & Hs & Hv & ->).
  eexists; exists (NpGrid.arange lo (hi + h) h).
  split; [reflexivity|]. split; [exact Hs|]. split; [exact Hv|].
  split; [reflexivity|]. split; [apply cube_length|]. split.
  - intros x y z. apply in_cube.
  - intros i Hi. apply arange_nth. exact Hi.
Qed.

Lemma cubic_grid_points_witness :
  exists (g : CubicGrid.t) (axis : list R),
    CubicGrid.__init__ (PyFloat 0) (PyFloat 1) (PyFloat 0.5) = Ok g /\
    CubicGrid.points g = CubicGrid.cube axis /\
    CubicGrid.__len__ g = (length axis ^ 3)%nat.
Proof.
  assert (Hh : 0 < 0.5) by lra. assert (Hlt : 0 < 1) by lra.
  destruct (cubic_grid_points (PyFloat 0) (PyFloat 1) (PyFloat 0.5) 0 1 0.5
              eq_refl eq_refl eq_refl Hh Hlt)
    as (g & axis & Hg & _ & _ & Hp & Hn & _).
  exists g, axis. split; [exact Hg|]. split; [exact Hp|exact Hn].
Defined.

Lemma Rsum_linear (a b : R) (u v : list R) :
  length u = length v ->
  Np.Rsum (Np.zip_with (fun p q => a * p + b * q) u v)
  = a * Np.Rsum u + b * Np.Rsum v.
Proof.
  unfold Np.Rsum. revert v; induction u as [|u0 u IH]; intros [|v0 v] H;
    try discriminate; simpl; [ring|].
  rewrite IH by (simpl in H; lia). ring.
Qed.


(** [CubicGrid.integrate] raises [ValueError] unless the array has one entry
    per grid point, and on such arrays it is linear: the integral of
    [a * u + b * v] is [a] times the integral of [u] plus [b] times the
    integral of [v]. *)
Theorem cubic_integrate_linear :
  forall (self : CubicGrid.t) (a b : R) (u v : list R) (arr : ndarray),
    (shape arr <> [CubicGrid.__len__ self] ->
     CubicGrid.integrate self arr = Raise ValueError) /\
    (length u = CubicGrid.__len__ self ->
     length v = CubicGrid.__len__ self ->
     exists Iu Iv : R,
       CubicGrid.integrate self (array1d u) = Ok Iu /\
       CubicGrid.integrate self (array1d v) = Ok Iv /\
       CubicGrid.integrate self
         (array1d (Np.zip_with (fun p q => a * p + b * q) u v))
       = Ok (a * Iu + b * Iv)).
Proof.
  intros self a b u v arr. split.
  - intros Hne. unfold CubicGrid.integrate, shape_eqb.
    destruct (list_eq_dec Nat.eq_dec (shape arr) [CubicGrid.__len__ self]);
      [contradiction|reflexivity].
  - intros Hu Hv. unfold CubicGrid.integrate. simpl shape.
    rewrite zip_with_length by lia. rewrite Hu, Hv, shape_eqb_refl.
    simpl negb. cbv iota. eexists; eexists.
    split; [reflexivity|]. split; [reflexivity|].
    simpl data. rewrite Rsum_linear by lia. f_equal. ring.
Qed.

Lemma cubic_integrate_linear_witness :
  CubicGrid.integrate (CubicGrid.mk [(0, 0, 0); (0, 0, 1)] (Float 2))
    (array1d [1; 2; 3]) = Raise ValueError /\
  exists Iu Iv : R,
    CubicGrid.integrate (CubicGrid.mk [(0, 0, 0); (0, 0, 1)] (Float 2))
      (array1d [1; 2]) = Ok Iu /\
    CubicGrid.integrate (CubicGrid.mk [(0, 0, 0); (0, 0, 1)] (Float 2))
      (array1d (Np.zip_with (fun p q => 3 * p + 5 * q) [1; 2] [4; 6]))
    = Ok (3 * Iu + 5 * Iv).
Proof.
  destruct (cubic_integrate_linear
              (CubicGrid.mk [(0, 0, 0); (0, 0, 1)] (Float 2))
              3 5 [1; 2] [4; 6] (array1d [1; 2; 3])) as [Herr Hlin].
  split.
  - apply Herr. simpl. discriminate.
  - destruct (Hlin eq_refl eq_refl) as (Iu & Iv & Hu & _ & H).
    exists Iu, Iv. split; assumption.
Defined.




(** ** The cubic grid over a point list *)

Lemma zip_mult_ones_r (t : list R) :
  Np.zip_with Rmult t (Np.ones (length t)) = t.
Proof.
  unfold Np.ones. induction t as [|x t IH]; simpl; [reflexivity|].
  rewrite IH. f_equal. ring.
Qed.

Lemma zip_mult_ones_l (t : list R) :
  Np.zip_with Rmult (Np.ones (length t)) t = t.
Proof.
  unfold Np.ones. induction t as [|x t IH]; simpl; [reflexivity|].
  rewrite IH. f_equal. ring.
Qed.

Lemma zip_mult_assoc (t a b : list R) :
  Np.zip_with Rmult (Np.zip_with Rmult t a) b
  = Np.zip_with Rmult t (Np.zip_with Rmult a b).
Proof.
  revert a b; induction t as [|x t IH]; intros [|y a] [|z b]; simpl; auto.
  rewrite IH. f_equal. ring.
Qed.

Lemma zip_mult_swap (t a b : list R) :
  Np.zip_with Rmult (Np.zip_with Rmult t a) b
  = Np.zip_with Rmult (Np.zip_with Rmult t b) a.
Proof.
  revert a b; induction t as [|x t IH]; intros [|y a] [|z b]; simpl; auto.
  rewrite IH. f_equal. ring.
Qed.

Lemma imul_all_same_length (total_arr : list R) (args : list (list R)) :
  Forall (fun a => length a = length total_arr) args ->
  RadialGridCubicGrid.imul_all total_arr args
  = Some (fold_left (Np.zip_with Rmult) args total_arr).
Proof.
  revert total_arr; induction args as [|a args IH]; intros t H; [reflexivity|].
  inversion H as [|? ? Ha Hr]; subst. cbn [RadialGridCubicGrid.imul_all fold_left].
  unfold RadialGridCubicGrid.imul. rewrite Ha, Nat.eqb_refl.
  apply IH. rewrite zip_with_length by lia. exact Hr.
Qed.

Lemma fold_left_zip_permutation (args args' : list (list R)) :
  Permutation args args' ->
  forall t, fold_left (Np.zip_with Rmult) args t
            = fold_left (Np.zip_with Rmult) args' t.
Proof.
  induction 1 as [|a l l' _ IH|a b l|l l' l'' _ IH1 _ IH2]; intros t; simpl.
  - reflexivity.
  - apply IH.
  - rewrite zip_mult_swap. reflexivity.
  - rewrite IH1. apply IH2.
Qed.

Lemma fold_left_zip_product (n : nat) (args : list (list R)) (t : list R) :
  length t = n -> Forall (fun a => length a = n) args ->
  fold_left (Np.zip_with Rmult) args t
  = Np.zip_with Rmult t (RadialGridCubicGrid.pointwise_product n args) /\
  length (RadialGridCubicGrid.pointwise_product n args) = n.
Proof.
  intros Ht H. revert t Ht.
  induction H as [|a args Ha _ IH]; intros t Ht.
  - unfold RadialGridCubicGrid.pointwise_product. cbn [fold_left fold_right].
    subst n. rewrite zip_mult_ones_r. split; [reflexivity|].
    apply repeat_length.
  - destruct (IH (Np.zip_with Rmult t a)) as [E L];
      [rewrite zip_with_length; lia|].
    cbn [fold_left]. rewrite E, zip_mult_assoc. split; [reflexivity|].
    unfold RadialGridCubicGrid.pointwise_product in *. cbn [fold_right].
    rewrite zip_with_length; lia.
Qed.

Lemma pointwise_product_nth (n : nat) (args : list (list R)) (i : nat) :
  (i < n)%nat -> Forall (fun a => length a = n) args ->
  nth_error (RadialGridCubicGrid.pointwise_product n args) i
  = Some (fold_right Rmult 1 (map (fun a => nth i a 0) args)).
Proof.
  intros Hi H. unfold RadialGridCubicGrid.pointwise_product.
  induction H as [|a args Ha _ IH]; cbn [fold_right map].
  - unfold Np.ones. rewrite nth_error_repeat by exact Hi. reflexivity.
  - rewrite nth_error_zip_with, IH.
    rewrite (nth_error_nth' a 0) by lia. reflexivity.
Qed.

(** [integrate] of arrays of one length is [step^3] times the sum over the
    points of the product of the arrays' entries; the order of the arrays
    plays no role; without any array it ends in [IndexError]. *)
Theorem radial_cubic_integrate_product :
  forall (self : RadialGridCubicGrid.t) (first : list R)
         (rest : list (list R)) (n : nat),
    Forall (fun a => length a = n) (first :: rest) ->
    let product := RadialGridCubicGrid.pointwise_product n (first :: rest) in
    RadialGridCubicGrid.integrate self (first :: rest)
    = RadialGridCubicGrid.Returns
        (RadialGridCubicGrid.step self ^ 3 * Np.Rsum product) /\
    length product = n /\
    (forall i, (i < n)%nat ->
       nth_error product i
       = Some (fold_right Rmult 1 (map (fun a => nth i a 0) (first :: rest)))) /\
    (forall args', Permutation (first :: rest) args' ->
       RadialGridCubicGrid.integrate self args'
       = RadialGridCubicGrid.integrate self (first :: rest)) /\
    RadialGridCubicGrid.integrate self [] = RadialGridCubicGrid.RaisesIndexError.
Proof.
  intros self first rest n H product.
  assert (Hrun : forall args hd tl, args = hd :: tl ->
            Forall (fun a => length a = n) args ->
            RadialGridCubicGrid.integrate self args
            = RadialGridCubicGrid.Returns
                (RadialGridCubicGrid.step self ^ 3
                 * Np.Rsum (fold_left (Np.zip_with Rmult) args (Np.ones n)))).
  { intros args hd tl -> Hall. unfold RadialGridCubicGrid.integrate.
    assert (Hhd : length hd = n) by (inversion Hall; assumption).
    rewrite Hhd, imul_all_same_length; [reflexivity|].
    unfold Np.ones. rewrite repeat_length. exact Hall. }
  destruct (fold_left_zip_product n (first :: rest) (Np.ones n)) as [E L];
    [apply repeat_length|exact H|].
  fold product in E, L.
  assert (E' : fold_left (Np.zip_with Rmult) (first :: rest) (Np.ones n)
               = product).
  { rewrite E. rewrite <- L at 1. apply zip_mult_ones_l. }
  split; [rewrite (Hrun _ first rest eq_refl H), E'; reflexivity|].
  split; [exact L|]. split.
  - intros i Hi. apply pointwise_product_nth; assumption.
  - split; [|reflexivity].
    intros args' Hperm.
    destruct args' as [|hd tl];
      [apply Permutation_sym, Permutation_nil in Hperm; discriminate|].
    assert (Hall' : Forall (fun a => length a = n) (hd :: tl)).
    { rewrite Forall_forall in *. intros a Ha. apply H.
      apply (Permutation_in a (Permutation_sym Hperm) Ha). }
    rewrite (Hrun _ hd tl eq_refl Hall'), (Hrun _ first rest eq_refl H).
    rewrite (fold_left_zip_permutation _ _ Hperm). reflexivity.
Qed.

Lemma radial_cubic_integrate_product_witness :
  RadialGridCubicGrid.integrate (RadialGridCubicGrid.mk 2) [[1; 2]; [3; 4]]
  = RadialGridCubicGrid.Returns (2 ^ 3 * (1 * (3 * 1) + (2 * (4 * 1) + 0))).
Proof.
  assert (H : Forall (fun a : list R => length a = 2%nat) [[1; 2]; [3; 4]])
    by (repeat constructor).
  destruct (radial_cubic_integrate_product (RadialGridCubicGrid.mk 2)
              [1; 2] [[3; 4]] 2 H) as (Hint & _).
  exact Hint.
Defined.

(** Broadcasting makes the order of the arrays matter when their lengths
    differ: a one-element array after an array of at least two entries
    scales the integral, while in the first place it fixes the length of
    the running product to 1 and the call ends in [ValueError]. *)
Theorem radial_cubic_integrate_broadcast :
  forall (self : RadialGridCubicGrid.t) (a : list R) (s : R),
    (2 <= length a)%nat ->
    RadialGridCubicGrid.integrate self [a; [s]]
    = RadialGridCubicGrid.Returns
        (RadialGridCubicGrid.step self ^ 3 * (s * Np.Rsum a)) /\
    RadialGridCubicGrid.integrate self [[s]; a]
    = RadialGridCubicGrid.RaisesValueError.
Proof.
  intros self a s Hlen. split.
  - assert (H1 : RadialGridCubicGrid.imul (Np.ones (length a)) a = Some a).
    { unfold RadialGridCubicGrid.imul, Np.ones.
      rewrite repeat_length, Nat.eqb_refl. f_equal. apply zip_mult_ones_l. }
    assert (H2 : RadialGridCubicGrid.imul a [s]
                 = Some (map (fun t => t * s) a)).
    { unfold RadialGridCubicGrid.imul.
      destruct (Nat.eqb_spec (length [s]) (length a)) as [E|_];
        [simpl in E; lia|reflexivity]. }
    unfold RadialGridCubicGrid.integrate.
    cbn [RadialGridCubicGrid.imul_all]. rewrite H1, H2.
    do 2 f_equal. unfold Np.Rsum. clear.
    induction a as [|x a IH]; simpl; [ring|]. rewrite IH. ring.
  - assert (H1 : RadialGridCubicGrid.imul (Np.ones (length [s])) [s]
                 = Some [1 * s]) by reflexivity.
    assert (H2 : RadialGridCubicGrid.imul [1 * s] a = None).
    { unfold RadialGridCubicGrid.imul.
      destruct (Nat.eqb_spec (length a) (length [1 * s])) as [E|_];
        [simpl in E; lia|].
      destruct a as [|x [|y a]]; simpl in Hlen; try lia. reflexivity. }
    unfold RadialGridCubicGrid.integrate.
    cbn [RadialGridCubicGrid.imul_all]. rewrite H1, H2. reflexivity.
Qed.

Lemma radial_cubic_integrate_broadcast_witness :
  RadialGridCubicGrid.integrate (RadialGridCubicGrid.mk 1) [[5]; [1; 2; 3]]
  = RadialGridCubicGrid.RaisesValueError.
Proof.
  apply (radial_cubic_integrate_broadcast (RadialGridCubicGrid.mk 1)
           [1; 2; 3] 5). simpl. lia.
Defined.

(* ================================================================== *)
(** * Properties of the error measures of the density model *)

Lemma broadcast_same_length (f : R -> R -> R) (l m : list R) :
  length l = length m ->
  DensityModel.broadcast f l m = Ok (Np.zip_with f l m).
Proof.
  intros H. unfold DensityModel.broadcast. rewrite H, Nat.eqb_refl.
  reflexivity.
Qed.

Lemma tl_length {A : Type} (l : list A) : length (tl l) = (length l - 1)%nat.
Proof. destruct l; simpl; lia. Qed.

Lemma removelast_length {A : Type} (l : list A) :
  length (removelast l) = (length l - 1)%nat.
Proof.
  induction l as [|a l IH]; [reflexivity|].
  destruct l as [|b l]; [reflexivity|].
  change (removelast (a :: b :: l)) with (a :: removelast (b :: l)).
  cbn [length] in *. rewrite IH. lia.
Qed.

Lemma zip_with_length_min {A B C : Type} (f : A -> B -> C) (l : list A)
    (m : list B) :
  length (Np.zip_with f l m) = Nat.min (length l) (length m).
Proof.
  revert m; induction l as [|a l IH]; intros [|b m]; simpl; auto.
Qed.

Lemma dm_trapz_same_length (y x : list R) :
  length y = length x ->
  DensityModel.trapz y x = Ok (BaseRadialGrid.trapezoidal_rule x y).
Proof.
  intros H. unfold DensityModel.trapz.
  rewrite broadcast_same_length by (rewrite tl_length, removelast_length; lia).
  cbn [bind]. rewrite broadcast_same_length.
  - cbn [bind]. rewrite <- trapz_trapezoidal_rule. reflexivity.
  - unfold NpGrid.diff.
    rewrite !zip_with_length_min, !tl_length, removelast_length. lia.
Qed.

Lemma integrate_model_trapz_same_length (self : DensityModel.t) (m : list R) :
  length m = length (DensityModel.grid self) ->
  DensityModel.integrate_model_trapz self m
  = Ok (BaseRadialGrid.trapezoidal_rule (DensityModel.grid self)
          (Np.zip_with Rmult (map (fun r => r ^ 2) (DensityModel.grid self)) m)).
Proof.
  intros H. unfold DensityModel.integrate_model_trapz, DensityModel.grid in *.
  rewrite broadcast_same_length by (rewrite length_map; lia). cbn [bind].
  apply dm_trapz_same_length. rewrite zip_with_length; rewrite length_map; lia.
Qed.

Lemma get_error_diffuse_same_length (self : DensityModel.t) (t a : ndarray) :
  length (data t) = length (DensityModel.grid self) ->
  length (data a) = length (DensityModel.grid self) ->
  DensityModel.get_error_diffuse self t a
  = Ok (BaseRadialGrid.trapezoidal_rule (DensityModel.grid self)
          (Np.zip_with Rmult (map (fun r => r ^ 2) (DensityModel.grid self))
             (Np.zip_with (fun p q => Rabs (p - q)) (data t) (data a)))).
Proof.
  intros Ht Ha. unfold DensityModel.get_error_diffuse, DensityModel.grid in *.
  rewrite broadcast_same_length by lia. cbn [bind].
  rewrite broadcast_same_length
    by (rewrite length_map, zip_with_length; lia). cbn [bind].
  apply dm_trapz_same_length.
  rewrite zip_with_length; rewrite length_map; [lia|].
  rewrite zip_with_length; lia.
Qed.

Lemma zip_mult_zero_r (w : list R) :
  Np.zip_with Rmult w (repeat 0 (length w)) = repeat 0 (length w).
Proof.
  induction w as [|x w IH]; simpl; [reflexivity|].
  rewrite IH. f_equal. ring.
Qed.

Lemma weighted_nonneg (r v : list R) :
  Forall (fun z => 0 <= z) v ->
  Forall (fun z => 0 <= z) (Np.zip_with Rmult (map (fun p => p ^ 2) r) v).
Proof.
  intros Hv; revert r. induction Hv as [|z v Hz _ IH]; intros [|r0 r]; simpl;
    constructor.
  - pose proof (pow2_ge_0 r0). apply Rmult_le_pos; assumption.
  - apply IH.
Qed.

(** The diffuse error of two models of the grid's length does not depend on
    their order, vanishes when they are equal, and on an ascending grid it is
    never negative. *)
Theorem diffuse_error_symmetric_nonneg :
  forall (self : DensityModel.t) (t a : ndarray),
    length (data t) = length (DensityModel.grid self) ->
    length (data a) = length (DensityModel.grid self) ->
    exists e : R,
      DensityModel.get_error_diffuse self t a = Ok e /\
      DensityModel.get_error_diffuse self a t = Ok e /\
      DensityModel.get_error_diffuse self t t = Ok 0 /\
      (Sorted Rle (DensityModel.grid self) -> 0 <= e).
Proof.
  intros self t a Ht Ha.
  rewrite !get_error_diffuse_same_length by assumption.
  eexists. split; [reflexivity|]. split; [|split].
  - do 3 f_equal. clear. generalize (data t) as u, (data a) as v.
    induction u as [|p u IH]; intros [|q v]; simpl; auto.
    rewrite IH. f_equal. apply Rabs_minus_sym.
  - f_equal.
    replace (Np.zip_with (fun p q => Rabs (p - q)) (data t) (data t))
      with (repeat 0 (length (data t))).
    + replace (Np.zip_with Rmult
                 (map (fun r => r ^ 2) (DensityModel.grid self))
                 (repeat 0 (length (data t))))
        with (repeat 0 (length (DensityModel.grid self))).
      * rewrite trapezoidal_rule_constant. ring.
      * rewrite Ht.
        rewrite <- (length_map (fun r => r ^ 2) (DensityModel.grid self)).
        symmetry. apply zip_mult_zero_r.
    + clear. induction (data t) as [|p u IH]; simpl; [reflexivity|].
      rewrite <- IH. f_equal.
      replace (p - p) with 0 by ring. symmetry. apply Rabs_R0.
  - intros Hs. apply trapezoidal_rule_nonneg; [exact Hs| |].
    + apply weighted_nonneg. clear. generalize (data t) as u, (data a) as v.
      induction u as [|p u IH]; intros [|q v]; simpl; constructor; auto.
      apply Rabs_pos.
    + rewrite zip_with_length; rewrite length_map; [lia|].
      rewrite zip_with_length; lia.
Qed.

Lemma diffuse_error_symmetric_nonneg_witness :
  exists e : R,
    DensityModel.get_error_diffuse (DensityModel.mk [0; 1; 2] None)
      (array1d [3; 1; 0]) (array1d [1; 1; 1]) = Ok e /\
    0 <= e.
Proof.
  destruct (diffuse_error_symmetric_nonneg (DensityModel.mk [0; 1; 2] None)
              (array1d [3; 1; 0]) (array1d [1; 1; 1]) eq_refl eq_refl)
    as (e & He & _ & _ & Hpos).
  exists e. split; [exact He|]. apply Hpos.
  simpl. repeat constructor; lra.
Defined.

Lemma trapezoidal_rule_monotone (x u v : list R) :
  Sorted Rle x -> length u = length x -> Forall2 Rle u v ->
  BaseRadialGrid.trapezoidal_rule x u <= BaseRadialGrid.trapezoidal_rule x v.
Proof.
  intros Hs Hu Hle.
  assert (Hv : length v = length x)
    by (rewrite <- Hu; symmetry; apply (Forall2_length Hle)).
  pose proof (trapezoidal_rule_linear (-1) 1 x u v Hu Hv) as Hlin.
  assert (0 <= BaseRadialGrid.trapezoidal_rule x
                 (Np.zip_with (fun p q => -1 * p + 1 * q) u v)).
  { apply trapezoidal_rule_nonneg; [exact Hs| |rewrite zip_with_length; lia].
    clear -Hle. induction Hle as [|p q u v Hpq _ IH]; simpl; constructor; auto.
    lra. }
  lra.
Qed.

Lemma weighted_le (r u v : list R) :
  Forall2 Rle u v ->
  Forall2 Rle (Np.zip_with Rmult (map (fun p => p ^ 2) r) u)
              (Np.zip_with Rmult (map (fun p => p ^ 2) r) v).
Proof.
  intros H; revert r. induction H as [|p q u v Hpq _ IH]; intros [|r0 r]; simpl;
    constructor.
  - pose proof (pow2_ge_0 r0). apply Rmult_le_compat_l; assumption.
  - apply IH.
Qed.

Lemma difference_le_abs (t a : list R) :
  length t = length a ->
  Forall2 Rle (Np.zip_with (fun p q => 1 * p + -1 * q) t a)
              (Np.zip_with (fun p q => Rabs (p - q)) t a).
Proof.
  revert a; induction t as [|p t IH]; intros [|q a] H; try discriminate;
    simpl; constructor.
  - pose proof (Rle_abs (p - q)). lra.
  - apply IH. simpl in H. lia.
Qed.

Lemma abs_difference_swap (t a : list R) :
  Np.zip_with (fun p q => Rabs (p - q)) t a
  = Np.zip_with (fun p q => Rabs (p - q)) a t.
Proof.
  revert a; induction t as [|p t IH]; intros [|q a]; simpl; auto.
  rewrite IH. f_equal. apply Rabs_minus_sym.
Qed.

(** On an ascending grid the integration error of two models of the grid's
    length is at most their diffuse error:
    [|int r^2 f - int r^2 g| <= int r^2 |f - g|]. *)
Theorem integration_error_le_diffuse_error :
  forall (self : DensityModel.t) (t a : list R),
    Sorted Rle (DensityModel.grid self) ->
    length t = length (DensityModel.grid self) ->
    length a = length (DensityModel.grid self) ->
    exists ei ed : R,
      DensityModel.get_integration_error self t a = Ok ei /\
      DensityModel.get_error_diffuse self (array1d t) (array1d a) = Ok ed /\
      0 <= ei <= ed.
Proof.
  intros self t a Hs Ht Ha.
  unfold DensityModel.get_integration_error.
  rewrite !integrate_model_trapz_same_length by assumption. cbn [bind].
  rewrite get_error_diffuse_same_length by assumption.
  eexists; eexists. split; [reflexivity|]. split; [reflexivity|].
  simpl data. split; [apply Rabs_pos|].
  set (x := DensityModel.grid self) in *.
  set (w := map (fun r => r ^ 2) x).
  assert (Hw : length w = length x) by (unfold w; apply length_map).
  assert (Hwl : forall l, length l = length x ->
                          length (Np.zip_with Rmult w l) = length x)
    by (intros l Hl; rewrite zip_with_length; lia).
  assert (Hupper : forall p q, length p = length x -> length q = length x ->
            BaseRadialGrid.trapezoidal_rule x (Np.zip_with Rmult w p)
            - BaseRadialGrid.trapezoidal_rule x (Np.zip_with Rmult w q)
            <= BaseRadialGrid.trapezoidal_rule x
                 (Np.zip_with Rmult w
                    (Np.zip_with (fun p q => Rabs (p - q)) p q))).
  { intros p q Hp Hq.
    pose proof (trapezoidal_rule_linear 1 (-1) x
                  (Np.zip_with Rmult w p) (Np.zip_with Rmult w q)
                  (Hwl p Hp) (Hwl q Hq)) as Hlin.
    rewrite <- weight_linear in Hlin.
    assert (BaseRadialGrid.trapezoidal_rule x
              (Np.zip_with Rmult w
                 (Np.zip_with (fun p q => 1 * p + -1 * q) p q))
            <= BaseRadialGrid.trapezoidal_rule x
                 (Np.zip_with Rmult w
                    (Np.zip_with (fun p q => Rabs (p - q)) p q))).
    { apply trapezoidal_rule_monotone; [exact Hs| |].
      - apply Hwl. rewrite zip_with_length; lia.
      - apply weighted_le. apply difference_le_abs. lia. }
    lra. }
  pose proof (Hupper t a Ht Ha) as H1.
  pose proof (Hupper a t Ha Ht) as H2.
  rewrite (abs_difference_swap a t) in H2.
  apply Rabs_le. lra.
Qed.

Lemma integration_error_le_diffuse_error_witness :
  exists ei ed : R,
    DensityModel.get_integration_error (DensityModel.mk [0; 1; 2] None)
      [3; 1; 0] [1; 1; 1] = Ok ei /\
    DensityModel.get_error_diffuse (DensityModel.mk [0; 1; 2] None)
      (array1d [3; 1; 0]) (array1d [1; 1; 1]) = Ok ed /\
    ei <= ed.
Proof.
  assert (Hs : Sorted Rle (DensityModel.grid (DensityModel.mk [0; 1; 2] None)))
    by (simpl; repeat constructor; lra).
  destruct (integration_error_le_diffuse_error
              (DensityModel.mk [0; 1; 2] None) [3; 1; 0] [1; 1; 1]
              Hs eq_refl eq_refl) as (ei & ed & Hi & Hd & _ & Hle).
  exists ei, ed. split; [exact Hi|]. split; [exact Hd|exact Hle].
Defined.

(** The spherical integral of [BaseRadialGrid] is [4 pi] times the model
    integral of [DensityModel] over the same points, for every array of the
    grid's length. *)
Theorem spherical_integrate_is_model_integral :
  forall (points m : list R) (true_model : option (list R)),
    length m = length points ->
    exists I : R,
      DensityModel.integrate_model_trapz
        (DensityModel.mk points true_model) m = Ok I /\
      BaseRadialGrid.integrate (BaseRadialGrid.mk points true) (array1d m)
      = Ok (4 * PI * I).
Proof.
  intros points m true_model Hlen.
  rewrite integrate_model_trapz_same_length by exact Hlen.
  rewrite integrate_array1d by exact Hlen.
  eexists. split; reflexivity.
Qed.

Lemma spherical_integrate_is_model_integral_witness :
  exists I : R,
    DensityModel.integrate_model_trapz (DensityModel.mk [0; 1; 3] None)
      [2; 4; 6] = Ok I /\
    BaseRadialGrid.integrate (BaseRadialGrid.mk [0; 1; 3] true)
      (array1d [2; 4; 6]) = Ok (4 * PI * I).
Proof.
  exact (spherical_integrate_is_model_integral [0; 1; 3] [2; 4; 6] None
           eq_refl).
Defined.

(** Shapes in [get_error_diffuse]: a one-element approximate model is spread
    over the grid, giving the diffuse error against the constant model, while
    models of different lengths, neither of them 1, end in [ValueError]. *)
Theorem diffuse_error_broadcast :
  forall (self : DensityModel.t) (t a : list R) (s : R),
    (length t = length (DensityModel.grid self) ->
     (2 <= length t)%nat ->
     DensityModel.get_error_diffuse self (array1d t) (array1d [s])
     = DensityModel.get_error_diffuse self (array1d t)
         (array1d (repeat s (length t)))) /\
    (length t <> length a -> length t <> 1%nat -> length a <> 1%nat ->
     DensityModel.get_error_diffuse self (array1d t) (array1d a)
     = Raise ValueError).
Proof.
  intros self t a s. split.
  - intros Ht H2. unfold DensityModel.get_error_diffuse. simpl data.
    assert (E1 : DensityModel.broadcast (fun p q => Rabs (p - q)) t [s]
                 = Ok (map (fun p => Rabs (p - s)) t)).
    { unfold DensityModel.broadcast.
      destruct (Nat.eqb_spec (length t) (length [s])) as [E|_];
        [simpl in E; lia|].
      destruct t as [|p [|q t]]; simpl in H2; try lia. reflexivity. }
    assert (E2 : DensityModel.broadcast (fun p q => Rabs (p - q)) t
                   (repeat s (length t))
                 = Ok (map (fun p => Rabs (p - s)) t)).
    { rewrite broadcast_same_length by (rewrite repeat_length; reflexivity).
      f_equal. clear. induction t as [|p t IH]; simpl; [reflexivity|].
      rewrite IH. reflexivity. }
    rewrite E1, E2. reflexivity.
  - intros Hne Ht Ha. unfold DensityModel.get_error_diffuse. simpl data.
    unfold DensityModel.broadcast.
    destruct (Nat.eqb_spec (length t) (length a)) as [E|_]; [contradiction|].
    destruct t as [|p [|q t]]; destruct a as [|x [|y a]]; simpl in *;
      try reflexivity; try lia.
Qed.

Lemma diffuse_error_broadcast_witness :
  DensityModel.get_error_diffuse (DensityModel.mk [0; 1; 2] None)
    (array1d [3; 1; 0]) (array1d [1; 2])
  = Raise ValueError.
Proof.
  apply (diffuse_error_broadcast (DensityModel.mk [0; 1; 2] None)
           [3; 1; 0] [1; 2] 0); simpl; lia.
Defined.

(* ================================================================== *)
(** * Further properties of the seed stage *)

(** A regular system has one solution only. *)
Lemma normal_equations_unique (w r rho : list R) (c1 a1 c2 a2 : R) :
  length w = length r -> length r = length rho ->
  GreedyLeastSquares.determinant w r <> 0 ->
  0 < c1 -> 0 < c2 ->
  GreedyLeastSquares.solves_normal_equations w r rho c1 a1 ->
  GreedyLeastSquares.solves_normal_equations w r rho c2 a2 ->
  c1 = c2 /\ a1 = a2.
Proof.
  intros Hr Hrho Hdet Hc1 Hc2 [E1 E1'] [E2 E2'].
  rewrite weighted_sum_residual in E1, E2 by assumption.
  rewrite weighted_sum_residual_squared in E1', E2' by assumption.
  unfold GreedyLeastSquares.determinant in Hdet.
  set (S0 := Np.Rsum w) in *.
  set (S2 := Np.Rsum (Np.zip_with Rmult w (map (fun x => x ^ 2) r))) in *.
  set (S4 := Np.Rsum (Np.zip_with Rmult w (map (fun x => x ^ 4) r))) in *.
  clearbody S0 S2 S4.
  assert (F1 : (ln c1 - ln c2) * S0 = (a1 - a2) * S2) by lra.
  assert (F2 : (ln c1 - ln c2) * S2 = (a1 - a2) * S4) by lra.
  assert (HA : (ln c1 - ln c2) * (S0 * S4 - S2 * S2) = 0).
  { replace ((ln c1 - ln c2) * (S0 * S4 - S2 * S2))
      with ((ln c1 - ln c2) * S0 * S4 - (ln c1 - ln c2) * S2 * S2) by ring.
    rewrite F1, F2. ring. }
  assert (Ha : (a1 - a2) * (S0 * S4 - S2 * S2) = 0).
  { replace ((a1 - a2) * (S0 * S4 - S2 * S2))
      with ((a1 - a2) * S4 * S0 - (a1 - a2) * S2 * S2) by ring.
    rewrite <- F1, <- F2. ring. }
  apply Rmult_integral in HA. apply Rmult_integral in Ha.
  destruct HA as [HA|HA]; [|contradiction].
  destruct Ha as [Ha|Ha]; [|contradiction].
  split; [|lra].
  rewrite <- (exp_ln c1 Hc1), <- (exp_ln c2 Hc2). f_equal. lra.
Qed.

Lemma weighted_sum_zero (g : R -> R -> R -> R) (f : R -> R) (w r : list R) :
  (forall wi ri, g wi ri (f ri) = 0) ->
  GreedyLeastSquares.weighted_sum g w r (map f r) = 0.
Proof.
  intros Hg. revert r; induction w as [|w0 w IH]; intros [|r0 r];
    try reflexivity.
  cbn [map]. rewrite weighted_sum_cons, Hg, IH. ring.
Qed.

Lemma gaussian_solves_normal_equations (w r : list R) (c alpha : R) :
  0 < c ->
  GreedyLeastSquares.solves_normal_equations w r
    (map (fun ri => c * exp (- (alpha * ri ^ 2))) r) c alpha.
Proof.
  intros Hc.
  assert (Hres : forall ri,
             GreedyLeastSquares.log_residual c alpha ri
               (c * exp (- (alpha * ri ^ 2))) = 0).
  { intros ri. unfold GreedyLeastSquares.log_residual.
    rewrite ln_mult by (auto using exp_pos). rewrite ln_exp. ring. }
  split; apply weighted_sum_zero; intros wi ri; rewrite Hres; ring.
Qed.

(** Exact recovery.  When the target density is itself one Gaussian
    [c * exp(-alpha * r^2)] with [c > 0] on a grid with two points whose
    squares differ, each of the three weightings yields exactly the
    candidate [(c, alpha)]; and the seed stage returns it when the model has
    no element and its cost there is a number below 1e10. *)
Theorem seed_recovers_single_gaussian :
  forall (optimize_using_nnls : list R -> list (list num) -> result (list num))
         (optimize_using_slsqp :
            AtomicGaussianDensity.t -> list num -> result (list num))
         (self : GreedyLeastSquares.t) (c alpha : R),
    let r := BaseRadialGrid.points (GreedyLeastSquares.grid self) in
    let cost := AtomicGaussianDensity.cost_function
                  (GreedyLeastSquares.gauss_obj self) in
    0 < c ->
    GreedyLeastSquares.density self
    = map (fun ri => c * exp (- (alpha * ri ^ 2))) r ->
    (exists ri rj, In ri r /\ In rj r /\ ri ^ 2 <> rj ^ 2) ->
    GreedyLeastSquares.candidates self
    = [[Fin c; Fin alpha]; [Fin c; Fin alpha]; [Fin c; Fin alpha]] /\
    (AtomicGaussianDensity.element (GreedyLeastSquares.gauss_obj self) = None ->
     nltb (cost [Fin c; Fin alpha]) (Fin 1e10) = true ->
     GreedyLeastSquares.get_best_one_function_solution
       optimize_using_nnls optimize_using_slsqp self
     = Ok (Some [Fin c; Fin alpha])).
Proof.
  intros nnls slsqp self c alpha r cost Hc Hrho Hgrid.
  assert (Hlen : length (GreedyLeastSquares.density self) = length r)
    by (rewrite Hrho; apply length_map).
  assert (Hpos : Forall (fun x => 0 < x) (GreedyLeastSquares.density self)).
  { rewrite Hrho. apply Forall_forall. intros x Hx. apply in_map_iff in Hx.
    destruct Hx as (ri & <- & _). apply Rmult_lt_0_compat; auto using exp_pos. }
  pose proof (candidates_regular self Hlen Hpos Hgrid) as HF.
  pose proof (weights_positive self Hpos) as HP.
  pose proof (weights_length self Hlen) as HL.
  fold r in HF, HL.
  assert (Hall : Forall (fun p => p = [Fin c; Fin alpha])
                   (GreedyLeastSquares.candidates self)).
  { clear cost. revert HP HL.
    induction HF as [|w p ws ps Hwp _ IH]; intros HP HL; constructor.
    - inversion HP as [|? ? HP0 _]; inversion HL as [|? ? HL0 _]; subst.
      destruct Hwp as (c' & a' & -> & _ & _ & Hc' & Hne).
      destruct Hgrid as (ri & rj & Hi & Hj & Hdiff).
      assert (Hdet : GreedyLeastSquares.determinant w r <> 0).
      { pose proof (determinant_pos w r ri rj HP0 HL0 Hi Hj Hdiff). lra. }
      rewrite Hrho in Hne.
      destruct (normal_equations_unique w r _ c' a' c alpha HL0
                  (eq_sym (length_map _ r)) Hdet Hc' Hc Hne
                  (gaussian_solves_normal_equations w r c alpha Hc))
        as [-> ->].
      reflexivity.
    - inversion HP; inversion HL; subst. apply IH; assumption. }
  assert (Hcands : GreedyLeastSquares.candidates self
                   = [[Fin c; Fin alpha]; [Fin c; Fin alpha]; [Fin c; Fin alpha]]).
  { unfold GreedyLeastSquares.candidates in *.
    inversion Hall as [|? ? H1 Hall1]; subst.
    inversion Hall1 as [|? ? H2 Hall2]; subst.
    inversion Hall2 as [|? ? H3 _]; subst.
    rewrite H1, H2, H3. reflexivity. }
  split; [exact Hcands|].
  intros Helem Hlow.
  pose proof (seed_returns_least nnls slsqp self) as Hret. cbv zeta in Hret.
  assert (Hnan : Forall
                   (fun p => AtomicGaussianDensity.cost_function
                               (GreedyLeastSquares.gauss_obj self) p <> NaN)
                   (GreedyLeastSquares.candidates self)).
  { rewrite Forall_forall in *. intros p Hin. rewrite (Hall p Hin).
    intros E. unfold cost in Hlow. rewrite E in Hlow. discriminate. }
  assert (Hex : Exists
                  (fun p => nltb (AtomicGaussianDensity.cost_function
                                    (GreedyLeastSquares.gauss_obj self) p)
                                 (Fin 1e10) = true)
                  (GreedyLeastSquares.candidates self)).
  { rewrite Hcands. apply Exists_cons_hd. exact Hlow. }
  destruct (Hret Helem Hnan Hex) as (p & Hp & Hin & _).
  rewrite Hp. rewrite Forall_forall in Hall. rewrite (Hall p Hin).
  reflexivity.
Qed.

(** The density [2 exp(-1.5 r^2)] on the grid 0, 1, 2 under the model of the
    specification: the seed stage returns (2, 1.5). *)
Lemma seed_recovers_single_gaussian_witness :
  GreedyLeastSquares.get_best_one_function_solution
    Solvers.zero_coefficients Solvers.initial_point
    (Scenario.strategy [0; 1; 2]
       (map (fun ri => 2 * exp (- (1.5 * ri ^ 2))) [0; 1; 2]) None)
  = Ok (Some [Fin 2; Fin 1.5]).
Proof.
  set (self := Scenario.strategy [0; 1; 2]
                 (map (fun ri => 2 * exp (- (1.5 * ri ^ 2))) [0; 1; 2]) None).
  assert (Hc : 0 < 2) by lra.
  assert (Hgrid : exists ri rj,
             In ri (BaseRadialGrid.points (GreedyLeastSquares.grid self)) /\
             In rj (BaseRadialGrid.points (GreedyLeastSquares.grid self)) /\
             ri ^ 2 <> rj ^ 2).
  { exists 0, 1. simpl. repeat split; auto. lra. }
  destruct (seed_recovers_single_gaussian Solvers.zero_coefficients
              Solvers.initial_point self 2 1.5 Hc eq_refl Hgrid) as [_ Hseed].
  apply Hseed; [reflexivity|].
  change (AtomicGaussianDensity.cost_function (GreedyLeastSquares.gauss_obj self))
    with (AtomicGaussianDensity.sum_of_squared_residuals [0; 1; 2]
            (map (fun ri => 2 * exp (- (1.5 * ri ^ 2))) [0; 1; 2])).
  rewrite cost_one_function. unfold Np.Rsum. cbn [map Np.zip_with fold_right].
  unfold nltb. apply Rltb_true.
  match goal with |- ?x < _ => replace x with 0 by ring end. lra.
Defined.

Lemma squared_residual_expand (w r rho : list R) (c a c' a' : R) :
  let u := ln c - ln c' in
  let v := a' - a in
  GreedyLeastSquares.weighted_squared_log_residual w r rho c' a'
  = GreedyLeastSquares.weighted_squared_log_residual w r rho c a
    + 2 * u * GreedyLeastSquares.weighted_sum
                (fun w r rho => w * GreedyLeastSquares.log_residual c a r rho)
                w r rho
    + 2 * v * GreedyLeastSquares.weighted_sum
                (fun w r rho =>
                   w * r ^ 2 * GreedyLeastSquares.log_residual c a r rho)
                w r rho
    + GreedyLeastSquares.weighted_sum
        (fun w r _ => w * (u + v * r ^ 2) ^ 2) w r rho.
Proof.
  intros u v. unfold GreedyLeastSquares.weighted_squared_log_residual.
  revert r rho; induction w as [|w0 w IH]; intros [|r0 r] [|x0 rho];
    try (unfold GreedyLeastSquares.weighted_sum, Np.Rsum; simpl; ring).
  rewrite !weighted_sum_cons, IH.
  unfold GreedyLeastSquares.log_residual, u, v. ring.
Qed.

Lemma weighted_square_nonneg (w r rho : list R) (u v : R) :
  Forall (fun x => 0 < x) w ->
  0 <= GreedyLeastSquares.weighted_sum
         (fun w r _ => w * (u + v * r ^ 2) ^ 2) w r rho.
Proof.
  intros Hw; revert r rho.
  induction Hw as [|w0 w Hw0 _ IH]; intros [|r0 r] [|x0 rho];
    try (unfold GreedyLeastSquares.weighted_sum, Np.Rsum; simpl; lra).
  rewrite weighted_sum_cons. specialize (IH r rho).
  pose proof (pow2_ge_0 (u + v * r0 ^ 2)). nra.
Qed.

(** Each candidate of the seed stage is a least-squares fit of the
    logarithm: on a grid with two points whose squares differ and a positive
    density, no positive coefficient and no exponent give a smaller weighted
    sum of squared residuals of [ln(density) = ln(coefficient) - exponent *
    r^2] than the candidate of that weighting. *)
Theorem seed_candidates_minimise_log_residual :
  forall (self : GreedyLeastSquares.t),
    let r := BaseRadialGrid.points (GreedyLeastSquares.grid self) in
    let rho := GreedyLeastSquares.density self in
    length rho = length r ->
    Forall (fun x => 0 < x) rho ->
    (exists ri rj, In ri r /\ In rj r /\ ri ^ 2 <> rj ^ 2) ->
    Forall2
      (fun w p =>
         exists c a : R,
           p = [Fin c; Fin a] /\ 0 < c /\
           forall c' a' : R,
             0 < c' ->
             GreedyLeastSquares.weighted_squared_log_residual w r rho c a
             <= GreedyLeastSquares.weighted_squared_log_residual w r rho c' a')
      (GreedyLeastSquares.weights self) (GreedyLeastSquares.candidates self).
Proof.
  intros self r rho Hlen Hpos Hgrid.
  pose proof (candidates_regular self Hlen Hpos Hgrid) as HF.
  pose proof (weights_positive self Hpos) as HP.
  fold r rho in HF. revert HP.
  induction HF as [|w p ws ps Hwp _ IH]; intros HP; constructor.
  - inversion HP as [|? ? HP0 _]; subst.
    destruct Hwp as (c & a & -> & _ & _ & Hc & [E1 E2]).
    exists c, a. split; [reflexivity|]. split; [exact Hc|].
    intros c' a' Hc'.
    rewrite (squared_residual_expand w r rho c a c' a'). cbv zeta.
    rewrite E1, E2.
    pose proof (weighted_square_nonneg w r rho (ln c - ln c') (a' - a) HP0).
    lra.
  - inversion HP; subst. apply IH; assumption.
Qed.

Lemma seed_candidates_minimise_log_residual_witness :
  Forall2
    (fun w p =>
       exists c a : R,
         p = [Fin c; Fin a] /\ 0 < c /\
         forall c' a' : R,
           0 < c' ->
           GreedyLeastSquares.weighted_squared_log_residual w [0; 1] [1; 1] c a
           <= GreedyLeastSquares.weighted_squared_log_residual w [0; 1] [1; 1]
                c' a')
    (GreedyLeastSquares.weights (Scenario.strategy [0; 1] [1; 1] None))
    (GreedyLeastSquares.candidates (Scenario.strategy [0; 1] [1; 1] None)).
Proof.
  apply (seed_candidates_minimise_log_residual
           (Scenario.strategy [0; 1] [1; 1] None)).
  - reflexivity.
  - repeat constructor; simpl; lra.
  - exists 0, 1. simpl. repeat split; auto. lra.
Defined.

Lemma weighted_sum_scaled (g g' : R -> R -> R -> R) (kw k : R)
    (w r rho : list R) :
  Forall (fun x => 0 < x) rho ->
  (forall wi ri x, 0 < x -> g' (kw * wi) ri (k * x) = kw * g wi ri x) ->
  GreedyLeastSquares.weighted_sum g' (map (fun x => kw * x) w) r
    (map (fun x => k * x) rho)
  = kw * GreedyLeastSquares.weighted_sum g w r rho.
Proof.
  intros Hrho Hg. revert w r.
  induction Hrho as [|x0 rho Hx0 _ IH]; intros [|w0 w] [|r0 r];
    try (unfold GreedyLeastSquares.weighted_sum, Np.Rsum; simpl; ring).
  cbn [map]. rewrite !weighted_sum_cons, IH, Hg by exact Hx0. ring.
Qed.

Lemma log_residual_scaled (k c a ri x : R) :
  0 < k -> 0 < c -> 0 < x ->
  GreedyLeastSquares.log_residual (k * c) a ri (k * x)
  = GreedyLeastSquares.log_residual c a ri x.
Proof.
  intros Hk Hc Hx. unfold GreedyLeastSquares.log_residual.
  rewrite !ln_mult by assumption. ring.
Qed.

Lemma normal_equations_scaled (w r rho : list R) (kw k c a : R) :
  0 < k -> 0 < c -> Forall (fun x => 0 < x) rho ->
  GreedyLeastSquares.solves_normal_equations w r rho c a ->
  GreedyLeastSquares.solves_normal_equations
    (map (fun x => kw * x) w) r (map (fun x => k * x) rho) (k * c) a.
Proof.
  intros Hk Hc Hrho [E1 E2]. split.
  - rewrite (weighted_sum_scaled
               (fun w r rho => w * GreedyLeastSquares.log_residual c a r rho)
               _ kw k w r rho Hrho).
    + rewrite E1. ring.
    + intros wi ri x Hx. rewrite log_residual_scaled by assumption. ring.
  - rewrite (weighted_sum_scaled
               (fun w r rho =>
                  w * r ^ 2 * GreedyLeastSquares.log_residual c a r rho)
               _ kw k w r rho Hrho).
    + rewrite E2. ring.
    + intros wi ri x Hx. rewrite log_residual_scaled by assumption. ring.
Qed.

Lemma ones_scaled (n : nat) : Np.ones n = map (fun x => 1 * x) (Np.ones n).
Proof.
  unfold Np.ones. induction n as [|n IH]; [reflexivity|].
  cbn [repeat map]. rewrite <- IH. f_equal. ring.
Qed.

Lemma regular_candidate_scaled (w r rho : list R) (kw k : R) (p p' : list num) :
  0 < kw -> 0 < k ->
  Forall (fun x => 0 < x) w -> Forall (fun x => 0 < x) rho ->
  length w = length r -> length r = length rho ->
  (exists ri rj, In ri r /\ In rj r /\ ri ^ 2 <> rj ^ 2) ->
  GreedyLeastSquares.regular_candidate w r rho p ->
  GreedyLeastSquares.regular_candidate
    (map (fun x => kw * x) w) r (map (fun x => k * x) rho) p' ->
  exists c a : R, p = [Fin c; Fin a] /\ p' = [Fin (k * c); Fin a].
Proof.
  intros Hkw Hk Hw Hrho Hlw Hlr (ri & rj & Hi & Hj & Hne)
         (c & a & -> & _ & _ & Hc & HNE) (c' & a' & -> & _ & _ & Hc' & HNE').
  exists c, a. split; [reflexivity|].
  assert (Hw' : Forall (fun x => 0 < x) (map (fun x => kw * x) w)).
  { apply Forall_forall. intros x Hx. apply in_map_iff in Hx.
    destruct Hx as (y & <- & Hy). rewrite Forall_forall in Hw.
    apply Rmult_lt_0_compat; auto. }
  assert (Hdet : GreedyLeastSquares.determinant (map (fun x => kw * x) w) r <> 0).
  { pose proof (determinant_pos _ r ri rj Hw'
                  ltac:(rewrite length_map; exact Hlw) Hi Hj Hne). lra. }
  destruct (normal_equations_unique (map (fun x => kw * x) w) r
              (map (fun x => k * x) rho) c' a' (k * c) a)
    as [-> ->]; auto.
  - rewrite length_map. exact Hlw.
  - rewrite length_map. exact Hlr.
  - apply Rmult_lt_0_compat; assumption.
  - apply normal_equations_scaled; assumption.
Qed.

(** Rescaling the target density by [k > 0] rescales the coefficient of
    every seed candidate by [k] and leaves its exponent unchanged (on a grid
    with two points whose squares differ, for a positive density). *)
Theorem seed_candidates_scale_with_density :
  forall (self self' : GreedyLeastSquares.t) (k : R),
    let r := BaseRadialGrid.points (GreedyLeastSquares.grid self) in
    let rho := GreedyLeastSquares.density self in
    0 < k ->
    BaseRadialGrid.points (GreedyLeastSquares.grid self') = r ->
    GreedyLeastSquares.density self' = map (fun x => k * x) rho ->
    length rho = length r ->
    Forall (fun x => 0 < x) rho ->
    (exists ri rj, In ri r /\ In rj r /\ ri ^ 2 <> rj ^ 2) ->
    Forall2
      (fun p p' => exists c a : R, p = [Fin c; Fin a] /\
                                   p' = [Fin (k * c); Fin a])
      (GreedyLeastSquares.candidates self)
      (GreedyLeastSquares.candidates self').
Proof.
  intros self self' k r rho Hk Hr' Hrho' Hlen Hpos Hgrid.
  assert (Hlen' : length (GreedyLeastSquares.density self')
                  = length (BaseRadialGrid.points (GreedyLeastSquares.grid self')))
    by (rewrite Hrho', Hr', length_map; exact Hlen).
  assert (Hpos' : Forall (fun x => 0 < x) (GreedyLeastSquares.density self')).
  { rewrite Hrho'. apply Forall_forall. intros x Hx. apply in_map_iff in Hx.
    destruct Hx as (y & <- & Hy). rewrite Forall_forall in Hpos.
    apply Rmult_lt_0_compat; auto. }
  assert (Hgrid' : exists ri rj,
             In ri (BaseRadialGrid.points (GreedyLeastSquares.grid self')) /\
             In rj (BaseRadialGrid.points (GreedyLeastSquares.grid self')) /\
             ri ^ 2 <> rj ^ 2) by (rewrite Hr'; exact Hgrid).
  pose proof (candidates_regular self Hlen Hpos Hgrid) as HF.
  pose proof (candidates_regular self' Hlen' Hpos' Hgrid') as HF'.
  pose proof (weights_positive self Hpos) as HP.
  pose proof (weights_length self Hlen) as HL.
  fold r rho in HF, HL. rewrite Hr', Hrho' in HF'. fold rho in HF'.
  unfold GreedyLeastSquares.weights in HF, HF', HP, HL.
  rewrite Hr', Hrho' in HF'. fold r rho in HF, HF', HP, HL.
  pose proof (ones_scaled (length r)) as E1.
  assert (E3 : map (fun x => x ^ 2) (map (fun x => k * x) rho)
               = map (fun x => k ^ 2 * x) (map (fun x => x ^ 2) rho)).
  { rewrite !map_map. apply map_ext. intros x. ring. }
  rewrite E1, E3 in HF'.
  unfold GreedyLeastSquares.candidates in *.
  inversion HF as [|? ? ? ? F1 HF1]; subst.
  inversion HF1 as [|? ? ? ? F2 HF2]; subst.
  inversion HF2 as [|? ? ? ? F3 _]; subst.
  inversion HF' as [|? ? ? ? G1 HG1]; subst.
  inversion HG1 as [|? ? ? ? G2 HG2]; subst.
  inversion HG2 as [|? ? ? ? G3 _]; subst.
  inversion HP as [|? ? P1 HP1]; subst.
  inversion HP1 as [|? ? P2 HP2]; subst.
  inversion HP2 as [|? ? P3 _]; subst.
  inversion HL as [|? ? L1 HL1]; subst.
  inversion HL1 as [|? ? L2 HL2]; subst.
  inversion HL2 as [|? ? L3 _]; subst.
  assert (Hk2 : 0 < k ^ 2) by (apply pow_lt; exact Hk).
  constructor; [|constructor; [|constructor; [|constructor]]].
  - apply (regular_candidate_scaled (Np.ones (length r)) r rho 1 k);
      auto; try lra; lia.
  - apply (regular_candidate_scaled rho r rho k k); auto; lia.
  - apply (regular_candidate_scaled (map (fun x => x ^ 2) rho) r rho (k ^ 2) k);
      auto; lia.
Qed.

Lemma seed_candidates_scale_with_density_witness :
  Forall2
    (fun p p' => exists c a : R, p = [Fin c; Fin a] /\
                                 p' = [Fin (3 * c); Fin a])
    (GreedyLeastSquares.candidates (Scenario.strategy [0; 1] [2; 1] None))
    (GreedyLeastSquares.candidates
       (Scenario.strategy [0; 1] (map (fun x => 3 * x) [2; 1]) None)).
Proof.
  apply (seed_candidates_scale_with_density
           (Scenario.strategy [0; 1] [2; 1] None)
           (Scenario.strategy [0; 1] (map (fun x => 3 * x) [2; 1]) None) 3).
  - lra.
  - reflexivity.
  - reflexivity.
  - reflexivity.
  - repeat constructor; simpl; lra.
  - exists 0, 1. simpl. repeat split; auto. lra.
Defined.

(** A first candidate whose cost is NaN is never replaced by [min], because
    no cost compares below NaN: without an element the seed stage then ends
    in [UnboundLocalError] whatever the other two candidates cost.  And when
    neither of the other two costs is strictly below the first cost, which is
    below 1e10, the seed stage returns the first candidate, the one of the
    uniform weighting. *)
Theorem seed_first_candidate_priority :
  forall (optimize_using_nnls : list R -> list (list num) -> result (list num))
         (optimize_using_slsqp :
            AtomicGaussianDensity.t -> list num -> result (list num))
         (self : GreedyLeastSquares.t) (p1 p2 p3 : list num),
    let cost := AtomicGaussianDensity.cost_function
                  (GreedyLeastSquares.gauss_obj self) in
    AtomicGaussianDensity.element (GreedyLeastSquares.gauss_obj self) = None ->
    GreedyLeastSquares.candidates self = [p1; p2; p3] ->
    (cost p1 = NaN ->
     GreedyLeastSquares.get_best_one_function_solution
       optimize_using_nnls optimize_using_slsqp self
     = Raise UnboundLocalError) /\
    (nltb (cost p2) (cost p1) = false -> nltb (cost p3) (cost p1) = false ->
     nltb (cost p1) (Fin 1e10) = true ->
     GreedyLeastSquares.get_best_one_function_solution
       optimize_using_nnls optimize_using_slsqp self
     = Ok (Some p1)).
Proof.
  intros nnls slsqp self p1 p2 p3 cost Helem Hc.
  rewrite (seed_without_element nnls slsqp self Helem).
  unfold GreedyLeastSquares.p_min, GreedyLeastSquares.ranked. rewrite Hc.
  cbn [map]. unfold GreedyLeastSquares.py_min. cbn [fold_left fst snd].
  fold cost. split.
  - intros Hnan. rewrite Hnan.
    assert (E : forall x, nltb x NaN = false) by (intros []; reflexivity).
    rewrite !E. cbn [fst]. reflexivity.
  - intros H2 H3 Hlow. rewrite H2. cbn [fst]. rewrite H3. cbn [fst snd].
    rewrite Hlow. reflexivity.
Qed.

Lemma seed_first_candidate_priority_witness :
  GreedyLeastSquares.get_best_one_function_solution
    Solvers.zero_coefficients Solvers.initial_point
    (Scenario.strategy [0] [1] None)
  = Raise UnboundLocalError.
Proof.
  destruct (seed_first_candidate_priority Solvers.zero_coefficients
              Solvers.initial_point (Scenario.strategy [0] [1] None)
              [NaN; NaN] [NaN; NaN] [NaN; NaN] eq_refl single_point_candidates)
    as [Hnan _].
  apply Hnan. reflexivity.
Defined.

(** The refinement never reads the coefficients it is given: two parameter
    vectors of one length with the same second half (the exponents) are
    refined to the same result. *)
Theorem refinement_ignores_coefficients :
  forall (optimize_using_nnls : list R -> list (list num) -> result (list num))
         (optimize_using_slsqp :
            AtomicGaussianDensity.t -> list num -> result (list num))
         (self : GreedyLeastSquares.t) (coeffs coeffs' exps : list num),
    length coeffs = length exps -> length coeffs' = length exps ->
    GreedyLeastSquares.get_optimization_routine
      optimize_using_nnls optimize_using_slsqp self (coeffs ++ exps)
    = GreedyLeastSquares.get_optimization_routine
        optimize_using_nnls optimize_using_slsqp self (coeffs' ++ exps).
Proof.
  intros nnls slsqp self coeffs coeffs' exps Hc Hc'.
  unfold GreedyLeastSquares.get_optimization_routine.
  assert (H : forall cs : list num, length cs = length exps ->
                skipn (length (cs ++ exps) / 2) (cs ++ exps) = exps).
  { intros cs Hcs. rewrite length_app, <- Hcs.
    replace (length cs + length cs)%nat with (length cs * 2)%nat by lia.
    rewrite Nat.div_mul by discriminate.
    rewrite skipn_app, skipn_all, Nat.sub_diag. reflexivity. }
  rewrite (H coeffs Hc), (H coeffs' Hc'). reflexivity.
Qed.

Lemma refinement_ignores_coefficients_witness :
  GreedyLeastSquares.get_optimization_routine
    Solvers.zero_coefficients Solvers.initial_point
    (Scenario.strategy [0; 1] [2; 1] None) ([Fin 1] ++ [Fin 2])
  = GreedyLeastSquares.get_optimization_routine
      Solvers.zero_coefficients Solvers.initial_point
      (Scenario.strategy [0; 1] [2; 1] None) ([Fin 7] ++ [Fin 2]).
Proof.
  apply refinement_ignores_coefficients; reflexivity.
Defined.

(** [DensityModel.__init__] flattens a grid of any shape; a true model must
    be an array of exactly the grid's shape, so an array with the same
    entries in another shape ends in [ValueError]; a grid or a true model
    that is no array ends in [TypeError]. *)
Theorem density_model_init_shapes :
  forall (grid true_model : pyval),
    ((exists self, DensityModel.__init__ grid true_model = Ok self) <->
     exists g, grid = PyArray g /\
       (true_model = PyNone \/
        exists m, true_model = PyArray m /\ shape m = shape g)) /\
    (forall self, DensityModel.__init__ grid true_model = Ok self ->
       exists g, grid = PyArray g /\ DensityModel.grid self = data g /\
         (true_model = PyNone -> DensityModel.true_model self = None) /\
         (forall m, true_model = PyArray m ->
                    DensityModel.true_model self = Some (data m))) /\
    (forall g m, grid = PyArray g -> true_model = PyArray m ->
       shape m <> shape g ->
       DensityModel.__init__ grid true_model = Raise ValueError) /\
    (DensityModel.__init__ grid true_model = Raise TypeError <->
     (forall g, grid <> PyArray g) \/
     (true_model <> PyNone /\ forall m, true_model <> PyArray m)).
Proof.
  intros grid true_model. unfold DensityModel.__init__.
  destruct grid as [|b|z|x|s|l|g].
  1-6: (split; [split; [intros [? H]; discriminate
                       |intros (? & H & _); discriminate]|];
        split; [intros ? H; discriminate|];
        split; [intros ? ? H; discriminate|];
        split; [intros _; left; intros ? H; discriminate|reflexivity]).
  destruct true_model as [|b|z|x|s|l|m].
  2-6: (split; [split; [intros [? H]; discriminate
                       |intros (? & _ & [H|(? & H & _)]); discriminate]|];
        split; [intros ? H; discriminate|];
        split; [intros ? ? _ H; discriminate|];
        split; [intros _; right; split; [discriminate|intros ? H; discriminate]
               |reflexivity]).
  - split; [split; [intros _; exists g; auto|intros _; eexists; reflexivity]|].
    split.
    { intros self [= <-]. exists g. repeat split; auto.
      intros m H; discriminate. }
    split; [intros ? ? _ H; discriminate|].
    split; [discriminate|].
    intros [H|[H _]]; [exfalso; apply (H g); reflexivity|contradiction].
  - unfold shape_eqb.
    destruct (list_eq_dec Nat.eq_dec (shape g) (shape m)) as [E|E]; simpl.
    + split; [split; [intros _; exists g; split; [reflexivity|];
                      right; exists m; auto
                     |intros _; eexists; reflexivity]|].
      split.
      { intros self [= <-]. exists g. repeat split; auto.
        - intros H; discriminate.
        - intros m' [= <-]. reflexivity. }
      split; [intros g' m' [= <-] [= <-] H; exfalso; apply H; auto|].
      split; [discriminate|].
      intros [H|[_ H]]; [exfalso; apply (H g)|exfalso; apply (H m)];
        reflexivity.
    + split; [split; [intros [? H]; discriminate|]|].
      { intros (g' & [= <-] & [H|(m' & [= <-] & H)]); [discriminate|].
        exfalso. apply E. auto. }
      split; [intros ? H; discriminate|].
      split; [reflexivity|].
      split; [discriminate|].
      intros [H|[_ H]]; [exfalso; apply (H g)|exfalso; apply (H m)];
        reflexivity.
Qed.

Lemma density_model_init_shapes_witness :
  DensityModel.__init__
    (PyArray (mk_ndarray [3; 1]%nat [0; 1; 2]))
    (PyArray (array1d [5; 6; 7]))
  = Raise ValueError.
Proof.
  destruct (density_model_init_shapes
              (PyArray (mk_ndarray [3; 1]%nat [0; 1; 2]))
              (PyArray (array1d [5; 6; 7]))) as (_ & _ & H & _).
  apply (H (mk_ndarray [3; 1]%nat [0; 1; 2]) (array1d [5; 6; 7]));
    try reflexivity.
  simpl. discriminate.
Defined.
